(** * bluez-alsa: the device monitor library and the PCM proxy plug-in

    A shallow embedding of [src/bluealsalib/bluealsa.c] (the device monitor)
    and of [src/asound/bluealsa-pcm-proxy.c] (the PCM streaming core), with
    the properties their specification states about them.

    Conventions.  C integers are [Z], with the wrap-around of the unsigned
    types written out.  Every system call and every answer of the BlueALSA
    daemon is an input of the model (an oracle argument); what the code does
    to the outside world is recorded as a list of events.  A computation
    that never returns (a lock that is never released, a blocking call
    with no more input, a division by zero that ends the process) is
    [None]. *)

From Stdlib Require Import ZArith List Lia String Ascii Bool.
From stdpp Require Import base list gmap.
Open Scope Z_scope.

(** ** Constants of the system headers (Linux) *)

Definition POLLIN  : Z := 1.
Definition POLLOUT : Z := 4.
Definition POLLERR : Z := 8.
Definition POLLHUP : Z := 16.

Definition EINTR  : Z := 4.
Definition ENODEV : Z := 19.
Definition EINVAL : Z := 22.
Definition ENOMEM : Z := 12.

(** Result of a [read] or [write] system call: an error with its [errno],
    or the number of bytes the kernel is ready to move.  The call itself
    moves at most the requested length. *)
Inductive sys_result :=
| SysErr (errno : Z)
| SysData (avail : N).

(** [unsigned long], [size_t] and [snd_pcm_uframes_t] on LP64. *)
Definition ulong (x : Z) : Z := x mod 2 ^ 64.
(** [unsigned int]. *)
Definition uint (x : Z) : Z := x mod 2 ^ 32.
(** Conversion of an [unsigned long] bit pattern to [long]. *)
Definition slong (x : Z) : Z :=
  if ulong x <? 2 ^ 63 then ulong x else ulong x - 2 ^ 64.

(** ** Calls with state, events and blocking

    A call runs in a world [W]: it blocks for ever ([None]) or returns a
    value, the new world and the events it produced, in program order. *)

Definition M (W E A : Type) : Type := W -> option (A * W * list E).

Definition ret {W E A} (a : A) : M W E A := fun w => Some (a, w, []).

Definition bind {W E A B} (m : M W E A) (f : A -> M W E B) : M W E B :=
  fun w =>
    match m w with
    | None => None
    | Some (a, w1, t1) =>
      match f a w1 with
      | None => None
      | Some (b, w2, t2) => Some (b, w2, t1 ++ t2)
      end
    end.

Notation "x <- m ;; k" := (bind m (fun x => k))
  (at level 100, m at next level, right associativity).
Notation "m ;;; k" := (bind m (fun _ => k))
  (at level 100, right associativity).

(** The type of calls, under a name the modules below do not take. *)
Abbreviation Call := M.

Definition blocked {W E A} : M W E A := fun _ => None.

Definition emit {W E} (e : E) : M W E unit := fun w => Some (tt, w, [e]).

(** The value a [read] or [write] of [len] bytes returns. *)
Definition sys_return (r : sys_result) (len : Z) : Z :=
  match r with
  | SysErr _ => -1
  | SysData avail => Z.min (Z.of_N avail) len
  end.

(** ** The device monitor: [bluealsa.c] *)

Module Monitor.

(** [bdaddr_t]: six bytes. *)
Definition bdaddr_t := list Z.

Fixpoint memcmp (x y : list Z) (n : nat) : Z :=
  match n with
  | O => 0
  | S n' =>
    match x, y with
    | a :: x', b :: y' => if a =? b then memcmp x' y' n' else a - b
    | _, _ => 0
    end
  end.

Definition bacmp (a b : bdaddr_t) : Z := memcmp a b 6.

(** [bluezalsa_type] of [bluealsa.h], with the values of the C enum. *)
Inductive bluezalsa_type := BA_TYPE_NULL | BA_A2DP | BA_SCO.

Definition type_code (t : bluezalsa_type) : Z :=
  match t with BA_TYPE_NULL => 0 | BA_A2DP => 1 | BA_SCO => 2 end.

(** Modelled from the spec: the stream direction of a transport; the enum
    is declared in [shared/ctl-proto.h]. *)
Inductive ba_pcm_stream :=
| BA_PCM_STREAM_PLAYBACK
| BA_PCM_STREAM_CAPTURE
| BA_PCM_STREAM_DUPLEX.

(** Modelled from the spec: [struct ba_msg_transport] is declared in
    [shared/ctl-proto.h]; a transport carries the remote address, the
    profile, the codec, the channels, the rate and a stream direction. *)
Record ba_msg_transport := {
  tr_addr : bdaddr_t;
  tr_type : Z;
  tr_stream : ba_pcm_stream;
  tr_codec : Z;
  tr_channels : Z;
  tr_sampling : Z
}.

Definition with_stream (s : ba_pcm_stream) (t : ba_msg_transport) :=
  {| tr_addr := tr_addr t; tr_type := tr_type t; tr_stream := s;
     tr_codec := tr_codec t; tr_channels := tr_channels t;
     tr_sampling := tr_sampling t |}.

Definition with_addr (a : bdaddr_t) (t : ba_msg_transport) :=
  {| tr_addr := a; tr_type := tr_type t; tr_stream := tr_stream t;
     tr_codec := tr_codec t; tr_channels := tr_channels t;
     tr_sampling := tr_sampling t |}.

(** [struct bluezalsa_handle].  The monitor thread id and the mutex are
    part of the world below. *)
Record bluezalsa_handle := {
  ba_fd : Z;
  event_fd : Z;
  snd_fd : Z;
  client_event_fd : Z;
  interface : string;
  addr : option bdaddr_t;
  type : bluezalsa_type;
  transport : ba_msg_transport
}.

(** What a call does to the outside world, in program order. *)
Inductive event :=
| EvLock
| EvUnlock
| EvSndFd (old new : Z)
| EvWrite (fd : Z) (u : Z)
| EvRead (fd : Z) (nbytes : Z)
| EvPoll (fd0 fd1 : Z)
| EvClose (fd : Z)
| EvOpenTransport (fd : Z) (t : ba_msg_transport)
| EvCloseTransport (fd : Z) (t : ba_msg_transport).

(** The handle, the descriptors open in the process and the state of
    [transport_mutex]. *)
Record world := {
  hdl : bluezalsa_handle;
  open_fds : gset Z;
  mutex_held : bool
}.

Abbreviation M := (M world event).

Definition get_handle : M bluezalsa_handle := fun w => Some (hdl w, w, []).

Definition modify_handle (f : bluezalsa_handle -> bluezalsa_handle) : M unit :=
  fun w => Some (tt, {| hdl := f (hdl w); open_fds := open_fds w;
                        mutex_held := mutex_held w |}, []).



Definition set_snd_fd_h (v : Z) (h : bluezalsa_handle) :=
  {| ba_fd := ba_fd h; event_fd := event_fd h; snd_fd := v;
     client_event_fd := client_event_fd h; interface := interface h;
     addr := addr h; type := type h; transport := transport h |}.

Definition set_addr_h (a : option bdaddr_t) (h : bluezalsa_handle) :=
  {| ba_fd := ba_fd h; event_fd := event_fd h; snd_fd := snd_fd h;
     client_event_fd := client_event_fd h; interface := interface h;
     addr := a; type := type h; transport := transport h |}.

Definition set_type_h (t : bluezalsa_type) (h : bluezalsa_handle) :=
  {| ba_fd := ba_fd h; event_fd := event_fd h; snd_fd := snd_fd h;
     client_event_fd := client_event_fd h; interface := interface h;
     addr := addr h; type := t; transport := transport h |}.

Definition set_transport_h (t : ba_msg_transport) (h : bluezalsa_handle) :=
  {| ba_fd := ba_fd h; event_fd := event_fd h; snd_fd := snd_fd h;
     client_event_fd := client_event_fd h; interface := interface h;
     addr := addr h; type := type h; transport := t |}.

(** [h->snd_fd = v]. *)
Definition set_snd_fd (v : Z) : M unit :=
  h <- get_handle ;;
  modify_handle (set_snd_fd_h v) ;;;
  emit (EvSndFd (snd_fd h) v).

Definition pthread_mutex_lock : M unit :=
  fun w =>
    if mutex_held w then None
    else Some (tt, {| hdl := hdl w; open_fds := open_fds w;
                      mutex_held := true |}, [EvLock]).

Definition pthread_mutex_unlock : M unit :=
  fun w => Some (tt, {| hdl := hdl w; open_fds := open_fds w;
                        mutex_held := false |}, [EvUnlock]).

(** [close(fd)]. *)
Definition close (fd : Z) : M unit :=
  fun w => Some (tt, {| hdl := hdl w; open_fds := open_fds w ∖ {[fd]};
                        mutex_held := mutex_held w |}, [EvClose fd]).

(** Modelled from the spec: [bluealsa_close_transport] of the daemon client
    ([shared/ctl-client.c]) tells the daemon to release the transport; the
    descriptor of the FIFO stays with the caller, who closes it. *)
Definition bluealsa_close_transport (fd : Z) (t : ba_msg_transport) : M unit :=
  emit (EvCloseTransport fd t).

(** Modelled from the spec: [bluealsa_open_transport] of the daemon client
    answers with the descriptor of the FIFO, or -1. *)
Definition bluealsa_open_transport (reply : Z) (fd : Z) (t : ba_msg_transport)
  : M Z :=
  fun w =>
    Some (reply,
          {| hdl := hdl w;
             open_fds := if reply =? -1 then open_fds w
                         else open_fds w ∪ {[reply]};
             mutex_held := mutex_held w |},
          [EvOpenTransport fd t]).

(** [write(fd, &u, sizeof(u))]. *)
Definition write (fd : Z) (u : Z) : M unit := emit (EvWrite fd u).

(** [device_detach], for a valid handle. *)
Definition device_detach : M Z :=
  h <- get_handle ;;
  match addr h with
  | None => ret 0
  | Some _ =>
    if snd_fd h =? -1 then ret 0
    else
      bluealsa_close_transport (ba_fd h) (transport h) ;;;
      close (snd_fd h) ;;;
      set_snd_fd (-1) ;;;
      ret 0
  end.

Definition stream_is_capture_or_duplex (s : ba_pcm_stream) : bool :=
  match s with
  | BA_PCM_STREAM_CAPTURE | BA_PCM_STREAM_DUPLEX => true
  | BA_PCM_STREAM_PLAYBACK => false
  end.

(** The [for] loop of [update_device_attach_state]: [n] iterations are
    left, [idx] is the loop index.  The result is [(matched, idx)] as the
    loop leaves them.  The address test reads [transports->addr], the
    address of the first element of the array. *)
Fixpoint find_transport (h_addr : bdaddr_t) (h_type : bluezalsa_type)
    (transports : list ba_msg_transport) (n : nat) (idx : nat) : bool * nat :=
  match n with
  | O => (false, idx)
  | S n' =>
    match transports !! idx, transports !! 0%nat with
    | Some transport, Some first =>
      if negb (tr_type transport =? type_code h_type) then
        find_transport h_addr h_type transports n' (S idx)
      else if negb (stream_is_capture_or_duplex (tr_stream transport)) then
        find_transport h_addr h_type transports n' (S idx)
      else if bacmp h_addr (tr_addr first) =? 0 then (true, idx)
      else find_transport h_addr h_type transports n' (S idx)
    | _, _ => (false, idx)
    end
  end.

(** Answers of the daemon during one call. *)
Record daemon := {
  get_transports_reply : option (list ba_msg_transport);
  open_transport_reply : Z
}.

(** [update_device_attach_state], for a valid handle.  [u] is the value the
    uninitialised local [uint64_t u] happens to hold. *)
Definition update_device_attach_state (d : daemon) (u : Z) : M Z :=
  pthread_mutex_lock ;;;
  h <- get_handle ;;
  match addr h with
  | None => pthread_mutex_unlock ;;; ret (-1)
  | Some a =>
    if ba_fd h =? -1 then pthread_mutex_unlock ;;; ret (-1)
    else
      match get_transports_reply d with
      | None => pthread_mutex_unlock ;;; ret (-1)
      | Some transports =>
        let nb_transports := length transports in
        let '(matched, idx) :=
          find_transport a (type h) transports nb_transports 0 in
        if negb matched then
          device_detach ;;;
          pthread_mutex_unlock ;;;
          ret (Z.of_nat nb_transports)
        else if negb (snd_fd h =? -1) then
          pthread_mutex_unlock ;;; ret 0
        else
          match transports !! idx with
          | None => blocked
          | Some t =>
            let transport := with_stream BA_PCM_STREAM_CAPTURE t in
            fd <- bluealsa_open_transport (open_transport_reply d)
                    (ba_fd h) transport ;;
            set_snd_fd fd ;;;
            if fd =? -1 then ret (Z.of_nat nb_transports)
            else
              modify_handle (set_transport_h (with_addr a transport)) ;;;
              write (client_event_fd h) u ;;;
              pthread_mutex_unlock ;;;
              ret 0
          end
      end
  end.


Section SetDevice.

(** [str2ba] of the Bluetooth library: the six bytes of a well-formed
    address, or a failure. *)
Variable str2ba : string -> option bdaddr_t.

Definition supported_type (t : bluezalsa_type) : bool :=
  match t with BA_A2DP | BA_SCO => true | BA_TYPE_NULL => false end.

(** [bluezalsa_set_device], for a valid handle.  [address] is [None] for a
    null pointer; [malloc_ok] tells whether the allocation of the new
    address succeeds.  The block allocated for an address that does not
    parse is freed again at [failed_locked]. *)
Definition bluezalsa_set_device (d : daemon) (u : Z) (malloc_ok : bool)
    (address : option string) (t : bluezalsa_type) : M Z :=
  if negb (supported_type t) then ret (-1)
  else
    pthread_mutex_lock ;;;
    h <- get_handle ;;
    match addr h with
    | None => ret tt
    | Some _ =>
      modify_handle (set_addr_h None) ;;;
      bluealsa_close_transport (ba_fd h) (transport h) ;;;
      set_snd_fd (-1)
    end ;;;
    let done :=
      modify_handle (set_type_h t) ;;;
      pthread_mutex_unlock ;;;
      match address with
      | Some _ => update_device_attach_state d u ;;; ret 0
      | None => ret 0
      end in
    let failed_locked :=
      modify_handle (set_addr_h None) ;;;
      pthread_mutex_unlock ;;;
      ret (-1) in
    match address with
    | None => done
    | Some s =>
      if negb malloc_ok then failed_locked
      else
        match str2ba s with
        | None => failed_locked
        | Some a =>
          modify_handle (set_addr_h (Some a)) ;;;
          done
        end
    end.

End SetDevice.

(** One turn of the [again:] loop of [bluezalsa_readi] as the outside world
    answers it: the result of [poll], the [revents] of the two descriptors,
    the results of the successive reads of [client_event_fd] and the result
    of the read of [snd_fd]. *)
Record poll_round := {
  poll_res : Z;
  revents0 : Z;
  revents1 : Z;
  event_reads : list sys_result;
  snd_read : sys_result
}.

(** [while ((ret = read(client_event_fd, &u, 8)) == -1 && errno == EINTR)]:
    the value of [ret] after the loop; [None] when the reads never end. *)
Fixpoint read_event (reads : list sys_result) : option Z :=
  match reads with
  | [] => None
  | SysErr e :: rest => if e =? EINTR then read_event rest else Some (-1)
  | r :: _ => Some (sys_return r 8)
  end.

(** [bluezalsa_readi], for a valid handle, from the label [again:] on.
    [size] is the argument of the call, [r] the current value of [ret]. *)
Fixpoint readi_loop (size : Z) (r : Z) (rounds : list poll_round) : M Z :=
  match rounds with
  | [] => blocked
  | p :: rest =>
    h <- get_handle ;;
    emit (EvPoll (snd_fd h) (client_event_fd h)) ;;;
    if poll_res p =? -1 then ret r
    else if poll_res p =? 0 then readi_loop size r rest
    else if negb (Z.land (revents0 p) POLLHUP =? 0) then
      device_detach ;;; readi_loop size r rest
    else
      let after_event (r : Z) : M Z :=
        if Z.land (revents0 p) POLLIN =? 0 then readi_loop size r rest
        else
          emit (EvRead (snd_fd h) (ulong (size * 2))) ;;;
          match snd_read p with
          | SysErr _ => readi_loop size r rest
          | SysData _ => ret (sys_return (snd_read p) (ulong (size * 2)))
          end in
      if negb (Z.land (revents1 p) POLLIN =? 0) then
        match read_event (event_reads p) with
        | None => blocked
        | Some r' =>
          emit (EvRead (client_event_fd h) 8) ;;;
          if negb (r' =? 8) then ret r' else after_event r'
        end
      else after_event r
  end.

Definition bluezalsa_readi (size : Z) (rounds : list poll_round) : M Z :=
  readi_loop size 0 rounds.

(** *** What the specification says of the monitor *)

(** The selection of the refresh operation in the words of the
    specification: the type matches the bound profile, the direction is
    capture or duplex, and the address equals the bound address. *)
Definition spec_matches (a : bdaddr_t) (t : bluezalsa_type)
    (tr : ba_msg_transport) : bool :=
  (tr_type tr =? type_code t)
  && stream_is_capture_or_duplex (tr_stream tr)
  && (bacmp a (tr_addr tr) =? 0).

(** The index of the first transport that matches, from [idx] on. *)
Fixpoint spec_select (a : bdaddr_t) (t : bluezalsa_type)
    (transports : list ba_msg_transport) (idx : nat) : option nat :=
  match transports with
  | [] => None
  | tr :: rest =>
    if spec_matches a t tr then Some idx
    else spec_select a t rest (S idx)
  end.

(** The bytes [readi] reads for a count of frames, in the words of the
    specification. *)
Definition spec_read_bytes (frames channels : Z) : Z := frames * 2 * channels.

(** Every change of [snd_fd] in the events happens while the mutex is
    held; [held] tells whether it is held at the start. *)
Fixpoint changes_under_mutex (held : bool) (evs : list event) : bool :=
  match evs with
  | [] => true
  | EvLock :: rest => changes_under_mutex true rest
  | EvUnlock :: rest => changes_under_mutex false rest
  | EvSndFd old new :: rest =>
    (held || (old =? new)) && changes_under_mutex held rest
  | _ :: rest => changes_under_mutex held rest
  end.

(** The number of writes to the descriptor [cfd] before [snd_fd] changes
    again. *)
Fixpoint notifications (cfd : Z) (evs : list event) : nat :=
  match evs with
  | [] => O
  | EvWrite fd _ :: rest =>
    if fd =? cfd then S (notifications cfd rest) else notifications cfd rest
  | EvSndFd old new :: rest =>
    if old =? new then notifications cfd rest else O
  | _ :: rest => notifications cfd rest
  end.

(** Every change of [snd_fd] is followed by exactly one write to [cfd]. *)
Fixpoint changes_notified (cfd : Z) (evs : list event) : bool :=
  match evs with
  | [] => true
  | EvSndFd old new :: rest =>
    ((old =? new) || Nat.eqb (notifications cfd rest) 1)
    && changes_notified cfd rest
  | _ :: rest => changes_notified cfd rest
  end.

(** Every change of [snd_fd] to an open descriptor (an attach) is followed
    by exactly one write to [cfd]; every change to -1 (a detach) by none. *)
Fixpoint attaches_notified (cfd : Z) (evs : list event) : bool :=
  match evs with
  | [] => true
  | EvSndFd old new :: rest =>
    ((old =? new)
     || Nat.eqb (notifications cfd rest) (if new =? -1 then 0 else 1))
    && attaches_notified cfd rest
  | _ :: rest => attaches_notified cfd rest
  end.

(** The events [pre], then the call [o]. *)
Definition prepend {A} (pre : list event)
    (o : option (A * world * list event)) : option (A * world * list event) :=
  match o with
  | None => None
  | Some (a, w, t) => Some (a, w, pre ++ t)
  end.

(** [bluezalsa_writei]: not implemented, returns 0. *)
Definition bluezalsa_writei (size : Z) : M Z := ret 0.

(** The operations that run on a handle: the calls of the client and the
    refresh the monitor thread runs when an event of the daemon arrives. *)
Inductive api :=
| ApiSetDevice (d : daemon) (u : Z) (malloc_ok : bool)
    (address : option string) (t : bluezalsa_type)
| ApiReadi (size : Z) (rounds : list poll_round)
| ApiWritei (size : Z)
| ApiRefresh (d : daemon) (u : Z).

Section Api.

Variable str2ba : string -> option bdaddr_t.

Definition run_api (c : api) : M Z :=
  match c with
  | ApiSetDevice d u malloc_ok address t =>
    bluezalsa_set_device str2ba d u malloc_ok address t
  | ApiReadi size rounds => bluezalsa_readi size rounds
  | ApiWritei size => bluezalsa_writei size
  | ApiRefresh d u => update_device_attach_state d u
  end.

(** A sequence of operations, with the values they return. *)
Fixpoint run_apis (cs : list api) : M (list Z) :=
  match cs with
  | [] => ret []
  | c :: rest =>
    r <- run_api c ;;
    rs <- run_apis rest ;;
    ret (r :: rs)
  end.

End Api.

(** What can be seen of a run from outside the handle: whether it returns,
    the values returned and the events. *)
Definition observation {A} (o : option (A * world * list event))
  : option (A * list event) :=
  match o with
  | Some (a, _, evs) => Some (a, evs)
  | None => None
  end.

(** The world [w] with the stored type [t]. *)
Definition retype (t : bluezalsa_type) (w : world) : world :=
  {| hdl := set_type_h t (hdl w); open_fds := open_fds w;
     mutex_held := mutex_held w |}.

(** Two worlds that differ at most by the stored type of a handle with no
    bound address. *)
Definition same_observable (w1 w2 : world) : Prop :=
  w1 = w2 \/ (addr (hdl w1) = None /\ w2 = retype (type (hdl w2)) w1).

(** Two runs that cannot be told apart: both block, or both return, with
    the same value and the same events, in worlds that differ at most by
    the stored type of a handle with no bound address. *)
Definition same_run {A} (o1 o2 : option (A * world * list event)) : Prop :=
  match o1, o2 with
  | Some (a1, w1, t1), Some (a2, w2, t2) =>
    a1 = a2 /\ t1 = t2 /\ same_observable w1 w2
  | None, None => True
  | _, _ => False
  end.

(** A parser for the examples: it knows one address. *)
Definition str2ba_example (s : string) : option bdaddr_t :=
  if String.eqb s "AA:BB:CC:DD:EE:FF"
  then Some [255; 238; 221; 204; 187; 170]
  else None.

(** *** Inputs of the examples *)

Definition addr_a : bdaddr_t := [255; 238; 221; 204; 187; 170].
Definition addr_b : bdaddr_t := [102; 85; 68; 51; 34; 17].

(** A voice transport of the device [addr_a] and a music transport of the
    device [addr_b]. *)
Definition tr_sco_a : ba_msg_transport :=
  {| tr_addr := addr_a; tr_type := 2; tr_stream := BA_PCM_STREAM_CAPTURE;
     tr_codec := 0; tr_channels := 1; tr_sampling := 8000 |}.

Definition tr_a2dp_b : ba_msg_transport :=
  {| tr_addr := addr_b; tr_type := 1; tr_stream := BA_PCM_STREAM_CAPTURE;
     tr_codec := 0; tr_channels := 2; tr_sampling := 44100 |}.

Definition tr_a2dp_a : ba_msg_transport :=
  {| tr_addr := addr_a; tr_type := 1; tr_stream := BA_PCM_STREAM_DUPLEX;
     tr_codec := 0; tr_channels := 2; tr_sampling := 44100 |}.

(** A handle bound to [addr_a] for A2DP, with no FIFO. *)
Definition handle_bound : bluezalsa_handle :=
  {| ba_fd := 3; event_fd := 4; snd_fd := -1; client_event_fd := 5;
     interface := "hci0"; addr := Some addr_a; type := BA_A2DP;
     transport := tr_a2dp_a |}.

Definition world_bound : world :=
  {| hdl := handle_bound; open_fds := {[3; 4; 5]}; mutex_held := false |}.

(** The same handle with the FIFO 7 open. *)
Definition world_attached : world :=
  {| hdl := set_snd_fd_h 7 handle_bound; open_fds := {[3; 4; 5; 7]};
     mutex_held := false |}.

(** A handle with no bound address and no FIFO. *)
Definition world_detached : world :=
  {| hdl := set_addr_h None handle_bound; open_fds := {[3; 4; 5]};
     mutex_held := false |}.

(** *** The life of a handle: [bluezalsa_open], [bluezalsa_close] and the
    monitor thread *)

(** [delete_handle], for a valid handle: the three descriptors are closed
    when their field is not zero; [snd_fd] is not looked at. *)
Definition delete_handle : M unit :=
  pthread_mutex_lock ;;;
  h <- get_handle ;;
  (if ba_fd h =? 0 then ret tt else close (ba_fd h)) ;;;
  (if event_fd h =? 0 then ret tt else close (event_fd h)) ;;;
  (if client_event_fd h =? 0 then ret tt else close (client_event_fd h)) ;;;
  pthread_mutex_unlock.

(** The events of the calls below: those of the handle, and the requests
    that create the descriptors, the subscription and the monitor thread. *)
Inductive lib_event :=
| EvHandle (e : event)
| EvEventfd (fd : Z)
| EvDaemonOpen (interface : string) (fd : Z)
| EvSubscribe (fd mask : Z)
| EvThreadCreate
| EvThreadCancel
| EvRecv (fd r : Z).

Abbreviation L := (Call world lib_event).

(** A call on the handle, seen among the events of the library. *)
Definition lift {A} (m : M A) : L A :=
  fun w =>
    match m w with
    | None => None
    | Some (a, w', evs) => Some (a, w', map EvHandle evs)
    end.

(** The events of the handle among those of the library. *)
Fixpoint handle_events (evs : list lib_event) : list event :=
  match evs with
  | [] => []
  | EvHandle e :: rest => e :: handle_events rest
  | _ :: rest => handle_events rest
  end.

(** Whether the mutex is held after the events, [held] telling whether it
    is held before them. *)
Fixpoint held_after (held : bool) (evs : list event) : bool :=
  match evs with
  | [] => held
  | EvLock :: rest => held_after true rest
  | EvUnlock :: rest => held_after false rest
  | _ :: rest => held_after held rest
  end.

(** The mutex of a new handle: not held, as in zeroed memory and after
    [pthread_mutex_init]. *)
Definition pthread_mutex_unlock_new : M unit :=
  fun w => Some (tt, {| hdl := hdl w; open_fds := open_fds w;
                        mutex_held := false |}, []).

(** [bluezalsa_close], for a valid handle. *)
Definition bluezalsa_close : L unit :=
  emit EvThreadCancel ;;;
  lift delete_handle.

(** Modelled from the spec: the memory of a handle after [memset(h, 0)];
    the first direction of [enum ba_pcm_stream] is playback. *)
Definition zero_transport : ba_msg_transport :=
  {| tr_addr := [0; 0; 0; 0; 0; 0]; tr_type := 0;
     tr_stream := BA_PCM_STREAM_PLAYBACK; tr_codec := 0; tr_channels := 0;
     tr_sampling := 0 |}.

Definition zero_handle : bluezalsa_handle :=
  {| ba_fd := 0; event_fd := 0; snd_fd := 0; client_event_fd := 0;
     interface := ""; addr := None; type := BA_TYPE_NULL;
     transport := zero_transport |}.

Definition set_ba_fd_h (v : Z) (h : bluezalsa_handle) :=
  {| ba_fd := v; event_fd := event_fd h; snd_fd := snd_fd h;
     client_event_fd := client_event_fd h; interface := interface h;
     addr := addr h; type := type h; transport := transport h |}.

Definition set_event_fd_h (v : Z) (h : bluezalsa_handle) :=
  {| ba_fd := ba_fd h; event_fd := v; snd_fd := snd_fd h;
     client_event_fd := client_event_fd h; interface := interface h;
     addr := addr h; type := type h; transport := transport h |}.

Definition set_client_event_fd_h (v : Z) (h : bluezalsa_handle) :=
  {| ba_fd := ba_fd h; event_fd := event_fd h; snd_fd := snd_fd h;
     client_event_fd := v; interface := interface h;
     addr := addr h; type := type h; transport := transport h |}.

Definition set_interface_h (v : string) (h : bluezalsa_handle) :=
  {| ba_fd := ba_fd h; event_fd := event_fd h; snd_fd := snd_fd h;
     client_event_fd := client_event_fd h; interface := v;
     addr := addr h; type := type h; transport := transport h |}.

(** What the system and the daemon answer during [bluezalsa_open]. *)
Record open_oracle := {
  oo_malloc : bool;
  oo_mutex_init : Z;
  oo_eventfd : Z;
  oo_ba_open : Z;
  oo_event_open : Z;
  oo_strdup : bool;
  oo_subscribe : Z;
  oo_pthread_create : Z
}.

(** A new descriptor [fd] in the table, unless the call failed. *)
Definition opened (fd : Z) : L unit :=
  fun w =>
    Some (tt, {| hdl := hdl w;
                 open_fds := if fd =? -1 then open_fds w
                             else open_fds w ∪ {[fd]};
                 mutex_held := mutex_held w |}, []).

Section Events.

(** The bits of the event mask, declared in [shared/ctl-proto.h]. *)
Variables BA_EVENT_TRANSPORT_ADDED BA_EVENT_TRANSPORT_CHANGED
  BA_EVENT_TRANSPORT_REMOVED BA_EVENT_UPDATE_BATTERY
  BA_EVENT_UPDATE_VOLUME : Z.

(** [EVENT_CASE(event, e, s)], [name] being the text of [e]. *)
Definition EVENT_CASE (mask e : Z) (name : string) (s : string) : string :=
  if Z.land mask e =? e then (s ++ name ++ "|")%string else s.

(** [event2string]: the string left in [str]. *)
Definition event2string (mask : Z) : string :=
  let s := ""%string in
  let s := EVENT_CASE mask BA_EVENT_TRANSPORT_ADDED
             "BA_EVENT_TRANSPORT_ADDED" s in
  let s := EVENT_CASE mask BA_EVENT_TRANSPORT_CHANGED
             "BA_EVENT_TRANSPORT_CHANGED" s in
  let s := EVENT_CASE mask BA_EVENT_TRANSPORT_REMOVED
             "BA_EVENT_TRANSPORT_REMOVED" s in
  let s := EVENT_CASE mask BA_EVENT_UPDATE_BATTERY
             "BA_EVENT_UPDATE_BATTERY" s in
  EVENT_CASE mask BA_EVENT_UPDATE_VOLUME "BA_EVENT_UPDATE_VOLUME" s.

(** [bluezalsa_open]: the handle returned, [None] for a null pointer.  The
    world the call starts in holds the table of descriptors; its handle
    is the memory [malloc] returns. *)
Definition bluezalsa_open (o : open_oracle) (itf : string)
  : L (option bluezalsa_handle) :=
  let failed : L (option bluezalsa_handle) :=
    lift delete_handle ;;; ret None in
  if negb (oo_malloc o) then ret None
  else
    lift (modify_handle (fun _ => set_snd_fd_h (-1) zero_handle)) ;;;
    lift pthread_mutex_unlock_new ;;;
    if negb (oo_mutex_init o =? 0) then failed
    else
      emit (EvEventfd (oo_eventfd o)) ;;;
      opened (oo_eventfd o) ;;;
      lift (modify_handle (set_client_event_fd_h (oo_eventfd o))) ;;;
      if oo_eventfd o =? -1 then failed
      else
        emit (EvDaemonOpen itf (oo_ba_open o)) ;;;
        opened (oo_ba_open o) ;;;
        lift (modify_handle (set_ba_fd_h (oo_ba_open o))) ;;;
        if oo_ba_open o =? -1 then failed
        else
          emit (EvDaemonOpen itf (oo_event_open o)) ;;;
          opened (oo_event_open o) ;;;
          lift (modify_handle (set_event_fd_h (oo_event_open o))) ;;;
          if oo_event_open o =? -1 then failed
          else if negb (oo_strdup o) then failed
          else
            lift (modify_handle (set_interface_h itf)) ;;;
            emit (EvSubscribe (oo_event_open o)
                    (Z.lor BA_EVENT_TRANSPORT_ADDED
                       BA_EVENT_TRANSPORT_REMOVED)) ;;;
            if oo_subscribe o =? -1 then failed
            else
              emit EvThreadCreate ;;;
              if negb (oo_pthread_create o =? 0) then failed
              else
                h <- lift get_handle ;;
                ret (Some h).

(** [sizeof(struct ba_msg_event)]. *)
Variable event_size : Z.

(** [while ((ret = recv(...)) == -1 && errno == EINTR)]: the value of
    [ret] after the loop; [None] when the calls never end. *)
Fixpoint recv_retry (reads : list sys_result) : option Z :=
  match reads with
  | [] => None
  | SysErr e :: rest => if e =? EINTR then recv_retry rest else Some (-1)
  | r :: _ => Some (sys_return r event_size)
  end.

(** One turn of the loop of the monitor thread as the outside world
    answers it: the result of [poll], the results of the successive
    [recv], the mask of the event, and what the refresh meets. *)
Record monitor_turn := {
  mt_poll : sys_result;
  mt_recv : list sys_result;
  mt_mask : Z;
  mt_daemon : daemon;
  mt_u : Z
}.

(** [monitor_worker_routine]: it returns when the thread ends. *)
Fixpoint monitor_worker_routine (turns : list monitor_turn) : L unit :=
  match turns with
  | [] => blocked
  | t :: rest =>
    h <- lift get_handle ;;
    let receive : L unit :=
      match recv_retry (mt_recv t) with
      | None => blocked
      | Some r =>
        emit (EvRecv (event_fd h) r) ;;;
        if negb (r =? event_size) then ret tt
        else
          let event_string := event2string (mt_mask t) in
          lift (update_device_attach_state (mt_daemon t) (mt_u t)) ;;;
          monitor_worker_routine rest
      end in
    match mt_poll t with
    | SysErr e => if e =? EINTR then monitor_worker_routine rest else receive
    | SysData _ => receive
    end
  end.

(** What a turn of the monitor thread leads to once [poll] has returned:
    the receive, the refresh and the turns that follow, in the world [w]. *)
Definition received (t : monitor_turn) (rest : list monitor_turn) (w : world)
  : option (unit * world * list lib_event) :=
  match recv_retry (mt_recv t) with
  | None => None
  | Some r =>
    if negb (r =? event_size)
    then Some (tt, w, [EvRecv (event_fd (hdl w)) r])
    else
      match update_device_attach_state (mt_daemon t) (mt_u t) w with
      | None => None
      | Some (_, w1, evs1) =>
        match monitor_worker_routine rest w1 with
        | None => None
        | Some (_, w2, evs2) =>
          Some (tt, w2,
                EvRecv (event_fd (hdl w)) r :: map EvHandle evs1 ++ evs2)
        end
      end
  end.

End Events.

(** The world after a detach that released the FIFO. *)
Definition detached_world (w : world) : world :=
  {| hdl := set_snd_fd_h (-1) (hdl w);
     open_fds := open_fds w ∖ {[snd_fd (hdl w)]};
     mutex_held := mutex_held w |}.

(** *** More inputs of the examples *)

(** A daemon that lists the A2DP transport of [addr_a] and opens its FIFO
    as descriptor 7; one that refuses to open it; one that lists the
    transport of another device first. *)
Definition daemon_a : daemon :=
  {| get_transports_reply := Some [tr_a2dp_a]; open_transport_reply := 7 |}.

Definition daemon_refusing : daemon :=
  {| get_transports_reply := Some [tr_a2dp_a]; open_transport_reply := -1 |}.

Definition daemon_b_first : daemon :=
  {| get_transports_reply := Some [tr_a2dp_b; tr_a2dp_a];
     open_transport_reply := 7 |}.

(** Turns of [readi]: a hang-up of the FIFO, a failure of [poll], data. *)
Definition round_hup : poll_round :=
  {| poll_res := 1; revents0 := POLLHUP; revents1 := 0;
     event_reads := []; snd_read := SysErr 5 |}.

Definition round_poll_fails : poll_round :=
  {| poll_res := -1; revents0 := 0; revents1 := 0;
     event_reads := []; snd_read := SysErr 5 |}.

Definition round_data : poll_round :=
  {| poll_res := 1; revents0 := POLLIN; revents1 := 0;
     event_reads := []; snd_read := SysData 100 |}.

(** A refresh that attaches, a [readi] that meets a hang-up, a second
    refresh and a new binding. *)
Definition calls_example : list api :=
  [ ApiRefresh daemon_a 1;
    ApiReadi 4 [round_hup; round_poll_fails];
    ApiRefresh daemon_a 1;
    ApiWritei 4;
    ApiSetDevice daemon_a 1 true (Some "AA:BB:CC:DD:EE:FF"%string) BA_A2DP ].

(** The descriptors [delete_handle] closes for the handle [h]. *)
Definition closed_by_delete (h : bluezalsa_handle) : gset Z :=
  (if ba_fd h =? 0 then ∅ else {[ba_fd h]})
  ∪ (if event_fd h =? 0 then ∅ else {[event_fd h]})
  ∪ (if client_event_fd h =? 0 then ∅ else {[client_event_fd h]}).

(** An answer of a call that creates a descriptor: a failure, or a
    descriptor other than 0 that is not yet in the table. *)
Definition fresh_fd (w : world) (fd : Z) : Prop :=
  fd = -1 \/ (fd <> 0 /\ fd ∉ open_fds w).

(** The handle [bluezalsa_open] returns when every step succeeds. *)
Definition new_handle (o : open_oracle) (itf : string) : bluezalsa_handle :=
  {| ba_fd := oo_ba_open o; event_fd := oo_event_open o; snd_fd := -1;
     client_event_fd := oo_eventfd o; interface := itf; addr := None;
     type := BA_TYPE_NULL; transport := zero_transport |}.

(** Every step of [bluezalsa_open] succeeds. *)
Definition open_succeeds (o : open_oracle) : Prop :=
  oo_malloc o = true /\ oo_mutex_init o = 0 /\ oo_eventfd o <> -1
  /\ oo_ba_open o <> -1 /\ oo_event_open o <> -1 /\ oo_strdup o = true
  /\ oo_subscribe o <> -1 /\ oo_pthread_create o = 0.

(** A process with the three standard descriptors, and answers of the
    system for an [open] that succeeds and for one whose subscription is
    refused. *)
Definition world_fresh : world :=
  {| hdl := zero_handle; open_fds := {[0; 1; 2]}; mutex_held := false |}.

Definition oracle_ok : open_oracle :=
  {| oo_malloc := true; oo_mutex_init := 0; oo_eventfd := 3;
     oo_ba_open := 4; oo_event_open := 5; oo_strdup := true;
     oo_subscribe := 0; oo_pthread_create := 0 |}.

Definition oracle_no_subscription : open_oracle :=
  {| oo_malloc := true; oo_mutex_init := 0; oo_eventfd := 3;
     oo_ba_open := 4; oo_event_open := 5; oo_strdup := true;
     oo_subscribe := -1; oo_pthread_create := 0 |}.

(** Turns of the monitor thread, for events of 16 bytes: an event of the
    daemon that is received whole, and a receive that comes short. *)
Definition turn_event : monitor_turn :=
  {| mt_poll := SysData 1; mt_recv := [SysErr EINTR; SysData 16];
     mt_mask := 1; mt_daemon := daemon_a; mt_u := 1 |}.

Definition turn_short : monitor_turn :=
  {| mt_poll := SysData 1; mt_recv := [SysData 0];
     mt_mask := 0; mt_daemon := daemon_a; mt_u := 1 |}.

(** The events of a wait that changes nothing: a [poll] or a [read]. *)
Definition is_wait_event (e : event) : bool :=
  match e with
  | EvPoll _ _ | EvRead _ _ => true
  | _ => false
  end.

(** The events that take part in a detach, beside those of a wait. *)
Definition is_readi_event (e : event) : bool :=
  match e with
  | EvLock | EvUnlock | EvWrite _ _ | EvOpenTransport _ _ => false
  | _ => true
  end.

(** The handle keeps no closed or unbound FIFO: when [snd_fd] is not -1, an
    address is bound and the descriptor is open. *)
Definition attached_consistent (w : world) : Prop :=
  snd_fd (hdl w) <> -1 ->
  addr (hdl w) <> None /\ snd_fd (hdl w) ∈ open_fds w.

End Monitor.

(** ** The PCM streaming core: [bluealsa-pcm-proxy.c]

    The callbacks of the plug-in and, of the IO thread, the period loop and
    the exit at [final:].  The wait for the FIFO at [wait_pcm_fd:] is where
    a turn of the period loop can hand over; it is not part of a turn. *)

Module Pcm.

(** [snd_pcm_stream_t] and [snd_pcm_state_t] of the host sound stack. *)
Inductive snd_pcm_stream_t := SND_PCM_STREAM_PLAYBACK | SND_PCM_STREAM_CAPTURE.

Inductive snd_pcm_state_t :=
| SND_PCM_STATE_OPEN
| SND_PCM_STATE_SETUP
| SND_PCM_STATE_PREPARED
| SND_PCM_STATE_RUNNING
| SND_PCM_STATE_XRUN
| SND_PCM_STATE_DRAINING
| SND_PCM_STATE_PAUSED
| SND_PCM_STATE_SUSPENDED
| SND_PCM_STATE_DISCONNECTED.

(** The fields of [snd_pcm_ioplug_t] the plug-in reads or writes. *)
Record snd_pcm_ioplug_t := {
  stream : snd_pcm_stream_t;
  state : snd_pcm_state_t;
  appl_ptr : Z;
  hw_ptr : Z;
  buffer_size : Z;
  period_size : Z;
  rate : Z;
  channels : Z
}.

(** [struct bluealsa_pcm].  [transport] is the pointer to the requested
    transport: [None] when null. *)
Record bluealsa_pcm := {
  io : snd_pcm_ioplug_t;
  fd : Z;
  event_fd : Z;
  transport : option Z;
  pcm_buffer_size : Z;
  pcm_fd : Z;
  io_ptr : Z;
  io_started : bool;
  delay : Z;
  delay_ex : Z;
  frame_size : Z;
  io_hw_boundary : Z;
  io_hw_ptr : Z
}.

(** The stream, the value of the counter behind [event_fd], whether a
    [SIGIO] is pending for the IO thread (the thread keeps the signal
    blocked and takes it with [sigwait]), and the [static int counter] of
    [bluealsa_proxy_delay]. *)
Record world := {
  pcm : bluealsa_pcm;
  event_counter : Z;
  sigio_pending : bool;
  counter : Z
}.

Inductive event :=
| EvRead (fd len r : Z)
| EvWrite (fd len r : Z)
| EvSync (frames : Z)
| EvEventfdWrite (fd v : Z)
| EvEventfdRead (fd v : Z)
| EvClose (fd : Z)
| EvCloseTransport (fd : Z)
| EvPauseTransport (fd : Z) (enable : bool)
| EvDrainTransport (fd : Z)
| EvGetTransportDelay (fd : Z)
| EvSetPipeSize (fd size : Z)
| EvDump (has_transport : bool)
| EvKill
| EvCancel.

Abbreviation M := (M world event).

Definition get_pcm : M bluealsa_pcm := fun w => Some (pcm w, w, []).

Definition modify_pcm (f : bluealsa_pcm -> bluealsa_pcm) : M unit :=
  fun w => Some (tt, {| pcm := f (pcm w); event_counter := event_counter w;
                        sigio_pending := sigio_pending w;
                        counter := counter w |}, []).

Definition set_io (f : snd_pcm_ioplug_t -> snd_pcm_ioplug_t)
    (p : bluealsa_pcm) :=
  {| io := f (io p); fd := fd p; event_fd := event_fd p;
     transport := transport p; pcm_buffer_size := pcm_buffer_size p;
     pcm_fd := pcm_fd p; io_ptr := io_ptr p;
     io_started := io_started p; delay := delay p; delay_ex := delay_ex p;
     frame_size := frame_size p; io_hw_boundary := io_hw_boundary p;
     io_hw_ptr := io_hw_ptr p |}.

Definition set_state (s : snd_pcm_state_t) (i : snd_pcm_ioplug_t) :=
  {| stream := stream i; state := s; appl_ptr := appl_ptr i;
     hw_ptr := hw_ptr i; buffer_size := buffer_size i;
     period_size := period_size i; rate := rate i;
     channels := channels i |}.

Definition set_pcm_fd (v : Z) (p : bluealsa_pcm) :=
  {| io := io p; fd := fd p; event_fd := event_fd p;
     transport := transport p; pcm_buffer_size := pcm_buffer_size p;
     pcm_fd := v; io_ptr := io_ptr p;
     io_started := io_started p; delay := delay p; delay_ex := delay_ex p;
     frame_size := frame_size p; io_hw_boundary := io_hw_boundary p;
     io_hw_ptr := io_hw_ptr p |}.

(** [pcm->io_ptr = a; pcm->io_hw_ptr = b]. *)
Definition set_ptrs (a b : Z) (p : bluealsa_pcm) :=
  {| io := io p; fd := fd p; event_fd := event_fd p;
     transport := transport p; pcm_buffer_size := pcm_buffer_size p;
     pcm_fd := pcm_fd p; io_ptr := a;
     io_started := io_started p; delay := delay p; delay_ex := delay_ex p;
     frame_size := frame_size p; io_hw_boundary := io_hw_boundary p;
     io_hw_ptr := b |}.

Definition set_io_started (v : bool) (p : bluealsa_pcm) :=
  {| io := io p; fd := fd p; event_fd := event_fd p;
     transport := transport p; pcm_buffer_size := pcm_buffer_size p;
     pcm_fd := pcm_fd p; io_ptr := io_ptr p;
     io_started := v; delay := delay p; delay_ex := delay_ex p;
     frame_size := frame_size p; io_hw_boundary := io_hw_boundary p;
     io_hw_ptr := io_hw_ptr p |}.

Definition set_delay (v : Z) (p : bluealsa_pcm) :=
  {| io := io p; fd := fd p; event_fd := event_fd p;
     transport := transport p; pcm_buffer_size := pcm_buffer_size p;
     pcm_fd := pcm_fd p; io_ptr := io_ptr p;
     io_started := io_started p; delay := v; delay_ex := delay_ex p;
     frame_size := frame_size p; io_hw_boundary := io_hw_boundary p;
     io_hw_ptr := io_hw_ptr p |}.

Definition set_frame_size (v : Z) (p : bluealsa_pcm) :=
  {| io := io p; fd := fd p; event_fd := event_fd p;
     transport := transport p; pcm_buffer_size := pcm_buffer_size p;
     pcm_fd := pcm_fd p; io_ptr := io_ptr p;
     io_started := io_started p; delay := delay p; delay_ex := delay_ex p;
     frame_size := v; io_hw_boundary := io_hw_boundary p;
     io_hw_ptr := io_hw_ptr p |}.

Definition set_pcm_buffer_size (v : Z) (p : bluealsa_pcm) :=
  {| io := io p; fd := fd p; event_fd := event_fd p;
     transport := transport p; pcm_buffer_size := v;
     pcm_fd := pcm_fd p; io_ptr := io_ptr p;
     io_started := io_started p; delay := delay p; delay_ex := delay_ex p;
     frame_size := frame_size p; io_hw_boundary := io_hw_boundary p;
     io_hw_ptr := io_hw_ptr p |}.

Definition set_io_hw_boundary (v : Z) (p : bluealsa_pcm) :=
  {| io := io p; fd := fd p; event_fd := event_fd p;
     transport := transport p; pcm_buffer_size := pcm_buffer_size p;
     pcm_fd := pcm_fd p; io_ptr := io_ptr p;
     io_started := io_started p; delay := delay p; delay_ex := delay_ex p;
     frame_size := frame_size p; io_hw_boundary := v;
     io_hw_ptr := io_hw_ptr p |}.

(** [eventfd_write]: the value is added to the counter. *)
Definition eventfd_write (v : Z) : M unit :=
  fun w =>
    Some (tt, {| pcm := pcm w; event_counter := event_counter w + v;
                 sigio_pending := sigio_pending w; counter := counter w |},
          [EvEventfdWrite (event_fd (pcm w)) v]).

(** [eventfd_read]: blocks while the counter is zero, then returns its
    value and resets it. *)
Definition eventfd_read : M Z :=
  fun w =>
    if event_counter w =? 0 then None
    else Some (event_counter w,
               {| pcm := pcm w; event_counter := 0;
                  sigio_pending := sigio_pending w; counter := counter w |},
               [EvEventfdRead (event_fd (pcm w)) (event_counter w)]).

(** [pthread_kill(pcm->io_thread, SIGIO)]. *)
Definition pthread_kill_sigio : M unit :=
  fun w => Some (tt, {| pcm := pcm w; event_counter := event_counter w;
                        sigio_pending := true; counter := counter w |},
                 [EvKill]).

(** [sigwait] of the IO thread: blocks until a [SIGIO] is pending. *)
Definition sigwait : M unit :=
  fun w =>
    if sigio_pending w then
      Some (tt, {| pcm := pcm w; event_counter := event_counter w;
                   sigio_pending := false; counter := counter w |}, [])
    else None.

Definition set_counter (v : Z) : M unit :=
  fun w => Some (tt, {| pcm := pcm w; event_counter := event_counter w;
                        sigio_pending := sigio_pending w; counter := v |}, []).

Definition get_counter : M Z := fun w => Some (counter w, w, []).

(** [close_transport]; [rv] is the answer of the daemon to
    [bluealsa_close_transport]. *)
Definition close_transport (rv : Z) : M Z :=
  p <- get_pcm ;;
  match transport p with
  | None => ret 0
  | Some _ =>
    emit (EvCloseTransport (fd p)) ;;;
    emit (EvClose (pcm_fd p)) ;;;
    modify_pcm (set_pcm_fd (-1)) ;;;
    ret rv
  end.


(** The fatal marker written to [event_fd]. *)
Definition SENTINEL : Z := 0xDEAD0000.

(** How one turn of the period loop of [io_thread] ends: at [sync:] after
    a transfer, at [sync:] after an under-run, at [wait_pcm_fd:], or with
    the return of the thread after [final:]. *)
Inductive outcome := Published | Underrun | WaitPcmFd | Exited.

(** [final:] of [io_thread]. *)
Definition io_thread_final (rv : Z) : M outcome :=
  close_transport rv ;;;
  eventfd_write SENTINEL ;;;
  ret Exited.

(** [while (len != 0 && (ret = read(pcm_fd, head, len)) != 0)]: the value
    of [ret] after the loop, or [None] after a fatal error. *)
Fixpoint capture_read (pfd len r : Z) (results : list sys_result)
    {struct results} : M (option Z) :=
  if len =? 0 then ret (Some r)
  else
    match results with
    | [] => blocked
    | res :: rest =>
      let r' := sys_return res len in
      emit (EvRead pfd len r') ;;;
      if r' =? 0 then ret (Some 0)
      else
        match res with
        | SysErr e =>
          if e =? EINTR then capture_read pfd len r' rest else ret None
        | SysData _ => capture_read pfd (ulong (len - r')) r' rest
        end
    end.

(** [do { ... write(pcm_fd, head, len) ... } while (len != 0)]: [true]
    when the loop ends, [false] after a fatal error. *)
Fixpoint playback_write (pfd len : Z) (results : list sys_result)
    {struct results} : M bool :=
  match results with
  | [] => blocked
  | res :: rest =>
    let r' := sys_return res len in
    emit (EvWrite pfd len r') ;;;
    match res with
    | SysErr e =>
      if e =? EINTR then
        if len =? 0 then ret true else playback_write pfd len rest
      else ret false
    | SysData _ =>
      let len' := ulong (len - r') in
      if len' =? 0 then ret true else playback_write pfd len' rest
    end
  end.

(** The number of frames of the period: the leftover of the buffer when
    it is less than a whole period. *)
Definition period_frames (p : bluealsa_pcm) : Z :=
  if ulong (buffer_size (io p) - io_ptr p) <? period_size (io p)
  then ulong (buffer_size (io p) - io_ptr p)
  else period_size (io p).

(** [ptr += frames; if (ptr >= bound) ptr -= bound]. *)
Definition advance (ptr frames bound : Z) : Z :=
  let q := ulong (ptr + frames) in
  if q >=? bound then ulong (q - bound) else q.

(** The body of the period loop, after the [switch] on the state. *)
Definition io_thread_transfer (results : list sys_result) (rv : Z)
  : M outcome :=
  p <- get_pcm ;;
  let frames := period_frames p in
  let len := ulong (frames * frame_size p) in
  let io_ptr' := advance (io_ptr p) frames (buffer_size (io p)) in
  let io_hw_ptr' := advance (io_hw_ptr p) frames (io_hw_boundary p) in
  let sync (ptr : Z) : M unit :=
    modify_pcm (set_ptrs ptr io_hw_ptr') ;;;
    eventfd_write 1 in
  match stream (io p) with
  | SND_PCM_STREAM_CAPTURE =>
    r <- capture_read (pcm_fd p) len 0 results ;;
    match r with
    | None => io_thread_final rv
    | Some r =>
      if r =? 0 then ret WaitPcmFd
      else sync io_ptr' ;;; ret Published
    end
  | SND_PCM_STREAM_PLAYBACK =>
    if io_hw_ptr' >? appl_ptr (io p) then
      modify_pcm (set_io (set_state SND_PCM_STATE_XRUN)) ;;;
      sync (ulong (-1)) ;;;
      ret Underrun
    else
      ok <- playback_write (pcm_fd p) len results ;;
      if ok : bool then
        emit (EvSync frames) ;;;
        sync io_ptr' ;;;
        ret Published
      else io_thread_final rv
  end.

(** One turn of the period loop of [io_thread].  [results] are the results
    of the successive system calls on the FIFO, [rv] the answer of the
    daemon if the transport gets closed. *)
Definition io_thread_period (results : list sys_result) (rv : Z)
  : M outcome :=
  p <- get_pcm ;;
  match state (io p) with
  | SND_PCM_STATE_RUNNING | SND_PCM_STATE_DRAINING =>
    io_thread_transfer results rv
  | SND_PCM_STATE_DISCONNECTED => io_thread_final rv
  | _ => sigwait ;;; io_thread_transfer results rv
  end.

(** The callbacks.  [rv] is the answer of the daemon to the request the
    callback sends, [errno] the error number it leaves. *)

Definition bluealsa_proxy_start (rv errno : Z) : M Z :=
  p <- get_pcm ;;
  if io_started p then
    modify_pcm (set_io (set_state SND_PCM_STATE_RUNNING)) ;;;
    pthread_kill_sigio ;;;
    ret 0
  else
    let run :=
      modify_pcm (set_io (set_state SND_PCM_STATE_RUNNING)) ;;;
      modify_pcm (set_io_started true) ;;;
      ret 0 in
    modify_pcm (set_delay 0) ;;;
    match transport p with
    | None => run
    | Some _ =>
      emit (EvPauseTransport (fd p) false) ;;;
      if rv =? -1 then ret (- errno) else run
    end.

Definition bluealsa_proxy_stop : M Z :=
  p <- get_pcm ;;
  if io_started p then
    modify_pcm (set_io_started false) ;;;
    emit EvCancel ;;;
    ret 0
  else ret 0.

Definition bluealsa_proxy_pointer : M Z :=
  p <- get_pcm ;;
  if pcm_fd p =? -1 then ret (- ENODEV) else ret (slong (io_ptr p)).

Definition bluealsa_proxy_close : M Z :=
  p <- get_pcm ;;
  emit (EvClose (fd p)) ;;;
  emit (EvClose (event_fd p)) ;;;
  ret 0.

(** [width] is the answer of [snd_pcm_format_physical_width], [pipe_sz]
    the answer of [fcntl(pcm_fd, F_SETPIPE_SZ, 2048)]. *)
Definition bluealsa_proxy_hw_params (width pipe_sz : Z) : M Z :=
  p <- get_pcm ;;
  modify_pcm (set_frame_size (uint (width * channels (io p)) / 8)) ;;;
  match stream (io p) with
  | SND_PCM_STREAM_PLAYBACK =>
    eventfd_write 1 ;;;
    emit (EvSetPipeSize (pcm_fd p) 2048) ;;;
    modify_pcm (set_pcm_buffer_size pipe_sz)
  | SND_PCM_STREAM_CAPTURE => ret tt
  end ;;;
  ret 0.

Definition bluealsa_proxy_hw_free (rv errno : Z) : M Z :=
  r <- close_transport rv ;;
  if r =? -1 then ret (- errno) else ret 0.

Definition bluealsa_proxy_sw_params (boundary : Z) : M Z :=
  modify_pcm (set_io_hw_boundary boundary) ;;;
  ret 0.

Definition bluealsa_proxy_prepare : M Z :=
  p <- get_pcm ;;
  modify_pcm (set_ptrs 0 0) ;;;
  ret 0.

Definition bluealsa_proxy_drain (rv errno : Z) : M Z :=
  p <- get_pcm ;;
  emit (EvDrainTransport (fd p)) ;;;
  if rv =? -1 then ret (- errno) else ret 0.

Definition bluealsa_proxy_pause (enable : Z) (rv errno : Z) : M Z :=
  p <- get_pcm ;;
  emit (EvPauseTransport (fd p) (negb (enable =? 0))) ;;;
  if rv =? -1 then ret (- errno)
  else
    (if enable =? 0 then
       modify_pcm (set_io (set_state SND_PCM_STATE_RUNNING)) ;;;
       pthread_kill_sigio
     else ret tt) ;;;
    eventfd_write 1 ;;;
    ret 0.


Definition bluealsa_proxy_dump : M unit :=
  p <- get_pcm ;;
  emit (EvDump (match transport p with Some _ => true | None => false end)).

Definition bluealsa_proxy_poll_descriptors_count : M Z := ret 1.

(** The result is the value returned and, when set, the descriptor and
    the events stored in [pfd[0]]. *)
Definition bluealsa_proxy_poll_descriptors (space : Z)
  : M (Z * option (Z * Z)) :=
  p <- get_pcm ;;
  if negb (space =? 1) then ret (- EINVAL, None)
  else ret (1, Some (event_fd p, POLLIN)).

Definition running_or_draining (s : snd_pcm_state_t) : bool :=
  match s with
  | SND_PCM_STATE_RUNNING | SND_PCM_STATE_DRAINING => true
  | _ => false
  end.

(** The condition [pcm->delay == 0 || ++counter % (io->rate / 10) == 0] of
    [bluealsa_proxy_delay]: the counter moves only when the first operand
    is false; a zero divisor traps. *)
Definition delay_refresh_due : M bool :=
  p <- get_pcm ;;
  if delay p =? 0 then ret true
  else
    c <- get_counter ;;
    set_counter (c + 1) ;;;
    if uint (rate (io p)) / 10 =? 0 then blocked
    else ret (uint (c + 1) mod (uint (rate (io p)) / 10) =? 0).

(** [bluealsa_proxy_delay].  [fionread] is what the [FIONREAD] request
    stores in [size], or [None] when it fails; [daemon_delay] is the answer
    of [bluealsa_get_transport_delay].  The result is the value returned
    and the value stored in [*delayp], if any. *)
Definition bluealsa_proxy_delay (fionread : option Z) (daemon_delay : Z)
  : M (Z * option Z) :=
  p <- get_pcm ;;
  if pcm_fd p =? -1 then ret (- ENODEV, None)
  else
    let d0 := ulong (appl_ptr (io p) - hw_ptr (io p)) in
    d1 <- match fionread with
          | None => ret d0
          | Some size =>
            if frame_size p =? 0 then blocked
            else ret (ulong (d0 + uint size / frame_size p))
          end ;;
    (if running_or_draining (state (io p)) then
       match stream (io p) with
       | SND_PCM_STREAM_PLAYBACK =>
         due <- delay_refresh_due ;;
         if due : bool then
           emit (EvGetTransportDelay (fd p)) ;;;
           let tmp := uint daemon_delay in
           if tmp =? uint (-1) then ret tt
           else
             modify_pcm
               (set_delay (uint (uint (rate (io p)) / 100 * tmp) / 100))
         else ret tt
       | SND_PCM_STREAM_CAPTURE => ret tt
       end
     else ret tt) ;;;
    p' <- get_pcm ;;
    ret (0, Some (slong (d1 + delay p' + delay_ex p'))).

(** [bluealsa_proxy_poll_revents].  [pfd_revents] is [pfd[0].revents],
    [revents] the value of [*revents] at the call, [avail] the answer of
    [snd_pcm_avail_update].  The result is the value returned and the
    value of [*revents] after the call. *)
Definition bluealsa_proxy_poll_revents (nfds pfd_revents revents avail : Z)
  : M (Z * Z) :=
  p <- get_pcm ;;
  if negb (nfds =? 1) then ret (- EINVAL, revents)
  else if pcm_fd p =? -1 then ret (- ENODEV, revents)
  else if negb (Z.land pfd_revents POLLIN =? 0) then
    ev <- eventfd_read ;;
    if negb (Z.land ev SENTINEL =? 0) then
      ret (- ENODEV, Z.lor POLLERR POLLHUP)
    else if avail =? 0 then ret (0, 0)
    else
      ret (0, match stream (io p) with
              | SND_PCM_STREAM_CAPTURE => POLLIN
              | SND_PCM_STREAM_PLAYBACK => POLLOUT
              end)
  else ret (0, 0).

(** What can happen to a stream: a turn of the period loop of the IO
    thread, or a callback of the host. *)
Inductive call :=
| CallPeriod (results : list sys_result) (rv : Z)
| CallStart (rv errno : Z)
| CallStop
| CallPointer
| CallClose
| CallHwParams (width pipe_sz : Z)
| CallHwFree (rv errno : Z)
| CallSwParams (boundary : Z)
| CallPrepare
| CallDrain (rv errno : Z)
| CallPause (enable rv errno : Z)
| CallDump
| CallDelay (fionread : option Z) (daemon_delay : Z)
| CallPollDescriptorsCount
| CallPollDescriptors (space : Z)
| CallPollRevents (nfds pfd_revents revents avail : Z).

Definition forget {A} (m : M A) : M unit := m ;;; ret tt.

Definition run_call (c : call) : M unit :=
  match c with
  | CallPeriod results rv => forget (io_thread_period results rv)
  | CallStart rv errno => forget (bluealsa_proxy_start rv errno)
  | CallStop => forget bluealsa_proxy_stop
  | CallPointer => forget bluealsa_proxy_pointer
  | CallClose => forget bluealsa_proxy_close
  | CallHwParams width pipe_sz =>
    forget (bluealsa_proxy_hw_params width pipe_sz)
  | CallHwFree rv errno => forget (bluealsa_proxy_hw_free rv errno)
  | CallSwParams boundary => forget (bluealsa_proxy_sw_params boundary)
  | CallPrepare => forget bluealsa_proxy_prepare
  | CallDrain rv errno => forget (bluealsa_proxy_drain rv errno)
  | CallPause enable rv errno => forget (bluealsa_proxy_pause enable rv errno)
  | CallDump => forget bluealsa_proxy_dump
  | CallDelay fionread daemon_delay =>
    forget (bluealsa_proxy_delay fionread daemon_delay)
  | CallPollDescriptorsCount => forget bluealsa_proxy_poll_descriptors_count
  | CallPollDescriptors space =>
    forget (bluealsa_proxy_poll_descriptors space)
  | CallPollRevents nfds pfd_revents revents avail =>
    forget (bluealsa_proxy_poll_revents nfds pfd_revents revents avail)
  end.

Fixpoint run_calls (cs : list call) : M unit :=
  match cs with
  | [] => ret tt
  | c :: rest => run_call c ;;; run_calls rest
  end.


(** The bytes the events say were moved through the FIFO. *)
Fixpoint bytes_moved (evs : list event) : Z :=
  match evs with
  | [] => 0
  | EvRead _ _ r :: rest | EvWrite _ _ r :: rest =>
    Z.max 0 r + bytes_moved rest
  | _ :: rest => bytes_moved rest
  end.

(** The number of times the events write [v] to the event descriptor. *)
Fixpoint eventfd_writes (v : Z) (evs : list event) : nat :=
  match evs with
  | [] => O
  | EvEventfdWrite _ v' :: rest =>
    if v' =? v then S (eventfd_writes v rest) else eventfd_writes v rest
  | _ :: rest => eventfd_writes v rest
  end.

(** The number of requests for the delay sent to the daemon. *)
Fixpoint delay_requests (evs : list event) : nat :=
  match evs with
  | [] => O
  | EvGetTransportDelay _ :: rest => S (delay_requests rest)
  | _ :: rest => delay_requests rest
  end.

(** Whether the period loop gets to the transfer: the stream is running
    or draining, or it is in another state but disconnected and the signal
    the IO thread waits for is pending. *)
Definition period_runs (w : world) : bool :=
  match state (io (pcm w)) with
  | SND_PCM_STATE_RUNNING | SND_PCM_STATE_DRAINING => true
  | SND_PCM_STATE_DISCONNECTED => false
  | _ => sigio_pending w
  end.

(** *** Inputs of the examples *)

(** Playback at 48000 Hz, stereo: periods of 960 frames in a buffer of
    4800, nothing written by the consumer yet. *)
Definition io_playback : snd_pcm_ioplug_t :=
  {| stream := SND_PCM_STREAM_PLAYBACK; state := SND_PCM_STATE_RUNNING;
     appl_ptr := 0; hw_ptr := 0; buffer_size := 4800; period_size := 960;
     rate := 48000; channels := 2 |}.

Definition pcm_playback : bluealsa_pcm :=
  {| io := io_playback; fd := 3; event_fd := 4; transport := Some 1;
     pcm_buffer_size := 4096; pcm_fd := 6; io_ptr := 0; io_started := true; delay := 0;
     delay_ex := 0; frame_size := 4;
     io_hw_boundary := 5404319552844595200; io_hw_ptr := 0 |}.

Definition world_playback : world :=
  {| pcm := pcm_playback; event_counter := 0; sigio_pending := false;
     counter := 0 |}.

(** The same stream after the consumer has written a whole buffer. *)
Definition set_appl_ptr (v : Z) (i : snd_pcm_ioplug_t) :=
  {| stream := stream i; state := state i; appl_ptr := v;
     hw_ptr := hw_ptr i; buffer_size := buffer_size i;
     period_size := period_size i; rate := rate i;
     channels := channels i |}.

Definition world_playback_fed : world :=
  {| pcm := set_io (set_appl_ptr 4800) pcm_playback; event_counter := 0;
     sigio_pending := false; counter := 0 |}.

(** Capture on the same parameters. *)
Definition set_stream (v : snd_pcm_stream_t) (i : snd_pcm_ioplug_t) :=
  {| stream := v; state := state i; appl_ptr := appl_ptr i;
     hw_ptr := hw_ptr i; buffer_size := buffer_size i;
     period_size := period_size i; rate := rate i;
     channels := channels i |}.

Definition world_capture : world :=
  {| pcm := set_io (set_stream SND_PCM_STREAM_CAPTURE) pcm_playback;
     event_counter := 0; sigio_pending := false; counter := 0 |}.

(** What a turn of the period loop that ends with [out] has done, from the
    world [w] to the world [w'] with the events [evs]. *)
Definition period_post (w : world) (out : outcome) (w' : world)
    (evs : list event) : Prop :=
  let p := pcm w in
  let frames := period_frames p in
  let ptr' := advance (io_ptr p) frames (buffer_size (io p)) in
  let hw' := advance (io_hw_ptr p) frames (io_hw_boundary p) in
  counter w' = counter w
  /\ match out with
     | Published =>
       pcm w' = set_ptrs ptr' hw' p
       /\ event_counter w' = event_counter w + 1
       /\ bytes_moved evs = ulong (frames * frame_size p)
       /\ eventfd_writes SENTINEL evs = O
       /\ (stream (io p) = SND_PCM_STREAM_PLAYBACK -> hw' <= appl_ptr (io p))
     | Underrun =>
       stream (io p) = SND_PCM_STREAM_PLAYBACK
       /\ hw' > appl_ptr (io p)
       /\ pcm w' = set_ptrs (ulong (-1)) hw'
                     (set_io (set_state SND_PCM_STATE_XRUN) p)
       /\ event_counter w' = event_counter w + 1
       /\ evs = [EvEventfdWrite (event_fd p) 1]
     | WaitPcmFd =>
       stream (io p) = SND_PCM_STREAM_CAPTURE
       /\ pcm w' = p
       /\ event_counter w' = event_counter w
       /\ eventfd_writes SENTINEL evs = O
     | Exited =>
       pcm w' = match transport p with
                | None => p
                | Some _ => set_pcm_fd (-1) p
                end
       /\ event_counter w' = event_counter w + SENTINEL
       /\ exists pre,
            evs = pre ++ [EvEventfdWrite (event_fd p) SENTINEL]
            /\ eventfd_writes SENTINEL pre = O
     end.

(** *** The period loop as a whole *)

(** The [for (;;)] loop of [io_thread]: turns of the period loop until one
    leaves it, for [wait_pcm_fd:] or for the return of the thread.
    [turns] holds the results of the system calls of each turn; the result
    tells how each turn ended. *)
Fixpoint io_thread_loop (turns : list (list sys_result)) (rv : Z)
  : M (list outcome) :=
  match turns with
  | [] => blocked
  | results :: rest =>
    out <- io_thread_period results rv ;;
    match out with
    | Published | Underrun =>
      outs <- io_thread_loop rest rv ;;
      ret (out :: outs)
    | WaitPcmFd | Exited => ret [out]
    end
  end.

(** The first turns of the same loop: the run is followed for the turns
    given and no further. *)
Fixpoint io_thread_periods (turns : list (list sys_result)) (rv : Z)
  : M (list outcome) :=
  match turns with
  | [] => ret []
  | results :: rest =>
    out <- io_thread_period results rv ;;
    match out with
    | Published | Underrun =>
      outs <- io_thread_periods rest rv ;;
      ret (out :: outs)
    | WaitPcmFd | Exited => ret [out]
    end
  end.

(** Whether a turn stays in the loop. *)
Definition stays_in_loop (out : outcome) : bool :=
  match out with
  | Published | Underrun => true
  | WaitPcmFd | Exited => false
  end.

(** Five turns of capture in which the FIFO delivers a whole period of
    3840 bytes at once. *)
Definition turns_five : list (list sys_result) :=
  [[SysData 3840]; [SysData 3840]; [SysData 3840]; [SysData 3840];
   [SysData 3840]].

Definition published_five : list outcome :=
  [Published; Published; Published; Published; Published].

(** What stays of a stream [p] in a stream [p']: the control socket, the
    event descriptor, the pointer to the transport, the extra delay and
    all of the structure of the host but its state; the FIFO is the same
    or forgotten. *)
Definition same_stream_setup (p p' : bluealsa_pcm) : Prop :=
  fd p' = fd p
  /\ event_fd p' = event_fd p
  /\ transport p' = transport p
  /\ delay_ex p' = delay_ex p
  /\ io p' = set_state (state (io p')) (io p)
  /\ (pcm_fd p' = pcm_fd p \/ pcm_fd p' = -1).

(** A life of a playback stream: parameters, a start, a period, a pause,
    a resume, a query of the delay and the release. *)
Definition calls_playback : list call :=
  [ CallHwParams 16 4096; CallSwParams 5404319552844595200; CallPrepare;
    CallStart 0 0; CallPeriod [SysData 3840] 0; CallPause 1 0 0;
    CallPause 0 0 0; CallDelay (Some 2048) 100; CallPointer;
    CallHwFree 0 0; CallStop ].

(** When [bluealsa_proxy_delay] asks the daemon for the delay. *)
Definition delay_refresh_cond (w : world) : bool :=
  running_or_draining (state (io (pcm w)))
  && match stream (io (pcm w)) with
     | SND_PCM_STREAM_PLAYBACK => true
     | SND_PCM_STREAM_CAPTURE => false
     end
  && ((delay (pcm w) =? 0)
      || (uint (counter w + 1) mod (uint (rate (io (pcm w))) / 10) =? 0)).

(** The frames queued in the FIFO, as [bluealsa_proxy_delay] counts them. *)
Definition delay_fifo_frames (fionread : option Z) (p : bluealsa_pcm) : Z :=
  match fionread with
  | Some size => uint size / frame_size p
  | None => 0
  end.

(** The intrinsic delay after a call of [bluealsa_proxy_delay]: the answer
    of the daemon, in frames, when it was asked and did answer. *)
Definition refreshed_delay (daemon_delay : Z) (w : world) : Z :=
  if delay_refresh_cond w && negb (uint daemon_delay =? uint (-1))
  then uint (uint (rate (io (pcm w))) / 100 * uint daemon_delay) / 100
  else delay (pcm w).

(** Whether a call of [bluealsa_proxy_delay] moves the static counter:
    the second operand of the condition is evaluated, which happens for a
    playback stream that is running or draining and whose intrinsic delay
    is not 0. *)
Definition delay_counts (w : world) : bool :=
  running_or_draining (state (io (pcm w)))
  && match stream (io (pcm w)) with
     | SND_PCM_STREAM_PLAYBACK => true
     | SND_PCM_STREAM_CAPTURE => false
     end
  && negb (delay (pcm w) =? 0).

(** The fed playback stream of the examples with an intrinsic delay of
    720 frames, after 4799 counted calls of [bluealsa_proxy_delay]. *)
Definition world_playback_delayed : world :=
  {| pcm := set_delay 720 (set_io (set_appl_ptr 4800) pcm_playback);
     event_counter := 0; sigio_pending := false; counter := 4799 |}.

(** *** Comparing counters that wrap *)



(** *** A FIFO that fails *)

(** The results of the system calls on the FIFO are such that the
    transfer of [len] bytes fails: after calls that are interrupted or
    move a part of the bytes, a call ends with an error other than
    [EINTR].  In capture nothing is read when [len] is 0, and a call that
    moves nothing is the end of the stream, not a failure. *)
Inductive fifo_fails (dir : snd_pcm_stream_t)
  : Z -> list sys_result -> Prop :=
| fails_now len e rest :
    (dir = SND_PCM_STREAM_CAPTURE -> len <> 0) ->
    e <> EINTR ->
    fifo_fails dir len (SysErr e :: rest)
| fails_after_eintr len rest :
    len <> 0 ->
    fifo_fails dir len rest ->
    fifo_fails dir len (SysErr EINTR :: rest)
| fails_after_part len n rest :
    (dir = SND_PCM_STREAM_CAPTURE ->
     len <> 0 /\ sys_return (SysData n) len <> 0) ->
    ulong (len - sys_return (SysData n) len) <> 0 ->
    fifo_fails dir (ulong (len - sys_return (SysData n) len)) rest ->
    fifo_fails dir len (SysData n :: rest).

(** The events of [close_transport] on the stream [p]. *)
Definition close_transport_events (p : bluealsa_pcm) : list event :=
  match transport p with
  | None => []
  | Some _ => [EvCloseTransport (fd p); EvClose (pcm_fd p)]
  end.


(** *** The connection to the daemon and the remote device

    [bluealsa_proxy_set_remote_device], [open_bluez_connection],
    [close_bluez_connection], the constraints of the hardware parameters
    and the constructor of the plug-in. *)

Definition INTERFACE_STR_MAXLEN : nat := 256.
Definition PROFILE_STR_MAXLEN : nat := 16.

(** Modelled from the spec: [enum pcm_type] is declared in
    [shared/ctl-proto.h]; its first value is the null type. *)
Inductive pcm_type := PCM_TYPE_NULL | PCM_TYPE_A2DP | PCM_TYPE_SCO.

(** [tolower] of the C library on ASCII. *)
Definition tolower (c : ascii) : ascii :=
  let n := nat_of_ascii c in
  if ((65 <=? n) && (n <=? 90))%nat then ascii_of_nat (n + 32) else c.

(** [strcasecmp(a, b) == 0]. *)
Fixpoint strcasecmp_eq (a b : string) : bool :=
  match a, b with
  | EmptyString, EmptyString => true
  | String x a', String y b' =>
    Ascii.eqb (tolower x) (tolower y) && strcasecmp_eq a' b'
  | _, _ => false
  end.

(** [bluealsa_proxy_parse_profile]; [None] is a null pointer. *)
Definition bluealsa_proxy_parse_profile (profile : option string) : pcm_type :=
  match profile with
  | None => PCM_TYPE_NULL
  | Some s =>
    if strcasecmp_eq s "a2dp" then PCM_TYPE_A2DP
    else if strcasecmp_eq s "sco" then PCM_TYPE_SCO
    else PCM_TYPE_NULL
  end.

(** What [strncpy(dst, src, n)] leaves in [dst], read as a C string: the
    text when it is shorter than [n]; otherwise the [n] bytes hold no
    final zero, which is [None]. *)
Definition strncpy (src : string) (n : nat) : option string :=
  if (String.length src <? n)%nat then Some src else None.

(** [struct bluealsa_pcm] as a whole: the stream with its counters, and
    the fields that name the remote device.  [pcm_stream] is the field
    [stream] of the structure; [live] tells whether the block is still
    allocated. *)
Record plugin_pcm := {
  base : world;
  interface : option string;
  addr : list Z;
  profile : option string;
  type : pcm_type;
  pcm_stream : snd_pcm_stream_t;
  live : bool
}.

Definition set_base (w : world) (s : plugin_pcm) :=
  {| base := w; interface := interface s; addr := addr s;
     profile := profile s; type := type s; pcm_stream := pcm_stream s;
     live := live s |}.

Definition set_addr (a : list Z) (s : plugin_pcm) :=
  {| base := base s; interface := interface s; addr := a;
     profile := profile s; type := type s; pcm_stream := pcm_stream s;
     live := live s |}.

(** [strncpy(the_pcm->profile, ...); strncpy(the_pcm->interface, ...);
    the_pcm->type = type]. *)
Definition set_remote (itf prof : option string) (t : pcm_type)
    (s : plugin_pcm) :=
  {| base := base s; interface := itf; addr := addr s;
     profile := prof; type := t; pcm_stream := pcm_stream s;
     live := live s |}.

Definition set_live (v : bool) (s : plugin_pcm) :=
  {| base := base s; interface := interface s; addr := addr s;
     profile := profile s; type := type s; pcm_stream := pcm_stream s;
     live := v |}.

Definition set_fd (v : Z) (p : bluealsa_pcm) :=
  {| io := io p; fd := v; event_fd := event_fd p;
     transport := transport p; pcm_buffer_size := pcm_buffer_size p;
     pcm_fd := pcm_fd p; io_ptr := io_ptr p;
     io_started := io_started p; delay := delay p; delay_ex := delay_ex p;
     frame_size := frame_size p; io_hw_boundary := io_hw_boundary p;
     io_hw_ptr := io_hw_ptr p |}.

Definition set_transport (v : option Z) (p : bluealsa_pcm) :=
  {| io := io p; fd := fd p; event_fd := event_fd p;
     transport := v; pcm_buffer_size := pcm_buffer_size p;
     pcm_fd := pcm_fd p; io_ptr := io_ptr p;
     io_started := io_started p; delay := delay p; delay_ex := delay_ex p;
     frame_size := frame_size p; io_hw_boundary := io_hw_boundary p;
     io_hw_ptr := io_hw_ptr p |}.

(** The parameters of the host that the plug-in constrains. *)
Inductive ioplug_hw :=
| SND_PCM_IOPLUG_HW_ACCESS
| SND_PCM_IOPLUG_HW_FORMAT
| SND_PCM_IOPLUG_HW_CHANNELS
| SND_PCM_IOPLUG_HW_RATE
| SND_PCM_IOPLUG_HW_PERIOD_BYTES
| SND_PCM_IOPLUG_HW_BUFFER_BYTES
| SND_PCM_IOPLUG_HW_PERIODS.

(** The requests of the connection, beside the events of the stream. *)
Inductive conn_event :=
| EvPcm (e : event)
| EvBaOpen (itf : option string) (fd : Z)
| EvGetTransport (fd : Z) (a : list Z) (t : pcm_type)
    (dir : snd_pcm_stream_t)
| EvSetParamList (param : ioplug_hw) (count : Z)
| EvSetParamMinmax (param : ioplug_hw) (min max : Z)
| EvIoplugDelete
| EvOpenTransport (fd tr : Z) (dir : snd_pcm_stream_t)
| EvEventfd (fd : Z)
| EvIoplugCreate (dir : snd_pcm_stream_t)
| EvThreadCreate.

Abbreviation C := (Call plugin_pcm conn_event).

Definition get_plugin : C plugin_pcm := fun s => Some (s, s, []).

Definition modify_base (f : bluealsa_pcm -> bluealsa_pcm) : C unit :=
  fun s =>
    Some (tt,
          set_base {| pcm := f (pcm (base s));
                      event_counter := event_counter (base s);
                      sigio_pending := sigio_pending (base s);
                      counter := counter (base s) |} s, []).

(** A call on the stream, seen among the events of the connection. *)
Definition lift_pcm {A} (m : M A) : C A :=
  fun s =>
    match m (base s) with
    | None => None
    | Some (a, w', evs) => Some (a, set_base w' s, map EvPcm evs)
    end.

(** [if ((err = call) < 0) return err;] followed by [k]. *)
Definition or_return (err : Z) (k : C Z) : C Z :=
  if err <? 0 then ret err else k.

(** Modelled from the spec: the fields [sampling] and [channels] of
    [struct msg_transport] are declared in [shared/ctl-proto.h]; the lower
    bounds of the period and of the buffer, in bytes, are computed from
    them in [unsigned int]. *)
Definition min_p (sampling channels : Z) : Z :=
  uint (uint (uint (uint (sampling * 10) / 1000) * channels) * 2).

Definition min_b (sampling channels : Z) : Z :=
  uint (uint (uint (uint (sampling * 200) / 1000) * channels) * 2).

(** [bluealsa_proxy_set_hw_constraint].  [sampling] and [channels] are the
    fields of the transport [pcm->transport] points to; [err k] is what
    the [k]-th call of the host returns. *)
Definition bluealsa_proxy_set_hw_constraint (sampling channels : Z)
    (err : nat -> Z) : C Z :=
  emit (EvSetParamList SND_PCM_IOPLUG_HW_ACCESS 2) ;;;
  or_return (err 0%nat) (
  emit (EvSetParamList SND_PCM_IOPLUG_HW_FORMAT 1) ;;;
  or_return (err 1%nat) (
  emit (EvSetParamMinmax SND_PCM_IOPLUG_HW_PERIODS 2 1024) ;;;
  or_return (err 2%nat) (
  emit (EvSetParamMinmax SND_PCM_IOPLUG_HW_PERIOD_BYTES
          (min_p sampling channels) (1024 * 16)) ;;;
  or_return (err 3%nat) (
  emit (EvSetParamMinmax SND_PCM_IOPLUG_HW_BUFFER_BYTES
          (min_b sampling channels) (1024 * 1024 * 16)) ;;;
  or_return (err 4%nat) (
  emit (EvSetParamMinmax SND_PCM_IOPLUG_HW_CHANNELS channels channels) ;;;
  or_return (err 5%nat) (
  emit (EvSetParamMinmax SND_PCM_IOPLUG_HW_RATE sampling sampling) ;;;
  or_return (err 6%nat) (
  ret 0))))))).

(** What the daemon and the host answer during [open_bluez_connection]:
    the descriptor of the control socket, the transport (its pointer, its
    rate and its channels; [None] for a null pointer), the results of the
    constraints, the descriptor of the FIFO and the result of the resume,
    each failure with the [errno] it leaves. *)
Record conn_oracle := {
  co_open : Z;
  co_open_errno : Z;
  co_transport : option (Z * Z * Z);
  co_transport_errno : Z;
  co_param : nat -> Z;
  co_fifo : Z;
  co_fifo_errno : Z;
  co_pause : Z;
  co_pause_errno : Z
}.

(** A call on the stream [the_pcm] points to; with [the_pcm] null the
    call reads through a null pointer and does not return. *)
Definition on_the_pcm {A} (m : C A) : Call (option plugin_pcm) conn_event A :=
  fun the_pcm =>
    match the_pcm with
    | None => None
    | Some s =>
      match m s with
      | None => None
      | Some (a, s', evs) => Some (a, Some s', evs)
      end
    end.

(** [bluealsa_proxy_close] with what it does to [the_pcm]: [s] is the
    stream the callback is called for; its block is freed and [the_pcm]
    is set to null. *)
Definition bluealsa_proxy_close_plugin (s : plugin_pcm)
  : Call (option plugin_pcm) conn_event Z :=
  fun _ =>
    match lift_pcm bluealsa_proxy_close s with
    | None => None
    | Some (r, _, evs) => Some (r, None, evs)
    end.

(** [snd_pcm_ioplug_delete(&pcm->io)] for the stream [the_pcm] points to.
    The function of the host library closes the PCM of the plug-in, and
    the close of a PCM ends in the [close] entry of the table of
    callbacks the plug-in registered, [bluealsa_proxy_callback], which is
    [bluealsa_proxy_close]: the control socket and the event descriptor
    are closed, the block is freed and [the_pcm] is set to null.  The
    stream is taken with no hardware parameters installed, where the
    close of the host calls no other callback before that one. *)
Definition snd_pcm_ioplug_delete : Call (option plugin_pcm) conn_event Z :=
  emit EvIoplugDelete ;;;
  (fun the_pcm =>
     match the_pcm with
     | None => None
     | Some s => bluealsa_proxy_close_plugin s the_pcm
     end).

(** [open_bluez_connection].  The state is [the_pcm], which the function
    reads without a test; after a refused constraint the structure of the
    host is deleted, which closes the plug-in. *)
Definition open_bluez_connection (o : conn_oracle)
  : Call (option plugin_pcm) conn_event Z :=
  s <- on_the_pcm get_plugin ;;
  emit (EvBaOpen (interface s) (co_open o)) ;;;
  on_the_pcm (modify_base (set_fd (co_open o))) ;;;
  if co_open o =? -1 then ret (- co_open_errno o)
  else
    emit (EvGetTransport (co_open o) (addr s) (type s) (pcm_stream s)) ;;;
    match co_transport o with
    | None =>
      on_the_pcm (modify_base (set_transport None)) ;;;
      ret (- co_transport_errno o)
    | Some (tr, sampling, channels) =>
      on_the_pcm (modify_base (set_transport (Some tr))) ;;;
      r <- on_the_pcm
             (bluealsa_proxy_set_hw_constraint sampling channels
                (co_param o)) ;;
      if r <? 0 then
        snd_pcm_ioplug_delete ;;;
        ret r
      else
        emit (EvOpenTransport (co_open o) tr (pcm_stream s)) ;;;
        on_the_pcm (modify_base (set_pcm_fd (co_fifo o))) ;;;
        if co_fifo o =? -1 then ret (- co_fifo_errno o)
        else
          emit (EvPcm (EvPauseTransport (co_open o) false)) ;;;
          if co_pause o =? -1 then ret (- co_pause_errno o)
          else ret 0
    end.

(** [close_bluez_connection], [the_pcm] being valid; [rv] is the answer of
    the daemon to the release of the transport. *)
Definition close_bluez_connection (rv : Z) : C Z :=
  lift_pcm (close_transport rv) ;;;
  s <- get_plugin ;;
  emit (EvPcm (EvClose (fd (pcm (base s))))) ;;;
  ret 0.

Section RemoteDevice.

(** [str2ba] of the Bluetooth library: the value it returns and the six
    bytes it leaves in the address. *)
Variable str2ba : string -> Z * list Z.

(** [bluealsa_proxy_set_remote_device], for an [interface] that is not
    null.  The state is [the_pcm]: [None] when null, a live block
    otherwise.  [device] and [profile] are [None] for null pointers; [rv]
    is the answer of the daemon to the release of the old transport, [o]
    what it answers to the new connection. *)
Definition bluealsa_proxy_set_remote_device (rv : Z) (o : conn_oracle)
    (itf : string) (device profile : option string)
  : Call (option plugin_pcm) conn_event Z :=
  fun the_pcm =>
    match the_pcm with
    | None => Some (-1, None, [])
    | Some s =>
      match device with
      | None => Some (- EINVAL, Some s, [])
      | Some dev =>
        let s1 := set_addr (snd (str2ba dev)) s in
        if negb (fst (str2ba dev) =? 0) then Some (- EINVAL, Some s1, [])
        else
          match profile, bluealsa_proxy_parse_profile profile with
          | Some prof, PCM_TYPE_A2DP as t | Some prof, PCM_TYPE_SCO as t =>
            let s2 := set_remote (strncpy itf INTERFACE_STR_MAXLEN)
                        (strncpy prof PROFILE_STR_MAXLEN) t s1 in
            (on_the_pcm (close_bluez_connection rv) ;;;
             open_bluez_connection o) (Some s2)
          | _, _ => Some (- EINVAL, Some s1, [])
          end
      end
    end.

End RemoteDevice.

(** What the system and the host answer to the constructor of the
    plug-in. *)
Record create_oracle := {
  cr_calloc : bool;
  cr_eventfd : Z;
  cr_eventfd_errno : Z;
  cr_ioplug_create : Z;
  cr_pthread_create : Z
}.

(** The structure after [calloc], the first assignments and
    [snd_pcm_ioplug_create], which sets the direction and the state OPEN
    in the structure of the host.  [efd] is the event descriptor, [c] the
    value of the static counter of [bluealsa_proxy_delay]. *)
Definition zero_io (dir : snd_pcm_stream_t) : snd_pcm_ioplug_t :=
  {| stream := dir; state := SND_PCM_STATE_OPEN; appl_ptr := 0;
     hw_ptr := 0; buffer_size := 0; period_size := 0; rate := 0;
     channels := 0 |}.

Definition zero_pcm (dir : snd_pcm_stream_t) (efd c : Z) : plugin_pcm :=
  {| base :=
       {| pcm :=
            {| io := zero_io dir; fd := -1; event_fd := efd;
               transport := None; pcm_buffer_size := 0; pcm_fd := -1;
               io_ptr := 0; io_started := false; delay := 0; delay_ex := 0;
               frame_size := 0; io_hw_boundary := 0; io_hw_ptr := 0 |};
          event_counter := 0; sigio_pending := false; counter := c |};
     interface := Some ""%string; addr := [0; 0; 0; 0; 0; 0];
     profile := Some ""%string; type := PCM_TYPE_NULL; pcm_stream := dir;
     live := true |}.

(** The function [SND_PCM_PLUGIN_DEFINE_FUNC(bluealsa_proxy)] defines.
    The state is [the_pcm]; the result is the value returned.  At [fail:]
    the event descriptor is closed when there is one ([pcm->fd] is -1 all
    along) and the block is freed; [the_pcm] is not written there. *)
Definition snd_pcm_bluealsa_proxy_open (o : create_oracle)
    (dir : snd_pcm_stream_t) (c : Z)
  : Call (option plugin_pcm) conn_event Z :=
  fun the_pcm =>
    if negb (cr_calloc o) then Some (- ENOMEM, the_pcm, [])
    else
      let p0 := zero_pcm dir (cr_eventfd o) c in
      let fail (ret : Z) (the_pcm : option plugin_pcm)
               (evs : list conn_event) :=
        Some (ret, the_pcm,
              evs ++ (if cr_eventfd o =? -1 then []
                      else [EvPcm (EvClose (cr_eventfd o))])) in
      if cr_eventfd o =? -1 then
        fail (- cr_eventfd_errno o) the_pcm [EvEventfd (cr_eventfd o)]
      else if cr_ioplug_create o <? 0 then
        fail (cr_ioplug_create o) the_pcm
          [EvEventfd (cr_eventfd o); EvIoplugCreate dir]
      else if negb (cr_pthread_create o =? 0) then
        fail (- cr_pthread_create o) (Some (set_live false p0))
          [EvEventfd (cr_eventfd o); EvIoplugCreate dir; EvThreadCreate]
      else
        Some (0, Some p0,
              [EvEventfd (cr_eventfd o); EvIoplugCreate dir;
               EvThreadCreate]).

(** A text in lower case. *)
Fixpoint lower (s : string) : string :=
  match s with
  | EmptyString => EmptyString
  | String c s' => String (tolower c) (lower s')
  end.

(** Every step of [open_bluez_connection] succeeds. *)
Definition conn_succeeds (o : conn_oracle) : Prop :=
  co_open o <> -1
  /\ co_transport o <> None
  /\ (forall k, (k < 7)%nat -> 0 <= co_param o k)
  /\ co_fifo o <> -1
  /\ co_pause o <> -1.

(** The control socket and the transport are obtained and the host
    refuses one of the seven constraints. *)
Definition constraint_refused (o : conn_oracle) : Prop :=
  co_open o <> -1
  /\ co_transport o <> None
  /\ exists k, (k < 7)%nat /\ co_param o k < 0.

(** The seven requests of [bluealsa_proxy_set_hw_constraint], in the
    order of the source. *)
Definition hw_constraints (sampling channels : Z) : list conn_event :=
  [ EvSetParamList SND_PCM_IOPLUG_HW_ACCESS 2;
    EvSetParamList SND_PCM_IOPLUG_HW_FORMAT 1;
    EvSetParamMinmax SND_PCM_IOPLUG_HW_PERIODS 2 1024;
    EvSetParamMinmax SND_PCM_IOPLUG_HW_PERIOD_BYTES
      (min_p sampling channels) (1024 * 16);
    EvSetParamMinmax SND_PCM_IOPLUG_HW_BUFFER_BYTES
      (min_b sampling channels) (1024 * 1024 * 16);
    EvSetParamMinmax SND_PCM_IOPLUG_HW_CHANNELS channels channels;
    EvSetParamMinmax SND_PCM_IOPLUG_HW_RATE sampling sampling ].

(** Every step of the constructor succeeds. *)
Definition create_succeeds (o : create_oracle) : Prop :=
  cr_calloc o = true /\ cr_eventfd o <> -1 /\ 0 <= cr_ioplug_create o
  /\ cr_pthread_create o = 0.

(** The descriptors the events close, in order. *)
Fixpoint closes (evs : list conn_event) : list Z :=
  match evs with
  | [] => []
  | EvPcm (EvClose fd) :: rest => fd :: closes rest
  | _ :: rest => closes rest
  end.

(** A life of the plug-in from the constructor to [bluealsa_proxy_close]:
    the constructor, the choice of a remote device, the release of the
    hardware parameters when [free] is set, and the close.  The daemon
    answers 0 to the releases. *)
Definition plugin_life (str2ba : string -> Z * list Z) (cr : create_oracle)
    (dir : snd_pcm_stream_t) (c : Z) (o : conn_oracle)
    (itf dev prof : string) (free : bool)
  : Call (option plugin_pcm) conn_event Z :=
  r <- snd_pcm_bluealsa_proxy_open cr dir c ;;
  if negb (r =? 0) then ret r
  else
    bluealsa_proxy_set_remote_device str2ba 0 o itf (Some dev) (Some prof) ;;;
    (if free then on_the_pcm (lift_pcm (bluealsa_proxy_hw_free 0 0))
     else ret 0) ;;;
    (fun the_pcm =>
       match the_pcm with
       | None => None
       | Some s => bluealsa_proxy_close_plugin s the_pcm
       end).

(** *** Inputs of the examples *)

(** The parser of the examples: it knows one address and leaves zeros
    for any other text. *)
Definition str2ba_pair (s : string) : Z * list Z :=
  if String.eqb s "AA:BB:CC:DD:EE:FF"
  then (0, [255; 238; 221; 204; 187; 170])
  else (-1, [0; 0; 0; 0; 0; 0]).

(** A daemon that opens the control socket 8, offers the transport 1 at
    44100 Hz with two channels, and opens its FIFO as descriptor 9. *)
Definition conn_ok : conn_oracle :=
  {| co_open := 8; co_open_errno := 111;
     co_transport := Some (1, 44100, 2); co_transport_errno := 19;
     co_param := fun _ => 0;
     co_fifo := 9; co_fifo_errno := 16;
     co_pause := 0; co_pause_errno := 5 |}.

(** The same daemon with a host that refuses the lower bound of the
    period with -EINVAL. *)
Definition conn_refused : conn_oracle :=
  {| co_open := 8; co_open_errno := 111;
     co_transport := Some (1, 44100, 2); co_transport_errno := 19;
     co_param := fun k => if (k =? 3)%nat then -22 else 0;
     co_fifo := 9; co_fifo_errno := 16;
     co_pause := 0; co_pause_errno := 5 |}.

(** The events of [close_bluez_connection] on the stream [s]: the release
    of the transport and of the FIFO when there is a transport, then the
    close of the control socket. *)
Definition close_events (s : plugin_pcm) : list conn_event :=
  match transport (pcm (base s)) with
  | None => []
  | Some _ => [EvPcm (EvCloseTransport (fd (pcm (base s))));
               EvPcm (EvClose (pcm_fd (pcm (base s))))]
  end ++ [EvPcm (EvClose (fd (pcm (base s))))].

(** The capture stream of the examples as the stream of the plug-in,
    bound to no device yet. *)
Definition plugin_capture : plugin_pcm :=
  {| base := world_capture; interface := Some "hci0"%string;
     addr := [0; 0; 0; 0; 0; 0]; profile := Some ""%string;
     type := PCM_TYPE_NULL; pcm_stream := SND_PCM_STREAM_CAPTURE;
     live := true |}.

Definition create_ok : create_oracle :=
  {| cr_calloc := true; cr_eventfd := 4; cr_eventfd_errno := 24;
     cr_ioplug_create := 0; cr_pthread_create := 0 |}.

Definition create_no_thread : create_oracle :=
  {| cr_calloc := true; cr_eventfd := 4; cr_eventfd_errno := 24;
     cr_ioplug_create := 0; cr_pthread_create := 11 |}.

End Pcm.

(** ** Properties of the device monitor *)

Module MonitorFacts.
Import Monitor.

(** C2. The refresh operation selects a transport of a device other than
    the bound one: with the bound address [addr_a] and the profile A2DP,
    and the list of a voice transport of [addr_a] followed by a music
    transport of [addr_b], the loop stops at index 1, whose address is not
    the bound one, because the address test reads the first element of the
    list; the selection of the specification finds no transport.  The
    refresh then opens the FIFO of the transport of [addr_b]. *)
Theorem refresh_selects_foreign_address :
  find_transport addr_a BA_A2DP [tr_sco_a; tr_a2dp_b] 2 0 = (true, 1%nat)
  /\ bacmp addr_a (tr_addr tr_a2dp_b) <> 0
  /\ spec_select addr_a BA_A2DP [tr_sco_a; tr_a2dp_b] 0 = None
  /\ exists w' evs,
       update_device_attach_state
         {| get_transports_reply := Some [tr_sco_a; tr_a2dp_b];
            open_transport_reply := 7 |} 1 world_bound = Some (0, w', evs)
       /\ snd_fd (hdl w') = 7
       /\ In (EvOpenTransport 3 tr_a2dp_b) evs.
Proof.
  split; [reflexivity|].
  split; [vm_compute; discriminate|].
  split; [reflexivity|].
  eexists; eexists.
  split; [reflexivity|].
  split; [reflexivity|].
  simpl. right. left. reflexivity.
Qed.


Ltac run_monitor :=
  unfold bluezalsa_set_device, update_device_attach_state, device_detach,
    set_snd_fd, bluealsa_close_transport, bluealsa_open_transport, close,
    write, pthread_mutex_lock, pthread_mutex_unlock, modify_handle,
    get_handle, emit, blocked, bind, ret, prepend;
  simpl.

(** C8. [set_device] on a handle with a bound address and the FIFO 7 open
    forgets the descriptor without closing it: after the call [snd_fd] is
    -1, the descriptor 7 is still open and no [close] was issued for it.
    [device_detach], on the same handle, closes it. *)
Theorem set_device_leaks_fifo :
  (exists w' evs,
     bluezalsa_set_device str2ba_example
       {| get_transports_reply := None; open_transport_reply := -1 |}
       1 true None BA_A2DP world_attached = Some (0, w', evs)
     /\ snd_fd (hdl w') = -1
     /\ addr (hdl w') = None
     /\ (7 ∈ open_fds w')
     /\ ~ In (EvClose 7) evs)
  /\ (exists w' evs,
        device_detach world_attached = Some (0, w', evs)
        /\ snd_fd (hdl w') = -1
        /\ (7 ∉ open_fds w')
        /\ In (EvClose 7) evs).
Proof.
  split.
  - eexists; eexists.
    split; [reflexivity|].
    split; [reflexivity|].
    split; [reflexivity|].
    split.
    + simpl. set_solver.
    + simpl. intuition discriminate.
  - eexists; eexists.
    split; [reflexivity|].
    split; [reflexivity|].
    split.
    + simpl. rewrite elem_of_difference, elem_of_singleton.
      intros [_ H]. apply H. reflexivity.
    + simpl. right. left. reflexivity.
Qed.

(** *** The stored type of a handle with no bound address is not read *)

Lemma same_run_refl {A} (o : option (A * world * list event)) :
  same_run o o.
Proof.
  destruct o as [[[a w] t]|]; simpl; auto.
  repeat split. left. reflexivity.
Qed.

Lemma same_run_observation {A} (o1 o2 : option (A * world * list event)) :
  same_run o1 o2 -> observation o1 = observation o2.
Proof.
  destruct o1 as [[[a1 w1] t1]|], o2 as [[[a2 w2] t2]|]; simpl;
    try tauto.
  intros (-> & -> & _). reflexivity.
Qed.

Lemma retype_same_observable w t :
  addr (hdl w) = None -> same_observable w (retype t w).
Proof. intros Ha. right. split; [exact Ha | reflexivity]. Qed.

Lemma refresh_retype d u w t :
  addr (hdl w) = None ->
  same_run (update_device_attach_state d u w)
           (update_device_attach_state d u (retype t w)).
Proof.
  intros Ha. run_monitor.
  destruct (mutex_held w); simpl; [exact I|].
  rewrite Ha. simpl. repeat split.
  apply (retype_same_observable
           {| hdl := hdl w; open_fds := open_fds w; mutex_held := false |} t).
  exact Ha.
Qed.

Lemma set_device_retype (str2ba : string -> option bdaddr_t)
    d u malloc_ok address t' w t :
  addr (hdl w) = None ->
  same_run (bluezalsa_set_device str2ba d u malloc_ok address t' w)
           (bluezalsa_set_device str2ba d u malloc_ok address t' (retype t w)).
Proof.
  intros Ha. unfold bluezalsa_set_device.
  destruct (supported_type t'); simpl.
  2:{ repeat split. apply retype_same_observable. exact Ha. }
  unfold device_detach, set_snd_fd, bluealsa_close_transport, close, write,
    pthread_mutex_lock, pthread_mutex_unlock, modify_handle, get_handle,
    emit, blocked, bind, ret.
  simpl. destruct (mutex_held w); simpl; [exact I|].
  rewrite Ha. simpl.
  destruct address as [s|]; simpl.
  - destruct malloc_ok; simpl.
    + destruct (str2ba s) as [a|]; simpl.
      * apply same_run_refl.
      * repeat split.
        apply (retype_same_observable
                 {| hdl := set_addr_h None (hdl w); open_fds := open_fds w;
                    mutex_held := false |} t).
        reflexivity.
    + repeat split.
      apply (retype_same_observable
               {| hdl := set_addr_h None (hdl w); open_fds := open_fds w;
                  mutex_held := false |} t).
      reflexivity.
  - repeat split. left. reflexivity.
Qed.

Lemma readi_retype size w t :
  addr (hdl w) = None ->
  forall rounds r,
    same_run (readi_loop size r rounds w)
             (readi_loop size r rounds (retype t w)).
Proof.
  intros Ha rounds.
  induction rounds as [|p rest IH]; intros r; simpl; [exact I|].
  unfold device_detach, set_snd_fd, bluealsa_close_transport, close,
    modify_handle, get_handle, emit, blocked, bind, ret.
  simpl.
  destruct (poll_res p =? -1), (poll_res p =? 0),
    (Z.land (revents0 p) POLLHUP =? 0), (Z.land (revents1 p) POLLIN =? 0),
    (read_event (event_reads p)) as [r'|],
    (Z.land (revents0 p) POLLIN =? 0), (snd_read p);
    simpl; try rewrite Ha; simpl;
    try destruct (r' =? 8); simpl;
    try exact I;
    try (repeat split; apply retype_same_observable; exact Ha);
    match goal with
    | |- context [readi_loop size ?r0 rest w] =>
      let IHr := fresh "IHr" in
      pose proof (IH r0) as IHr;
      fold (retype t w);
      destruct (readi_loop size r0 rest w) as [[[? ?] ?]|],
               (readi_loop size r0 rest (retype t w)) as [[[? ?] ?]|];
      simpl in *; try tauto;
      destruct IHr as (-> & -> & ?); auto
    end.
Qed.


Lemma run_api_same (str2ba : string -> option bdaddr_t) c w1 w2 :
  same_observable w1 w2 ->
  same_run (run_api str2ba c w1) (run_api str2ba c w2).
Proof.
  intros [->|[Ha Hw]]; [apply same_run_refl|].
  remember (type (hdl w2)) as t eqn:Ht. clear Ht. subst w2.
  destruct c; simpl.
  - apply set_device_retype. exact Ha.
  - apply readi_retype. exact Ha.
  - unfold bluezalsa_writei, ret. repeat split.
    apply retype_same_observable. exact Ha.
  - apply refresh_retype. exact Ha.
Qed.

Lemma run_apis_same (str2ba : string -> option bdaddr_t) cs :
  forall w1 w2,
    same_observable w1 w2 ->
    same_run (run_apis str2ba cs w1) (run_apis str2ba cs w2).
Proof.
  induction cs as [|c cs IH]; intros w1 w2 Hso; simpl.
  - unfold ret. repeat split. exact Hso.
  - unfold bind.
    pose proof (run_api_same str2ba c w1 w2 Hso) as Hc.
    destruct (run_api str2ba c w1) as [[[r1 w1'] t1]|],
             (run_api str2ba c w2) as [[[r2 w2'] t2]|];
      simpl in Hc; try tauto.
    destruct Hc as (-> & -> & Hso').
    pose proof (IH w1' w2' Hso') as Hrest.
    destruct (run_apis str2ba cs w1') as [[[rs1 w1''] t1']|],
             (run_apis str2ba cs w2') as [[[rs2 w2''] t2']|];
      simpl in Hrest; try tauto.
    destruct Hrest as (-> & -> & Hso''). simpl. auto.
Qed.

(** C9. On a detached handle (no bound address, [snd_fd] = -1) and for a
    supported type [t], [set_device(null, t)] returns 0 and does nothing
    that can be observed: it takes and releases the mutex, opens and
    closes no descriptor and writes no notification; of the handle it
    writes the stored type alone, which becomes [t], and the stored type
    of a handle with no bound address is read by no operation: after the
    call every sequence of [set_device], [readi], [writei] and refreshes of
    the monitor thread blocks or returns as it would have without the
    call, with the same values and the same events. *)
Theorem set_device_null_detached :
  forall (str2ba : string -> option bdaddr_t) d u malloc_ok t w,
    supported_type t = true ->
    mutex_held w = false ->
    addr (hdl w) = None ->
    snd_fd (hdl w) = -1 ->
    exists w',
      bluezalsa_set_device str2ba d u malloc_ok None t w
      = Some (0, w', [EvLock; EvUnlock])
      /\ hdl w' = set_type_h t (hdl w)
      /\ open_fds w' = open_fds w
      /\ mutex_held w' = mutex_held w
      /\ forall cs,
           observation (run_apis str2ba cs w')
           = observation (run_apis str2ba cs w).
Proof.
  intros str2ba d u malloc_ok t w Ht Hm Ha Hs.
  exists (retype t w).
  split; [|split; [reflexivity|split; [reflexivity|split]]].
  - run_monitor. rewrite Ht. simpl. rewrite Hm. simpl. rewrite Ha.
    unfold retype. rewrite Hm. reflexivity.
  - simpl. reflexivity.
  - intros cs. symmetry. apply same_run_observation, run_apis_same.
    apply retype_same_observable. exact Ha.
Qed.

(** C9 on the detached handle of the examples, for the type SCO. *)
Lemma set_device_null_detached_witness :
  exists w',
    bluezalsa_set_device str2ba_example
      {| get_transports_reply := None; open_transport_reply := -1 |}
      1 true None BA_SCO world_detached
    = Some (0, w', [EvLock; EvUnlock])
    /\ hdl w' = set_type_h BA_SCO (hdl world_detached)
    /\ open_fds w' = open_fds world_detached
    /\ mutex_held w' = mutex_held world_detached
    /\ forall cs,
         observation (run_apis str2ba_example cs w')
         = observation (run_apis str2ba_example cs world_detached).
Proof.
  apply (set_device_null_detached str2ba_example _ 1 true BA_SCO
           world_detached); reflexivity.
Defined.

(** C10. On a handle with a bound address, [set_device] with a supported
    type and an address string that does not parse returns a nonzero value
    after it has released the bound address: the handle has no bound
    address any more, [snd_fd] is -1, and the stored type is the old
    one. *)
Theorem set_device_malformed_releases_address :
  forall (str2ba : string -> option bdaddr_t) d u malloc_ok s t w a0,
    supported_type t = true ->
    mutex_held w = false ->
    addr (hdl w) = Some a0 ->
    str2ba s = None ->
    exists r w' evs,
      bluezalsa_set_device str2ba d u malloc_ok (Some s) t w
      = Some (r, w', evs)
      /\ r <> 0
      /\ addr (hdl w') = None
      /\ type (hdl w') = type (hdl w)
      /\ snd_fd (hdl w') = -1
      /\ mutex_held w' = false.
Proof.
  intros str2ba d u malloc_ok s t w a0 Ht Hm Ha Hs.
  run_monitor. rewrite Ht. simpl. rewrite Hm. simpl. rewrite Ha. simpl.
  destruct malloc_ok; simpl.
  - rewrite Hs. simpl. eexists; eexists; eexists.
    split; [reflexivity|]. simpl. repeat split; lia.
  - eexists; eexists; eexists.
    split; [reflexivity|]. simpl. repeat split; lia.
Qed.

(** C10 on the attached handle of the examples, with a string that is no address. *)
Lemma set_device_malformed_witness :
  exists r w' evs,
    bluezalsa_set_device str2ba_example
      {| get_transports_reply := None; open_transport_reply := -1 |}
      1 true (Some "not an address"%string) BA_SCO world_attached
    = Some (r, w', evs)
    /\ r <> 0
    /\ addr (hdl w') = None
    /\ type (hdl w') = type (hdl world_attached)
    /\ snd_fd (hdl w') = -1
    /\ mutex_held w' = false.
Proof.
  apply (set_device_malformed_releases_address str2ba_example _ 1 true
           "not an address"%string BA_SCO world_attached addr_a);
    reflexivity.
Defined.


(** What the loop of the refresh guarantees of the transport it stops on:
    its type and its direction are the wanted ones; the address that was
    compared with the bound one is that of the first transport of the
    list. *)
Lemma find_transport_match :
  forall a t transports n idx i,
    find_transport a t transports n idx = (true, i) ->
    exists tr first,
      transports !! i = Some tr
      /\ transports !! 0%nat = Some first
      /\ tr_type tr = type_code t
      /\ stream_is_capture_or_duplex (tr_stream tr) = true
      /\ bacmp a (tr_addr first) = 0.
Proof.
  intros a t transports n.
  induction n as [|n IH]; intros idx i H; simpl in H.
  - discriminate H.
  - destruct (transports !! idx) as [tr|] eqn:Hidx; [|discriminate H].
    destruct (transports !! 0%nat) as [first|] eqn:Hfirst; [|discriminate H].
    destruct (tr_type tr =? type_code t) eqn:Hty; simpl in H; [|eauto].
    destruct (stream_is_capture_or_duplex (tr_stream tr)) eqn:Hst;
      simpl in H; [|eauto].
    destruct (bacmp a (tr_addr first) =? 0) eqn:Hcmp; [|eauto].
    inversion H; subst.
    exists tr, first. apply Z.eqb_eq in Hty, Hcmp. auto.
Qed.

(** The loop of the refresh stops on an index of the list. *)
Lemma find_transport_in_range :
  forall a t transports n idx i,
    find_transport a t transports n idx = (true, i) ->
    is_Some (transports !! i).
Proof.
  intros a t transports n idx i H.
  destruct (find_transport_match _ _ _ _ _ _ H) as (tr & _ & Htr & _).
  eauto.
Qed.

(** C3 as stated fails: [readi], on a hang-up of the FIFO, sets [snd_fd]
    to -1 without holding the mutex and without any write to
    [client_event_fd] (descriptor 5). *)
Lemma readi_detach_unlocked_unnotified :
  exists w' evs,
    bluezalsa_readi 4
      [ {| poll_res := 1; revents0 := POLLHUP; revents1 := 0;
           event_reads := []; snd_read := SysData 0 |};
        {| poll_res := -1; revents0 := 0; revents1 := 0;
           event_reads := []; snd_read := SysData 0 |} ]
      world_attached = Some (0, w', evs)
    /\ snd_fd (hdl world_attached) = 7
    /\ snd_fd (hdl w') = -1
    /\ changes_under_mutex (mutex_held world_attached) evs = false
    /\ changes_notified (client_event_fd (hdl world_attached)) evs = false.
Proof.
  eexists; eexists.
  split; [reflexivity|].
  repeat split; reflexivity.
Qed.

(** The refresh, entered with the mutex free, always returns; it changes
    [snd_fd] only while it holds the mutex, notifies an attach once and a
    detach not at all, and writes nothing to [client_event_fd] before it
    has changed [snd_fd]. *)
Lemma refresh_events :
  forall d u w,
    mutex_held w = false ->
    exists r w' evs,
      update_device_attach_state d u w = Some (r, w', evs)
      /\ changes_under_mutex false evs = true
      /\ attaches_notified (client_event_fd (hdl w)) evs = true
      /\ notifications (client_event_fd (hdl w)) evs = O.
Proof.
  intros d u w Hm.
  run_monitor. rewrite Hm. simpl.
  destruct (addr (hdl w)) as [a|] eqn:Ha; simpl.
  2:{ do 3 eexists. split; [reflexivity|]. repeat split; reflexivity. }
  destruct (ba_fd (hdl w) =? -1) eqn:Hba; simpl.
  { do 3 eexists. split; [reflexivity|]. repeat split; reflexivity. }
  destruct (get_transports_reply d) as [transports|]; simpl.
  2:{ do 3 eexists. split; [reflexivity|]. repeat split; reflexivity. }
  destruct (find_transport a (type (hdl w)) transports (length transports) 0)
    as [matched idx] eqn:Hfind.
  destruct matched; simpl.
  - destruct (snd_fd (hdl w) =? -1) eqn:Hsnd; simpl.
    2:{ do 3 eexists. split; [reflexivity|]. repeat split; reflexivity. }
    apply Z.eqb_eq in Hsnd.
    destruct (find_transport_in_range _ _ _ _ _ _ Hfind) as [tr Htr].
    rewrite Htr. simpl.
    destruct (open_transport_reply d =? -1) eqn:Hopen; simpl.
    + apply Z.eqb_eq in Hopen.
      do 3 eexists. split; [reflexivity|].
      simpl. rewrite Hsnd, Hopen. simpl. repeat split; reflexivity.
    + assert (Hne : (-1 =? open_transport_reply d) = false)
        by (rewrite Z.eqb_sym; exact Hopen).
      do 3 eexists. split; [reflexivity|].
      simpl. rewrite Hsnd, Hopen, Hne, Z.eqb_refl. repeat split; reflexivity.
  - rewrite Ha. simpl.
    destruct (snd_fd (hdl w) =? -1) eqn:Hsnd; simpl.
    + do 3 eexists. split; [reflexivity|]. repeat split; reflexivity.
    + do 3 eexists. split; [reflexivity|].
      simpl. rewrite Hsnd. simpl. repeat split; reflexivity.
Qed.

(** [set_device], entered with the mutex free, always returns; it changes
    [snd_fd] only while the mutex is held, by itself or by the refresh it
    ends with. *)
Lemma set_device_events :
  forall (str2ba : string -> option bdaddr_t) d u malloc_ok address t w,
    mutex_held w = false ->
    exists r w' evs,
      bluezalsa_set_device str2ba d u malloc_ok address t w
      = Some (r, w', evs)
      /\ changes_under_mutex false evs = true
      /\ attaches_notified (client_event_fd (hdl w)) evs = true.
Proof.
  intros str2ba d u malloc_ok address t w Hm.
  unfold bluezalsa_set_device.
  destruct (supported_type t); simpl.
  2:{ do 3 eexists. split; [reflexivity|]. split; reflexivity. }
  unfold device_detach, set_snd_fd, bluealsa_close_transport, close, write,
    pthread_mutex_lock, pthread_mutex_unlock, modify_handle, get_handle,
    emit, blocked, bind, ret.
  simpl. rewrite Hm. simpl.
  destruct (addr (hdl w)) as [a0|]; simpl;
    (destruct address as [s|]; simpl;
     [ destruct malloc_ok; simpl;
       [ destruct (str2ba s) as [a|]; simpl | ] | ]);
    try (do 3 eexists; split; [reflexivity|]; simpl;
         destruct (snd_fd (hdl w) =? -1); split; reflexivity).
  - match goal with
    | |- context [update_device_attach_state d u ?w1] =>
      destruct (refresh_events d u w1 eq_refl)
        as (r & w2 & evs2 & Heq & Hcum & Han & Hno)
    end.
    rewrite Heq. simpl in *.
    do 3 eexists. split; [reflexivity|].
    simpl. rewrite app_nil_r, Hcum, Han, Hno.
    destruct (snd_fd (hdl w) =? -1); split; reflexivity.
  - match goal with
    | |- context [update_device_attach_state d u ?w1] =>
      destruct (refresh_events d u w1 eq_refl)
        as (r & w2 & evs2 & Heq & Hcum & Han & Hno)
    end.
    rewrite Heq. simpl in *.
    do 3 eexists. split; [reflexivity|].
    simpl. rewrite app_nil_r, Hcum, Han. split; reflexivity.
Qed.

(** C3, amended. The refresh and [set_device], entered with the mutex
    free, always return, and every change of [snd_fd] they make happens
    while the mutex is held; every change to an open FIFO (an attach) is
    followed by exactly one write to [client_event_fd], and a change to -1
    (a detach) by none. *)
Theorem attach_under_mutex_notified_once :
  (forall d u w,
     mutex_held w = false ->
     exists r w' evs,
       update_device_attach_state d u w = Some (r, w', evs)
       /\ changes_under_mutex false evs = true
       /\ attaches_notified (client_event_fd (hdl w)) evs = true)
  /\ (forall (str2ba : string -> option bdaddr_t) d u malloc_ok address t w,
        mutex_held w = false ->
        exists r w' evs,
          bluezalsa_set_device str2ba d u malloc_ok address t w
          = Some (r, w', evs)
          /\ changes_under_mutex false evs = true
          /\ attaches_notified (client_event_fd (hdl w)) evs = true).
Proof.
  split.
  - intros d u w Hm.
    destruct (refresh_events d u w Hm) as (r & w' & evs & H1 & H2 & H3 & _).
    exists r, w', evs. auto.
  - exact set_device_events.
Qed.

(** The amended C3 on a refresh that attaches the bound handle of the
    examples, and on a [set_device] that rebinds the attached one. *)
Lemma attach_under_mutex_notified_once_witness :
  (exists r w' evs,
     update_device_attach_state
       {| get_transports_reply := Some [tr_a2dp_a];
          open_transport_reply := 7 |} 1 world_bound = Some (r, w', evs)
     /\ changes_under_mutex false evs = true
     /\ attaches_notified (client_event_fd (hdl world_bound)) evs = true)
  /\ (exists r w' evs,
        bluezalsa_set_device str2ba_example
          {| get_transports_reply := Some [tr_a2dp_a];
             open_transport_reply := 8 |} 1 true
          (Some "AA:BB:CC:DD:EE:FF"%string) BA_A2DP world_attached
        = Some (r, w', evs)
        /\ changes_under_mutex false evs = true
        /\ attaches_notified (client_event_fd (hdl world_attached)) evs
           = true).
Proof.
  split.
  - apply (proj1 attach_under_mutex_notified_once). reflexivity.
  - apply (proj2 attach_under_mutex_notified_once). reflexivity.
Defined.

(** C6. [bluezalsa_readi] does not read [frames * 2 * channels] bytes:
    the count is declared in frames ([snd_pcm_uframes_t]) and the value
    returned in frames too ([snd_pcm_sframes_t]), but the read asks for
    [size * sizeof(int16_t)] bytes whatever the channels of the
    transport, and the number of bytes read is what is returned.  On the
    handle of the examples, attached to a stereo transport, a count of 4
    frames with [snd_fd] readable sends one read of 8 bytes, where 4
    frames of two 16-bit samples are 16 bytes, and the call returns 8,
    twice the count of frames it was asked for. *)
Lemma readi_ignores_channels :
  exists w' evs,
    bluezalsa_readi 4
      [ {| poll_res := 1; revents0 := POLLIN; revents1 := 0;
           event_reads := []; snd_read := SysData 100 |} ]
      world_attached = Some (8, w', evs)
    /\ evs = [EvPoll 7 5; EvRead 7 8]
    /\ tr_channels (transport (hdl world_attached)) = 2
    /\ spec_read_bytes 4 (tr_channels (transport (hdl world_attached))) = 16
    /\ 4 < 8.
Proof.
  eexists; eexists.
  split; [reflexivity|].
  repeat split; reflexivity.
Qed.

End MonitorFacts.

(** ** Properties of the PCM streaming core *)

Module PcmFacts.
Import Pcm.

#[local] Arguments ulong : simpl never.
#[local] Arguments advance : simpl never.
#[local] Arguments period_frames : simpl never.
#[local] Arguments SENTINEL : simpl never.
#[local] Arguments slong : simpl never.
#[local] Arguments uint : simpl never.

Ltac run_pcm :=
  unfold io_thread_period, io_thread_transfer, io_thread_final,
    close_transport, eventfd_write, eventfd_read, sigwait,
    pthread_kill_sigio, modify_pcm, get_pcm, set_counter, get_counter,
    emit, blocked, bind, ret;
  simpl.

Ltac run_pcm_in H :=
  unfold io_thread_period, io_thread_transfer, io_thread_final,
    close_transport, eventfd_write, eventfd_read, sigwait,
    pthread_kill_sigio, modify_pcm, get_pcm, set_counter, get_counter,
    emit, blocked, bind, ret in H;
  simpl in H.

Lemma ulong_range x : 0 <= ulong x < 2 ^ 64.
Proof. unfold ulong. apply Z.mod_pos_bound. lia. Qed.

Lemma ulong_small x : 0 <= x < 2 ^ 64 -> ulong x = x.
Proof. intros H. unfold ulong. apply Z.mod_small. exact H. Qed.


Lemma bytes_moved_app a b :
  bytes_moved (a ++ b) = bytes_moved a + bytes_moved b.
Proof.
  induction a as [|e a IH]; simpl; [reflexivity|].
  destruct e; simpl; rewrite IH; lia.
Qed.

Lemma eventfd_writes_app v a b :
  eventfd_writes v (a ++ b) = (eventfd_writes v a + eventfd_writes v b)%nat.
Proof.
  induction a as [|e a IH]; simpl; [reflexivity|].
  destruct e; simpl; try exact IH.
  destruct (v0 =? v); simpl; rewrite IH; reflexivity.
Qed.

(** The read loop of a capture period leaves the stream alone, writes
    nothing to the event descriptor, and ends with a nonzero [ret] only
    when all the bytes asked for have been read. *)
Lemma capture_read_spec :
  forall results pfd len r w x w' evs,
    0 <= len < 2 ^ 64 ->
    capture_read pfd len r results w = Some (x, w', evs) ->
    w' = w
    /\ (forall v, eventfd_writes v evs = O)
    /\ (forall ret, x = Some ret -> ret <> 0 -> bytes_moved evs = len).
Proof.
  induction results as [|res rest IH]; intros pfd len r w x w' evs Hlen H;
    simpl in H; destruct (len =? 0) eqn:Hz.
  - apply Z.eqb_eq in Hz. inversion H; subst. simpl. auto.
  - discriminate H.
  - apply Z.eqb_eq in Hz. inversion H; subst. simpl. auto.
  - apply Z.eqb_neq in Hz.
    unfold bind, emit in H. simpl in H.
    destruct (sys_return res len =? 0) eqn:Hr.
    + inversion H; subst. simpl. repeat split; auto;
        intros ret Hret Hne; inversion Hret; subst; contradiction.
    + apply Z.eqb_neq in Hr.
      destruct res as [e|avail]; simpl in *.
      * destruct (e =? EINTR).
        -- destruct (capture_read pfd len (-1) rest w)
             as [[[x1 w1] t1]|] eqn:Hrec; [|discriminate H].
           inversion H; subst.
           destruct (IH _ _ _ _ _ _ _ Hlen Hrec) as (Hw & Hev & Hb).
           repeat split; auto;
             intros ret Hret Hne; simpl; rewrite (Hb ret Hret Hne); lia.
        -- inversion H; subst. repeat split; auto;
             intros ret Hret; discriminate Hret.
      * assert (Hmin : 0 < Z.min (Z.of_N avail) len <= len) by lia.
        destruct (capture_read pfd (ulong (len - Z.min (Z.of_N avail) len))
                    (Z.min (Z.of_N avail) len) rest w)
          as [[[x1 w1] t1]|] eqn:Hrec; [|discriminate H].
        inversion H; subst.
        assert (Hlen' : 0 <= ulong (len - Z.min (Z.of_N avail) len) < 2 ^ 64)
          by apply ulong_range.
        destruct (IH _ _ _ _ _ _ _ Hlen' Hrec) as (Hw & Hev & Hb).
        repeat split; auto;
          intros ret Hret Hne; simpl; rewrite (Hb ret Hret Hne);
          rewrite ulong_small by lia; lia.
Qed.

(** The write loop of a playback period leaves the stream alone, writes
    nothing to the event descriptor, and ends without a fatal error only
    when all the bytes have been written. *)
Lemma playback_write_spec :
  forall results pfd len w ok w' evs,
    0 <= len < 2 ^ 64 ->
    playback_write pfd len results w = Some (ok, w', evs) ->
    w' = w
    /\ (forall v, eventfd_writes v evs = O)
    /\ (ok = true -> bytes_moved evs = len).
Proof.
  induction results as [|res rest IH]; intros pfd len w ok w' evs Hlen H;
    simpl in H.
  - discriminate H.
  - unfold bind, emit in H. simpl in H.
    destruct res as [e|avail]; simpl in *.
    + destruct (e =? EINTR).
      * destruct (len =? 0) eqn:Hz.
        -- apply Z.eqb_eq in Hz. inversion H; subst. simpl.
           repeat split; auto.
        -- destruct (playback_write pfd len rest w)
             as [[[x1 w1] t1]|] eqn:Hrec; [|discriminate H].
           inversion H; subst.
           destruct (IH _ _ _ _ _ _ Hlen Hrec) as (Hw & Hev & Hb).
           repeat split; auto;
             intros Hok; simpl; rewrite (Hb Hok); lia.
      * inversion H; subst. repeat split; auto;
          intros Hok; discriminate Hok.
    + assert (Hmin : 0 <= Z.min (Z.of_N avail) len <= len) by lia.
      assert (Hsmall : ulong (len - Z.min (Z.of_N avail) len)
                       = len - Z.min (Z.of_N avail) len)
        by (apply ulong_small; lia).
      rewrite Hsmall in H.
      destruct (len - Z.min (Z.of_N avail) len =? 0) eqn:Hz.
      * apply Z.eqb_eq in Hz. inversion H; subst. simpl.
        repeat split; auto; intros _; lia.
      * destruct (playback_write pfd (len - Z.min (Z.of_N avail) len) rest w)
          as [[[x1 w1] t1]|] eqn:Hrec; [|discriminate H].
        inversion H; subst.
        assert (Hlen' : 0 <= len - Z.min (Z.of_N avail) len < 2 ^ 64) by lia.
        destruct (IH _ _ _ _ _ _ Hlen' Hrec) as (Hw & Hev & Hb).
        repeat split; auto;
          intros Hok; simpl; rewrite (Hb Hok); lia.
Qed.


(** [final:] closes the transport and writes the fatal marker, once and as
    its last action. *)
Lemma final_spec :
  forall rv w,
    exists w',
      io_thread_final rv w
      = Some (Exited, w',
              match transport (pcm w) with
              | None => []
              | Some _ => [EvCloseTransport (fd (pcm w));
                           EvClose (pcm_fd (pcm w))]
              end ++ [EvEventfdWrite (event_fd (pcm w)) SENTINEL])
      /\ period_post w Exited w'
           (match transport (pcm w) with
            | None => []
            | Some _ => [EvCloseTransport (fd (pcm w));
                         EvClose (pcm_fd (pcm w))]
            end ++ [EvEventfdWrite (event_fd (pcm w)) SENTINEL])
      /\ sigio_pending w' = sigio_pending w.
Proof.
  intros rv w. run_pcm. unfold period_post.
  destruct (transport (pcm w)) eqn:Ht; simpl; rewrite ?Ht.
  - eexists; (split; [reflexivity|]); simpl; repeat split; eauto.
    exists [EvCloseTransport (fd (pcm w)); EvClose (pcm_fd (pcm w))].
    split; reflexivity.
  - eexists; (split; [reflexivity|]); simpl; repeat split; eauto.
    exists []. split; reflexivity.
Qed.

Lemma transfer_spec :
  forall results rv w out w' evs,
    io_thread_transfer results rv w = Some (out, w', evs) ->
    period_post w out w' evs /\ sigio_pending w' = sigio_pending w.
Proof.
  intros results rv w out w' evs H.
  unfold io_thread_transfer in H.
  unfold bind at 1 in H. unfold get_pcm at 1 in H. simpl in H.
  pose proof (ulong_range (period_frames (pcm w) * frame_size (pcm w)))
    as Hlen.
  destruct (stream (io (pcm w))) eqn:Hs.
  - (* playback *)
    destruct (advance (io_hw_ptr (pcm w)) (period_frames (pcm w))
                (io_hw_boundary (pcm w)) >? appl_ptr (io (pcm w))) eqn:Hx.
    + apply Z.gtb_lt in Hx.
      run_pcm_in H. inversion H; subst.
      unfold period_post. simpl. rewrite Hs. repeat split; auto. lia.
    + unfold bind at 1 in H.
      destruct (playback_write _ _ _ _) as [[[ok w1] t1]|] eqn:Hw;
        [|discriminate H].
      destruct (playback_write_spec _ _ _ _ _ _ _ Hlen Hw) as (-> & Hev & Hb).
      assert (Hle : advance (io_hw_ptr (pcm w)) (period_frames (pcm w))
                      (io_hw_boundary (pcm w)) <= appl_ptr (io (pcm w))).
      { destruct (Z.gtb_spec (advance (io_hw_ptr (pcm w))
                   (period_frames (pcm w)) (io_hw_boundary (pcm w)))
                   (appl_ptr (io (pcm w)))); [discriminate Hx | lia]. }
      destruct ok.
      * run_pcm_in H. inversion H; subst.
        unfold period_post. simpl. repeat split; auto.
        -- rewrite bytes_moved_app, (Hb eq_refl). simpl. lia.
        -- rewrite eventfd_writes_app, Hev. reflexivity.
      * destruct (final_spec rv w) as (w2 & Hf & Hp & Hsig).
        rewrite Hf in H. inversion H; subst.
        split; [|exact Hsig].
        unfold period_post in *. simpl in *.
        destruct Hp as (Hc & Hpcm & Hcnt & pre & Hpre & Hz).
        repeat split; auto.
        exists (t1 ++ pre). split.
        -- rewrite Hpre, app_assoc. reflexivity.
        -- rewrite eventfd_writes_app, Hev, Hz. reflexivity.
  - (* capture *)
    unfold bind at 1 in H.
    destruct (capture_read _ _ _ _ _) as [[[x w1] t1]|] eqn:Hr;
      [|discriminate H].
    destruct (capture_read_spec _ _ _ _ _ _ _ _ Hlen Hr) as (-> & Hev & Hb).
    destruct x as [r|].
    + destruct (r =? 0) eqn:Hz.
      * run_pcm_in H. inversion H; subst.
        unfold period_post. rewrite Hs, app_nil_r. repeat split; auto.
      * apply Z.eqb_neq in Hz.
        run_pcm_in H. inversion H; subst.
        unfold period_post. simpl. repeat split; auto.
        -- rewrite bytes_moved_app, (Hb r eq_refl Hz). simpl. lia.
        -- rewrite eventfd_writes_app, Hev. reflexivity.
        -- rewrite Hs. discriminate.
    + destruct (final_spec rv w) as (w2 & Hf & Hp & Hsig).
      rewrite Hf in H. inversion H; subst.
      split; [|exact Hsig].
      unfold period_post in *. simpl in *.
      destruct Hp as (Hc & Hpcm & Hcnt & pre & Hpre & Hz).
      repeat split; auto.
      exists (t1 ++ pre). split.
      -- rewrite Hpre, app_assoc. reflexivity.
      -- rewrite eventfd_writes_app, Hev, Hz. reflexivity.
Qed.


Lemma period_spec :
  forall results rv w out w' evs,
    io_thread_period results rv w = Some (out, w', evs) ->
    period_post w out w' evs /\ (out <> Exited -> period_runs w = true).
Proof.
  intros results rv w out w' evs H.
  unfold io_thread_period in H.
  unfold bind at 1 in H. unfold get_pcm at 1 in H. simpl in H.
  unfold period_runs.
  destruct (state (io (pcm w))) eqn:Hst;
    try (destruct (io_thread_transfer results rv w)
           as [[[o w1] t1]|] eqn:Ht; [|discriminate H];
         inversion H; subst; apply transfer_spec in Ht;
         destruct Ht as [Hp _]; split; [exact Hp | intros _; reflexivity]);
    try (unfold bind at 1 in H; unfold sigwait in H;
         destruct (sigio_pending w) eqn:Hsig; [|discriminate H];
         destruct (io_thread_transfer results rv _)
           as [[[o w1] t1]|] eqn:Ht; [|discriminate H];
         inversion H; subst; apply transfer_spec in Ht;
         destruct Ht as [Hp _]; split; [exact Hp | intros _; reflexivity]).
  destruct (final_spec rv w) as (w2 & Hf & Hp & _).
  rewrite Hf in H. inversion H; subst.
  split; [exact Hp | intros Hne; contradiction].
Qed.



Ltac crush_calls :=
  repeat (simpl in *; subst;
          match goal with
          | H : None = Some _ |- _ => discriminate H
          | H : Some _ = None |- _ => discriminate H
          | H : Some _ = Some _ |- _ => inversion H; clear H
          | H : context [match ?x with _ => _ end] |- _ => destruct x eqn:?
          end);
  simpl in *; subst; auto.

Ltac run_callback_in H :=
  unfold bluealsa_proxy_start, bluealsa_proxy_stop, bluealsa_proxy_pointer,
    bluealsa_proxy_close, bluealsa_proxy_hw_params, bluealsa_proxy_dump,
    bluealsa_proxy_poll_descriptors_count, bluealsa_proxy_poll_descriptors,
    bluealsa_proxy_hw_free, bluealsa_proxy_sw_params,
    bluealsa_proxy_prepare, bluealsa_proxy_drain, bluealsa_proxy_pause,
    bluealsa_proxy_delay, delay_refresh_due, bluealsa_proxy_poll_revents,
    forget in H;
  run_pcm_in H.










(** Inside the buffer the pointer advances by the frames of the period
    and wraps to zero at the end of the buffer. *)
Lemma advance_io_ptr :
  forall p,
    0 <= io_ptr p < buffer_size (io p) ->
    buffer_size (io p) < 2 ^ 64 ->
    0 <= period_size (io p) ->
    period_frames p = Z.min (period_size (io p)) (buffer_size (io p) - io_ptr p)
    /\ advance (io_ptr p) (period_frames p) (buffer_size (io p))
       = (io_ptr p + period_frames p) mod buffer_size (io p).
Proof.
  intros p Hptr Hb Hper.
  assert (Hf : period_frames p
               = Z.min (period_size (io p)) (buffer_size (io p) - io_ptr p)).
  { unfold period_frames. rewrite ulong_small by lia.
    destruct (Z.ltb_spec (buffer_size (io p) - io_ptr p) (period_size (io p)));
      lia. }
  split; [exact Hf|].
  unfold advance. rewrite Hf.
  set (f := Z.min (period_size (io p)) (buffer_size (io p) - io_ptr p)).
  assert (Hfr : 0 <= f <= buffer_size (io p) - io_ptr p) by (unfold f; lia).
  rewrite (ulong_small (io_ptr p + f)) by lia.
  destruct (Z.geb_spec (io_ptr p + f) (buffer_size (io p))) as [Hge|Hlt].
  - assert (Heq : io_ptr p + f = buffer_size (io p)) by lia.
    rewrite Heq, Z.sub_diag, Z_mod_same_full. reflexivity.
  - rewrite Z.mod_small by lia. reflexivity.
Qed.

(** A pointer that is a whole number of periods from the start of the
    buffer stays so when it advances. *)
Lemma advance_io_ptr_divide :
  forall p,
    0 <= io_ptr p < buffer_size (io p) ->
    buffer_size (io p) < 2 ^ 64 ->
    0 <= period_size (io p) ->
    (period_size (io p) | io_ptr p) ->
    (period_size (io p)
     | advance (io_ptr p) (period_frames p) (buffer_size (io p))).
Proof.
  intros p Hptr Hb Hper Hdiv.
  destruct (advance_io_ptr p Hptr Hb Hper) as [Hf Hadv].
  rewrite Hadv, Hf.
  destruct (Z.le_gt_cases (buffer_size (io p))
              (io_ptr p + period_size (io p))) as [Hge|Hlt].
  - replace (io_ptr p
             + Z.min (period_size (io p)) (buffer_size (io p) - io_ptr p))
      with (buffer_size (io p)) by lia.
    rewrite Z_mod_same_full. apply Z.divide_0_r.
  - replace (Z.min (period_size (io p)) (buffer_size (io p) - io_ptr p))
      with (period_size (io p)) by lia.
    rewrite Z.mod_small by lia.
    apply Z.divide_add_r; [exact Hdiv | apply Z.divide_refl].
Qed.

(** C4 as stated fails: a playback period that finds an under-run moves
    no byte through the FIFO and still publishes new values of [io_ptr]
    and [io_hw_ptr]; [io_ptr] becomes the invalid value -1, which is no
    number of periods. *)
Lemma underrun_publishes_without_transfer :
  exists w' evs,
    io_thread_period [] 0 world_playback = Some (Underrun, w', evs)
    /\ bytes_moved evs = 0
    /\ io_ptr (pcm world_playback) = 0
    /\ io_ptr (pcm w') = 2 ^ 64 - 1
    /\ io_hw_ptr (pcm world_playback) = 0
    /\ io_hw_ptr (pcm w') = 960.
Proof.
  do 2 eexists.
  split; [reflexivity|].
  repeat split; reflexivity.
Qed.

(** C4, amended. In a turn of the period loop that declares no under-run,
    the published pointers change only after all the bytes of the period,
    [frames * frame_size], have been moved: [io_ptr] and [io_hw_ptr] then
    advance by [frames], the period size or the leftover of the buffer,
    wrapping at [buffer_size] and [hw_boundary], so that [io_ptr] stays a
    whole number of periods from the start of the buffer.  When a capture read
    returns 0 or a fatal I/O error ends the thread, both pointers are left
    as they were.  A playback under-run moves no byte and publishes the
    advanced [io_hw_ptr] and the invalid [io_ptr] -1. *)
Theorem period_publishes_after_whole_transfer :
  forall results rv w out w' evs,
    io_thread_period results rv w = Some (out, w', evs) ->
    let p := pcm w in
    match out with
    | Published =>
      bytes_moved evs = ulong (period_frames p * frame_size p)
      /\ io_ptr (pcm w')
         = advance (io_ptr p) (period_frames p) (buffer_size (io p))
      /\ io_hw_ptr (pcm w')
         = advance (io_hw_ptr p) (period_frames p) (io_hw_boundary p)
      /\ (0 <= io_ptr p < buffer_size (io p) ->
          buffer_size (io p) < 2 ^ 64 ->
          0 <= period_size (io p) ->
          period_frames p
          = Z.min (period_size (io p)) (buffer_size (io p) - io_ptr p)
          /\ io_ptr (pcm w')
             = (io_ptr p + period_frames p) mod buffer_size (io p)
          /\ ((period_size (io p) | io_ptr p) ->
              (period_size (io p) | io_ptr (pcm w'))))
    | WaitPcmFd | Exited =>
      io_ptr (pcm w') = io_ptr p /\ io_hw_ptr (pcm w') = io_hw_ptr p
    | Underrun =>
      bytes_moved evs = 0
      /\ io_ptr (pcm w') = ulong (-1)
      /\ io_hw_ptr (pcm w')
         = advance (io_hw_ptr p) (period_frames p) (io_hw_boundary p)
    end.
Proof.
  intros results rv w out w' evs H p.
  apply period_spec in H. destruct H as [(_ & Hp) _].
  destruct out; simpl in Hp.
  - destruct Hp as (Hpcm & _ & Hb & _). rewrite Hpcm. simpl.
    split; [exact Hb|]. split; [reflexivity|]. split; [reflexivity|].
    intros H1 H2 H3.
    destruct (advance_io_ptr _ H1 H2 H3) as [Hf Hadv].
    split; [exact Hf|]. split; [exact Hadv|].
    exact (advance_io_ptr_divide _ H1 H2 H3).
  - destruct Hp as (_ & _ & Hpcm & _ & Hev). rewrite Hpcm, Hev. simpl.
    repeat split; reflexivity.
  - destruct Hp as (_ & Hpcm & _). rewrite Hpcm. split; reflexivity.
  - destruct Hp as (Hpcm & _). rewrite Hpcm.
    destruct (transport (pcm w)); split; reflexivity.
Qed.

(** The amended C4 on a capture period read in two pieces around an interrupted call. *)
Lemma period_publishes_after_whole_transfer_witness :
  exists w' evs,
    io_thread_period [SysData 1000; SysErr EINTR; SysData 5000] 0
      world_capture = Some (Published, w', evs)
    /\ bytes_moved evs = 3840
    /\ io_ptr (pcm w') = 960
    /\ io_hw_ptr (pcm w') = 960.
Proof.
  do 2 eexists.
  split; [reflexivity|].
  pose proof (period_publishes_after_whole_transfer
                [SysData 1000; SysErr EINTR; SysData 5000] 0 world_capture
                Published _ _ eq_refl) as H.
  simpl in H. destruct H as (Hb & Hi & Hh & _).
  split; [exact Hb|]. split; [exact Hi|exact Hh].
Defined.


(** On a FIFO that fails, the read loop of a capture period ends with
    the fatal error; it leaves the stream alone and does nothing but
    read. *)
Lemma capture_read_fails :
  forall len results,
    fifo_fails SND_PCM_STREAM_CAPTURE len results ->
    forall pfd r w,
      exists evs,
        capture_read pfd len r results w = Some (None, w, evs)
        /\ forall v, eventfd_writes v evs = O.
Proof.
  intros len results H.
  induction H as [len e rest Hlen He
                 |len rest Hlen H IH
                 |len n rest Hpart Hleft H IH];
    intros pfd r w; simpl.
  - specialize (Hlen eq_refl).
    apply Z.eqb_neq in Hlen, He. rewrite Hlen.
    unfold bind, emit, ret. simpl. rewrite He.
    eexists. split; [reflexivity|]. reflexivity.
  - apply Z.eqb_neq in Hlen. rewrite Hlen.
    unfold bind, emit. simpl.
    destruct (IH pfd (-1) w) as (evs & -> & Hev).
    eexists. split; [reflexivity|]. intros v. simpl. apply Hev.
  - destruct (Hpart eq_refl) as [Hlen Hr]. simpl in Hr, Hleft, IH.
    apply Z.eqb_neq in Hlen, Hr. rewrite Hlen.
    unfold bind, emit. simpl. rewrite Hr.
    destruct (IH pfd (Z.min (Z.of_N n) len) w) as (evs & -> & Hev).
    eexists. split; [reflexivity|]. intros v. simpl. apply Hev.
Qed.

(** On a FIFO that fails, the write loop of a playback period ends with
    the fatal error; it leaves the stream alone and does nothing but
    write. *)
Lemma playback_write_fails :
  forall len results,
    fifo_fails SND_PCM_STREAM_PLAYBACK len results ->
    forall pfd w,
      exists evs,
        playback_write pfd len results w = Some (false, w, evs)
        /\ forall v, eventfd_writes v evs = O.
Proof.
  intros len results H.
  induction H as [len e rest Hlen He
                 |len rest Hlen H IH
                 |len n rest Hpart Hleft H IH];
    intros pfd w; simpl.
  - apply Z.eqb_neq in He.
    unfold bind, emit, ret. simpl. rewrite He.
    eexists. split; [reflexivity|]. reflexivity.
  - apply Z.eqb_neq in Hlen.
    unfold bind, emit. simpl. rewrite Hlen.
    destruct (IH pfd w) as (evs & -> & Hev).
    eexists. split; [reflexivity|]. intros v. simpl. apply Hev.
  - simpl in Hleft, IH. apply Z.eqb_neq in Hleft.
    unfold bind, emit. simpl. rewrite Hleft.
    destruct (IH pfd w) as (evs & -> & Hev).
    eexists. split; [reflexivity|]. intros v. simpl. apply Hev.
Qed.

(** [final:] with the events of [close_transport]. *)
Lemma final_run :
  forall rv w,
    exists w',
      io_thread_final rv w
      = Some (Exited, w',
              close_transport_events (pcm w)
              ++ [EvEventfdWrite (event_fd (pcm w)) SENTINEL])
      /\ (transport (pcm w) <> None -> pcm_fd (pcm w') = -1).
Proof.
  intros rv w. unfold close_transport_events. run_pcm.
  destruct (transport (pcm w)) eqn:Ht; simpl;
    eexists; (split; [reflexivity|]); simpl; auto.
  intros H. contradiction.
Qed.

(** A transfer on a FIFO that fails goes to [final:]. *)
Lemma transfer_fifo_fails :
  forall results rv w,
    (stream (io (pcm w)) = SND_PCM_STREAM_PLAYBACK ->
     advance (io_hw_ptr (pcm w)) (period_frames (pcm w))
       (io_hw_boundary (pcm w)) <= appl_ptr (io (pcm w))) ->
    fifo_fails (stream (io (pcm w)))
      (ulong (period_frames (pcm w) * frame_size (pcm w))) results ->
    exists w' pre,
      io_thread_transfer results rv w
      = Some (Exited, w',
              pre ++ close_transport_events (pcm w)
              ++ [EvEventfdWrite (event_fd (pcm w)) SENTINEL])
      /\ (forall v, eventfd_writes v pre = O)
      /\ (transport (pcm w) <> None -> pcm_fd (pcm w') = -1).
Proof.
  intros results rv w Hle Hfail.
  destruct (final_run rv w) as (w' & Hf & Hfd).
  unfold io_thread_transfer.
  unfold bind at 1. unfold get_pcm at 1. simpl.
  destruct (stream (io (pcm w))) eqn:Hs.
  - specialize (Hle eq_refl).
    assert (Hx : (advance (io_hw_ptr (pcm w)) (period_frames (pcm w))
                    (io_hw_boundary (pcm w)) >? appl_ptr (io (pcm w)))
                 = false).
    { destruct (Z.gtb_spec (advance (io_hw_ptr (pcm w))
                 (period_frames (pcm w)) (io_hw_boundary (pcm w)))
                 (appl_ptr (io (pcm w)))); [lia|reflexivity]. }
    rewrite Hx.
    destruct (playback_write_fails _ _ Hfail (pcm_fd (pcm w)) w)
      as (pre & Hw & Hev).
    unfold bind at 1. rewrite Hw, Hf.
    exists w', pre. split; [reflexivity|]. split; [exact Hev|exact Hfd].
  - destruct (capture_read_fails _ _ Hfail (pcm_fd (pcm w)) 0 w)
      as (pre & Hr & Hev).
    unfold bind at 1. rewrite Hr, Hf.
    exists w', pre. split; [reflexivity|]. split; [exact Hev|exact Hfd].
Qed.

(** A turn of the period loop on a FIFO that fails ends the thread. *)
Lemma period_fifo_fails :
  forall results rv w,
    period_runs w = true ->
    (stream (io (pcm w)) = SND_PCM_STREAM_PLAYBACK ->
     advance (io_hw_ptr (pcm w)) (period_frames (pcm w))
       (io_hw_boundary (pcm w)) <= appl_ptr (io (pcm w))) ->
    fifo_fails (stream (io (pcm w)))
      (ulong (period_frames (pcm w) * frame_size (pcm w))) results ->
    exists w' pre,
      io_thread_period results rv w
      = Some (Exited, w',
              pre ++ close_transport_events (pcm w)
              ++ [EvEventfdWrite (event_fd (pcm w)) SENTINEL])
      /\ (forall v, eventfd_writes v pre = O)
      /\ (transport (pcm w) <> None -> pcm_fd (pcm w') = -1).
Proof.
  intros results rv w Hruns Hle Hfail.
  unfold io_thread_period.
  unfold bind at 1. unfold get_pcm at 1. simpl.
  unfold period_runs in Hruns.
  destruct (state (io (pcm w))) eqn:Hst; try discriminate Hruns;
    first
      [ destruct (transfer_fifo_fails results rv w Hle Hfail)
          as (w' & pre & Ht & Hev & Hfd);
        rewrite Ht
      | unfold bind at 1; unfold sigwait; rewrite Hruns;
        destruct (transfer_fifo_fails results rv
                    {| pcm := pcm w; event_counter := event_counter w;
                       sigio_pending := false; counter := counter w |}
                    Hle Hfail) as (w' & pre & Ht & Hev & Hfd);
        simpl in Ht; rewrite Ht ];
    exists w', pre; (split; [reflexivity|]); (split; [exact Hev|exact Hfd]).
Qed.

(** C5 as stated fails: once the IO thread has closed the transport on a
    fatal write error, [pcm_fd] is -1 and [poll_revents] returns -ENODEV
    without reading the event and without touching [*revents], which
    keeps the value 0 it had: POLLERR|POLLHUP is not reported, and the
    fatal marker stays in the counter. *)
Lemma poll_revents_after_close_keeps_revents :
  exists w1 evs1 w2 evs2,
    io_thread_period [SysErr 32] 0 world_playback_fed
    = Some (Exited, w1, evs1)
    /\ pcm_fd (pcm w1) = -1
    /\ bluealsa_proxy_poll_revents 1 POLLIN 0 960 w1
       = Some ((- ENODEV, 0), w2, evs2)
    /\ 0 <> Z.lor POLLERR POLLHUP
    /\ evs2 = []
    /\ event_counter w2 = SENTINEL.
Proof.
  do 4 eexists.
  split; [reflexivity|].
  split; [reflexivity|].
  split; [reflexivity|].
  split; [discriminate|].
  split; reflexivity.
Qed.

(** C5, amended. On fatal stream loss, that is when in a turn of the
    period loop that gets to the transfer a read or a write on the FIFO
    ends with an error other than EINTR before the bytes of the period
    are moved, and likewise on a turn entered in the state Disconnected,
    the IO thread leaves the loop for good: it closes the transport
    (which sets [pcm_fd] to -1 when there is one) and writes the fatal
    marker 0xDEAD0000 to the event descriptor exactly once, as its last
    action, without publishing the period.  Every turn that ends the
    thread does so, and a turn that does not end the thread never writes
    the marker.  A call of [poll_revents] that consumes an event with any
    bit of the marker set stores POLLERR|POLLHUP in [*revents] and
    returns -ENODEV.  A call made while [pcm_fd] is -1 returns -ENODEV
    too, but consumes no event and leaves [*revents] as it was. *)
Theorem fatal_marker_and_poll_revents :
  (forall results rv w,
     period_runs w = true ->
     (stream (io (pcm w)) = SND_PCM_STREAM_PLAYBACK ->
      advance (io_hw_ptr (pcm w)) (period_frames (pcm w))
        (io_hw_boundary (pcm w)) <= appl_ptr (io (pcm w))) ->
     fifo_fails (stream (io (pcm w)))
       (ulong (period_frames (pcm w) * frame_size (pcm w))) results ->
     exists w' pre,
       io_thread_period results rv w
       = Some (Exited, w',
               pre ++ close_transport_events (pcm w)
               ++ [EvEventfdWrite (event_fd (pcm w)) SENTINEL])
       /\ (forall v, eventfd_writes v pre = O)
       /\ (transport (pcm w) <> None -> pcm_fd (pcm w') = -1))
  /\ (forall results rv w,
        state (io (pcm w)) = SND_PCM_STATE_DISCONNECTED ->
        exists w',
          io_thread_period results rv w
          = Some (Exited, w',
                  close_transport_events (pcm w)
                  ++ [EvEventfdWrite (event_fd (pcm w)) SENTINEL])
          /\ (transport (pcm w) <> None -> pcm_fd (pcm w') = -1))
  /\ (forall rv w,
        exists w' evs,
          io_thread_final rv w = Some (Exited, w', evs)
          /\ eventfd_writes SENTINEL evs = 1%nat
          /\ last evs = Some (EvEventfdWrite (event_fd (pcm w)) SENTINEL))
  /\ (forall results rv w out w' evs,
     io_thread_period results rv w = Some (out, w', evs) ->
     match out with
     | Exited =>
       (exists pre,
          evs = pre ++ [EvEventfdWrite (event_fd (pcm w)) SENTINEL]
          /\ eventfd_writes SENTINEL pre = O)
       /\ eventfd_writes SENTINEL evs = 1%nat
       /\ (transport (pcm w) <> None -> pcm_fd (pcm w') = -1)
     | _ => eventfd_writes SENTINEL evs = O
     end)
  /\ (forall pfd_revents revents avail w,
        pcm_fd (pcm w) <> -1 ->
        Z.land pfd_revents POLLIN <> 0 ->
        Z.land (event_counter w) SENTINEL <> 0 ->
        exists w',
          bluealsa_proxy_poll_revents 1 pfd_revents revents avail w
          = Some ((- ENODEV, Z.lor POLLERR POLLHUP), w',
                  [EvEventfdRead (event_fd (pcm w)) (event_counter w)])
          /\ event_counter w' = 0)
  /\ (forall pfd_revents revents avail w,
        pcm_fd (pcm w) = -1 ->
        bluealsa_proxy_poll_revents 1 pfd_revents revents avail w
        = Some ((- ENODEV, revents), w, [])).
Proof.
  split; [exact period_fifo_fails|].
  split; [|split; [|split; [|split]]].
  - intros results rv w Hst.
    destruct (final_run rv w) as (w' & Hf & Hfd).
    exists w'. split; [|exact Hfd].
    unfold io_thread_period.
    unfold bind at 1. unfold get_pcm at 1. simpl.
    rewrite Hst, Hf. reflexivity.
  - intros rv w.
    destruct (final_spec rv w) as (w' & Hf & _).
    exists w'. eexists. split; [exact Hf|].
    destruct (transport (pcm w)); split; reflexivity.
  - intros results rv w out w' evs H.
    apply period_spec in H. destruct H as [(_ & Hp) _].
    destruct out; simpl in Hp.
    + destruct Hp as (_ & _ & _ & Hz & _). exact Hz.
    + destruct Hp as (_ & _ & _ & _ & ->). reflexivity.
    + destruct Hp as (_ & _ & _ & Hz). exact Hz.
    + destruct Hp as (Hpcm & _ & pre & Hpre & Hz).
      split; [exists pre; auto|]. split.
      * rewrite Hpre, eventfd_writes_app, Hz. reflexivity.
      * intros Ht. rewrite Hpcm.
        destruct (transport (pcm w)); [reflexivity|contradiction].
  - intros pfd_revents revents avail w Hfd Hin Hbits.
    apply Z.eqb_neq in Hfd, Hin, Hbits.
    assert (Hc : (event_counter w =? 0) = false).
    { apply Z.eqb_neq. intros Hc. rewrite Hc in Hbits. discriminate Hbits. }
    unfold bluealsa_proxy_poll_revents. run_pcm.
    rewrite Hfd, Hin. simpl. rewrite Hc. simpl. rewrite Hbits. simpl.
    eexists. split; reflexivity.
  - intros pfd_revents revents avail w Hfd.
    unfold bluealsa_proxy_poll_revents. run_pcm.
    rewrite Hfd. reflexivity.
Qed.

(** The amended C5 on the fed playback stream of the examples, where the
    first write moves 1000 bytes, the second is interrupted and the third
    fails with EPIPE; on an event that carries the marker and two units;
    and on a detached stream. *)
Lemma fatal_marker_and_poll_revents_witness :
  (exists w' pre,
     io_thread_period [SysData 1000; SysErr EINTR; SysErr 32] 0
       world_playback_fed
     = Some (Exited, w',
             pre ++ [EvCloseTransport 3; EvClose 6]
             ++ [EvEventfdWrite 4 SENTINEL])
     /\ (forall v, eventfd_writes v pre = O)
     /\ pcm_fd (pcm w') = -1)
  /\ (exists w',
        bluealsa_proxy_poll_revents 1 POLLIN 0 960
          {| pcm := pcm_playback; event_counter := SENTINEL + 2;
             sigio_pending := false; counter := 0 |}
        = Some ((- ENODEV, Z.lor POLLERR POLLHUP), w',
                [EvEventfdRead 4 (SENTINEL + 2)])
        /\ event_counter w' = 0)
  /\ bluealsa_proxy_poll_revents 1 POLLIN 0 960
       {| pcm := set_pcm_fd (-1) pcm_playback; event_counter := SENTINEL;
          sigio_pending := false; counter := 0 |}
     = Some ((- ENODEV, 0),
             {| pcm := set_pcm_fd (-1) pcm_playback;
                event_counter := SENTINEL;
                sigio_pending := false; counter := 0 |}, []).
Proof.
  split; [|split].
  - destruct (proj1 fatal_marker_and_poll_revents
                [SysData 1000; SysErr EINTR; SysErr 32] 0 world_playback_fed)
      as (w' & pre & Heq & Hev & Hfd).
    + reflexivity.
    + intros _. vm_compute. discriminate.
    + apply fails_after_part;
        [intros H; discriminate H|vm_compute; discriminate|].
      apply fails_after_eintr; [vm_compute; discriminate|].
      apply fails_now; [intros H; discriminate H|discriminate].
    + exists w', pre. split; [exact Heq|]. split; [exact Hev|].
      apply Hfd. discriminate.
  - apply (proj1 (proj2 (proj2 (proj2 (proj2 fatal_marker_and_poll_revents))))
             POLLIN 0 960
             {| pcm := pcm_playback; event_counter := SENTINEL + 2;
                sigio_pending := false; counter := 0 |});
      vm_compute; discriminate.
  - apply (proj2 (proj2 (proj2 (proj2 (proj2 fatal_marker_and_poll_revents))))
             POLLIN 0 960
             {| pcm := set_pcm_fd (-1) pcm_playback;
                event_counter := SENTINEL;
                sigio_pending := false; counter := 0 |}).
    reflexivity.
Defined.


Lemma ulong_add_l a b : ulong (ulong a + b) = ulong (a + b).
Proof. unfold ulong. apply Zplus_mod_idemp_l. Qed.

Lemma slong_ext x y : ulong x = ulong y -> slong x = slong y.
Proof. intros H. unfold slong. rewrite H. reflexivity. Qed.

Lemma delay_sum a q d e :
  slong (ulong (ulong a + q) + d + e) = slong (a + q + d + e).
Proof.
  apply slong_ext.
  rewrite <- !Z.add_assoc, ulong_add_l.
  rewrite <- !Z.add_assoc, ulong_add_l.
  reflexivity.
Qed.

Lemma delay_sum_no_fifo a d e :
  slong (ulong a + d + e) = slong (a + 0 + d + e).
Proof.
  apply slong_ext.
  rewrite <- !Z.add_assoc, ulong_add_l.
  reflexivity.
Qed.

(** C7 as stated fails: while the intrinsic delay is 0, every call of the
    delay callback asks the daemon again.  Two calls in a row, with no
    frame moved in between, send two requests, although a tenth of the
    rate is 4800 frames. *)
Lemma delay_asks_daemon_on_every_call :
  exists r1 w1 evs1 r2 w2 evs2,
    bluealsa_proxy_delay (Some 2048) 0 world_playback = Some (r1, w1, evs1)
    /\ delay_requests evs1 = 1%nat
    /\ bluealsa_proxy_delay (Some 2048) 0 w1 = Some (r2, w2, evs2)
    /\ delay_requests evs2 = 1%nat
    /\ io (pcm w1) = io (pcm world_playback)
    /\ io_hw_ptr (pcm w1) = io_hw_ptr (pcm world_playback)
    /\ rate (io (pcm world_playback)) / 10 = 4800.
Proof.
  do 6 eexists.
  split; [reflexivity|].
  split; [reflexivity|].
  split; [reflexivity|].
  repeat split; reflexivity.
Qed.


(** C7, amended. With [pcm_fd] detached the delay callback returns
    -ENODEV, stores nothing and changes nothing.  With [pcm_fd] attached
    (and a frame size and a tenth of the rate that are not zero) it
    returns 0 and stores (appl_ptr - hw_ptr) + the bytes the FIONREAD
    request reports divided by the frame size (nothing when the request
    fails) + the intrinsic delay + the extra delay, as a signed 64-bit
    value.  The plug-in keeps a counter of calls: a call adds one to it
    when the state is Running or Draining, the stream is a playback
    stream and the intrinsic delay is not 0, and leaves it alone
    otherwise.  The callback asks the daemon for the intrinsic delay, at
    most once in a call, exactly when the state is Running or Draining,
    the stream is a playback stream, and the intrinsic delay is 0 or the
    counter, with the one just added, is a multiple of rate/10: the gate
    counts calls of the callback, not frames, and is open on every call
    while the intrinsic delay is 0.  Nothing else of the stream
    changes. *)
Theorem delay_formula_and_refresh :
  (forall fionread daemon_delay w,
     pcm_fd (pcm w) = -1 ->
     bluealsa_proxy_delay fionread daemon_delay w
     = Some ((- ENODEV, None), w, []))
  /\ (forall fionread daemon_delay w,
        pcm_fd (pcm w) <> -1 ->
        frame_size (pcm w) <> 0 ->
        uint (rate (io (pcm w))) / 10 <> 0 ->
        exists w' evs,
          bluealsa_proxy_delay fionread daemon_delay w
          = Some ((0, Some (slong (appl_ptr (io (pcm w)) - hw_ptr (io (pcm w))
                                   + delay_fifo_frames fionread (pcm w)
                                   + refreshed_delay daemon_delay w
                                   + delay_ex (pcm w)))),
                  w', evs)
          /\ delay_requests evs
             = (if delay_refresh_cond w then 1 else 0)%nat
          /\ delay (pcm w') = refreshed_delay daemon_delay w
          /\ io (pcm w') = io (pcm w)
          /\ counter w'
             = (if delay_counts w then counter w + 1 else counter w)
          /\ set_delay (delay (pcm w)) (pcm w') = pcm w
          /\ event_counter w' = event_counter w
          /\ sigio_pending w' = sigio_pending w).
Proof.
  split.
  - intros fionread daemon_delay w Hfd.
    unfold bluealsa_proxy_delay. run_pcm. rewrite Hfd. reflexivity.
  - intros fionread daemon_delay w Hfd Hfs Hrate.
    apply Z.eqb_neq in Hfd, Hfs, Hrate.
    assert (Hsame : set_delay (delay (pcm w)) (pcm w) = pcm w)
      by (destruct (pcm w); reflexivity).
    unfold bluealsa_proxy_delay, delay_refresh_due, refreshed_delay,
      delay_refresh_cond, delay_counts, delay_fifo_frames.
    run_pcm. rewrite Hfd.
    destruct fionread as [size|]; simpl; rewrite ?Hfs; simpl;
      destruct (running_or_draining (state (io (pcm w)))); simpl;
      destruct (stream (io (pcm w))); simpl;
      destruct (delay (pcm w) =? 0) eqn:Hd; simpl;
      rewrite ?Hrate; simpl;
      try destruct (uint (counter w + 1) mod (uint (rate (io (pcm w))) / 10)
                    =? 0); simpl;
      try destruct (uint daemon_delay =? uint (-1)); simpl;
      rewrite ?delay_sum, ?delay_sum_no_fifo;
      do 2 eexists; (split; [reflexivity|]); simpl;
      repeat split; solve [reflexivity | exact Hsame].
Qed.

(** The amended C7 on the fed playback stream of the examples, the
    daemon answering 150: with no intrinsic delay yet the daemon is asked
    and the counter stays; with an intrinsic delay of 720 frames and
    4799 calls counted, the call is the 4800th, the daemon is asked and
    the counter moves. *)
Lemma delay_formula_and_refresh_witness :
  (exists w' evs r,
     bluealsa_proxy_delay (Some 2048) 150 world_playback_fed
     = Some ((0, Some r), w', evs)
     /\ delay_requests evs = 1%nat
     /\ delay (pcm w') = 720
     /\ counter w' = 0)
  /\ (exists w' evs r,
        bluealsa_proxy_delay (Some 2048) 150 world_playback_delayed
        = Some ((0, Some r), w', evs)
        /\ delay_requests evs = 1%nat
        /\ counter w' = 4800).
Proof.
  split.
  - destruct (proj2 delay_formula_and_refresh (Some 2048) 150
                world_playback_fed ltac:(discriminate) ltac:(discriminate)
                ltac:(discriminate))
      as (w' & evs & Heq & Hreq & Hd & _ & Hc & _).
    exists w', evs. eexists.
    split; [exact Heq|]. split; [exact Hreq|]. split; [exact Hd|exact Hc].
  - destruct (proj2 delay_formula_and_refresh (Some 2048) 150
                world_playback_delayed ltac:(discriminate)
                ltac:(discriminate) ltac:(discriminate))
      as (w' & evs & Heq & Hreq & _ & _ & Hc & _).
    exists w', evs. eexists.
    split; [exact Heq|]. split; [exact Hreq|exact Hc].
Defined.

End PcmFacts.

(** ** More of the device monitor *)

Module MonitorExtra.
Import Monitor MonitorFacts.

Ltac run_lib :=
  unfold bluezalsa_close, delete_handle, lift, opened,
    pthread_mutex_unlock_new, device_detach, set_snd_fd,
    bluealsa_close_transport, bluealsa_open_transport, close, write,
    pthread_mutex_lock, pthread_mutex_unlock, modify_handle, get_handle,
    emit, blocked, bind, ret;
  simpl.

(** What a refresh entered with the mutex free does, case by case. *)
Ltac eqb_hyps :=
  repeat match goal with
  | H : (_ =? _) = true |- _ => apply Z.eqb_eq in H
  | H : (_ =? _) = false |- _ => apply Z.eqb_neq in H
  end.

Lemma refresh_run :
  forall d u w,
    mutex_held w = false ->
    exists r w' evs,
      update_device_attach_state d u w = Some (r, w', evs)
      /\ set_transport_h (transport (hdl w))
           (set_snd_fd_h (snd_fd (hdl w)) (hdl w'))
         = hdl w
      /\ held_after false evs = mutex_held w'
      /\ (mutex_held w' = true ->
          snd_fd (hdl w) = -1 /\ snd_fd (hdl w') = -1
          /\ open_transport_reply d = -1)
      /\ ((snd_fd (hdl w') = snd_fd (hdl w) /\ open_fds w' = open_fds w)
          \/ (snd_fd (hdl w) <> -1 /\ snd_fd (hdl w') = -1
              /\ open_fds w' = open_fds w ∖ {[snd_fd (hdl w)]})
          \/ (snd_fd (hdl w) = -1 /\ snd_fd (hdl w') = open_transport_reply d
              /\ snd_fd (hdl w') <> -1 /\ addr (hdl w) <> None
              /\ open_fds w' = open_fds w ∪ {[snd_fd (hdl w')]})).
Proof.
  intros d u w Hm.
  run_monitor. rewrite Hm. simpl.
  destruct (hdl w) as [bfd efd sfd cfd itf ad ty tr] eqn:Hh. simpl.
  destruct ad as [a|]; simpl.
  2:{ do 3 eexists. split; [reflexivity|]. simpl.
      repeat split; auto; discriminate. }
  destruct (bfd =? -1); simpl.
  { do 3 eexists. split; [reflexivity|]. simpl.
    repeat split; auto; discriminate. }
  destruct (get_transports_reply d) as [transports|]; simpl.
  2:{ do 3 eexists. split; [reflexivity|]. simpl.
      repeat split; auto; discriminate. }
  destruct (find_transport a ty transports (length transports) 0)
    as [matched idx] eqn:Hfind.
  destruct matched; simpl.
  - destruct (sfd =? -1) eqn:Hsnd; simpl.
    2:{ do 3 eexists. split; [reflexivity|]. simpl.
        repeat split; auto; discriminate. }
    apply Z.eqb_eq in Hsnd. subst sfd.
    destruct (find_transport_in_range _ _ _ _ _ _ Hfind) as [t0 Htr].
    rewrite Htr. simpl.
    destruct (open_transport_reply d =? -1) eqn:Hopen; simpl.
    + apply Z.eqb_eq in Hopen.
      do 3 eexists. split; [reflexivity|]. simpl. rewrite Hopen.
      repeat split; auto.
    + apply Z.eqb_neq in Hopen.
      do 3 eexists. split; [reflexivity|]. simpl.
      repeat split; auto; try discriminate.
      right; right; repeat split; auto; discriminate.
  - destruct (sfd =? -1) eqn:Hsnd; simpl.
    + apply Z.eqb_eq in Hsnd. subst sfd.
      do 3 eexists. split; [reflexivity|]. simpl.
      repeat split; auto; discriminate.
    + apply Z.eqb_neq in Hsnd.
      do 3 eexists. split; [reflexivity|]. simpl.
      repeat split; auto; try discriminate;
        right; left; repeat split; auto.
Qed.


(** What [device_detach] does: nothing, or the release of the FIFO. *)
Lemma detach_run :
  forall w,
    (device_detach w = Some (0, w, [])
     /\ (addr (hdl w) = None \/ snd_fd (hdl w) = -1))
    \/ (device_detach w
        = Some (0, {| hdl := set_snd_fd_h (-1) (hdl w);
                      open_fds := open_fds w ∖ {[snd_fd (hdl w)]};
                      mutex_held := mutex_held w |},
                [EvCloseTransport (ba_fd (hdl w)) (transport (hdl w));
                 EvClose (snd_fd (hdl w));
                 EvSndFd (snd_fd (hdl w)) (-1)])
        /\ addr (hdl w) <> None /\ snd_fd (hdl w) <> -1).
Proof.
  intros w. run_monitor.
  destruct (addr (hdl w)) as [a|] eqn:Ha; simpl.
  - destruct (snd_fd (hdl w) =? -1) eqn:Hs; simpl.
    + apply Z.eqb_eq in Hs. left. auto.
    + apply Z.eqb_neq in Hs. right; repeat split; auto; discriminate.
  - left. auto.
Qed.

Lemma detach_consistent :
  forall w r w' evs,
    attached_consistent w ->
    device_detach w = Some (r, w', evs) ->
    attached_consistent w'.
Proof.
  intros w r w' evs Hc H.
  destruct (detach_run w) as [[Heq _]|[Heq _]]; rewrite Heq in H;
    inversion H; subst; [exact Hc|].
  intros Hne. simpl in Hne. contradiction.
Qed.

Lemma refresh_consistent :
  forall d u w r w' evs,
    attached_consistent w ->
    update_device_attach_state d u w = Some (r, w', evs) ->
    attached_consistent w'.
Proof.
  intros d u w r w' evs Hc H.
  destruct (mutex_held w) eqn:Hm.
  { unfold update_device_attach_state, bind, pthread_mutex_lock in H.
    rewrite Hm in H. discriminate H. }
  destruct (refresh_run d u w Hm) as (r1 & w1 & evs1 & Heq & Hh & _ & _ & Hs).
  rewrite Heq in H. inversion H; subst.
  assert (Ha : addr (hdl w') = addr (hdl w))
    by (rewrite <- Hh; reflexivity).
  unfold attached_consistent in *. rewrite Ha.
  destruct Hs as [(Hs & Hf)|[(_ & Hs & _)|(_ & _ & Hne & Hb & Hf)]].
  - rewrite Hs, Hf. exact Hc.
  - intros Hne. contradiction.
  - intros _. split; [exact Hb|]. rewrite Hf. apply elem_of_union; right; apply elem_of_singleton; reflexivity.
Qed.

Lemma set_device_consistent :
  forall (str2ba : string -> option bdaddr_t) d u malloc_ok address t
         w r w' evs,
    attached_consistent w ->
    bluezalsa_set_device str2ba d u malloc_ok address t w
    = Some (r, w', evs) ->
    attached_consistent w'.
Proof.
  intros str2ba d u malloc_ok address t w r w' evs Hc H.
  unfold bluezalsa_set_device in H.
  destruct (supported_type t); simpl in H.
  2:{ inversion H; subst. exact Hc. }
  unfold device_detach, set_snd_fd, bluealsa_close_transport, close, write,
    pthread_mutex_lock, pthread_mutex_unlock, modify_handle, get_handle,
    emit, blocked, bind, ret in H.
  simpl in H.
  destruct (mutex_held w); simpl in H; [discriminate H|].
  assert (Hsnd : addr (hdl w) = None -> snd_fd (hdl w) = -1).
  { intros Ha. destruct (Z.eq_dec (snd_fd (hdl w)) (-1)) as [|Hne]; auto.
    destruct (Hc Hne) as [Hb _]. contradiction. }
  destruct (addr (hdl w)) as [a0|]; simpl in H;
    (destruct address as [s|]; simpl in H;
     [ destruct malloc_ok; simpl in H;
       [ destruct (str2ba s) as [a|]; simpl in H | ] | ]);
    try (inversion H; subst; intros Hne; simpl in Hne;
         try contradiction; rewrite Hsnd in Hne by reflexivity;
         contradiction).
  - match type of H with
    | context [update_device_attach_state d u ?w1] =>
      destruct (update_device_attach_state d u w1)
        as [[[r1 w2] evs2]|] eqn:Heq; [|discriminate H];
      apply refresh_consistent in Heq
    end.
    + inversion H; subst. exact Heq.
    + intros Hne. simpl in Hne. contradiction.
  - match type of H with
    | context [update_device_attach_state d u ?w1] =>
      destruct (update_device_attach_state d u w1)
        as [[[r1 w2] evs2]|] eqn:Heq; [|discriminate H];
      apply refresh_consistent in Heq
    end.
    + inversion H; subst. exact Heq.
    + intros Hne. simpl in Hne. rewrite Hsnd in Hne by reflexivity.
      contradiction.
Qed.


Lemma read_event_range :
  forall reads r, read_event reads = Some r -> -1 <= r <= 8.
Proof.
  induction reads as [|x rest IH]; intros r H; simpl in H; [discriminate H|].
  destruct x as [e|n]; simpl in H.
  - destruct (e =? EINTR); [auto|]. inversion H. lia.
  - inversion H. lia.
Qed.

(** One turn of the loop of [bluezalsa_readi]: the call blocks, returns in
    the same world, goes on in the same world, or detaches and goes on. *)
Lemma readi_step size r p rest w :
  readi_loop size r (p :: rest) w = None
  \/ (exists r' pre,
        readi_loop size r (p :: rest) w = Some (r', w, pre)
        /\ forallb is_wait_event pre = true
        /\ (r' = r \/ -1 <= r' <= Z.max 8 (ulong (size * 2))))
  \/ (exists r' pre,
        readi_loop size r (p :: rest) w
        = prepend pre (readi_loop size r' rest w)
        /\ forallb is_wait_event pre = true
        /\ (r' = r \/ r' = 8))
  \/ (exists w1 dev,
        device_detach w = Some (0, w1, dev)
        /\ readi_loop size r (p :: rest) w
           = prepend (EvPoll (snd_fd (hdl w)) (client_event_fd (hdl w)) :: dev)
               (readi_loop size r rest w1)).
Proof.
  assert (Hu : 0 <= ulong (size * 2))
    by (unfold ulong; apply Z.mod_pos_bound; lia).
  simpl. unfold get_handle, emit, bind, ret. simpl.
  destruct (poll_res p =? -1); simpl.
  { right; left. do 2 eexists. split; [reflexivity|]. simpl. auto. }
  destruct (poll_res p =? 0); simpl.
  { right; right; left. exists r.
    exists [EvPoll (snd_fd (hdl w)) (client_event_fd (hdl w))].
    split; [|simpl; auto].
    destruct (readi_loop size r rest w) as [[[? ?] ?]|]; reflexivity. }
  destruct (Z.land (revents0 p) POLLHUP =? 0); simpl.
  2:{ right; right; right.
      destruct (detach_run w) as [[Heq _]|[Heq _]]; rewrite Heq;
        do 2 eexists; (split; [reflexivity|]);
        destruct (readi_loop size r rest _) as [[[? ?] ?]|]; reflexivity. }
  destruct (Z.land (revents1 p) POLLIN =? 0); simpl.
  - destruct (Z.land (revents0 p) POLLIN =? 0); simpl.
    + right; right; left. exists r.
      exists [EvPoll (snd_fd (hdl w)) (client_event_fd (hdl w))].
      split; [|simpl; auto].
      destruct (readi_loop size r rest w) as [[[? ?] ?]|]; reflexivity.
    + destruct (snd_read p) as [e|n] eqn:Hr; simpl.
      * right; right; left. exists r.
        exists [EvPoll (snd_fd (hdl w)) (client_event_fd (hdl w));
                EvRead (snd_fd (hdl w)) (ulong (size * 2))].
        split; [|simpl; auto].
        destruct (readi_loop size r rest w) as [[[? ?] ?]|]; reflexivity.
      * right; left. do 2 eexists. split; [reflexivity|]. simpl.
        split; [reflexivity|]. right. lia.
  - destruct (read_event (event_reads p)) as [r'|] eqn:Hre; simpl; [|auto].
    pose proof (read_event_range _ _ Hre) as Hrange.
    destruct (r' =? 8) eqn:H8; simpl.
    2:{ right; left. do 2 eexists. split; [reflexivity|]. simpl.
        split; [reflexivity|]. right. lia. }
    apply Z.eqb_eq in H8. subst r'.
    destruct (Z.land (revents0 p) POLLIN =? 0); simpl.
    + right; right; left. exists 8.
      exists [EvPoll (snd_fd (hdl w)) (client_event_fd (hdl w));
              EvRead (client_event_fd (hdl w)) 8].
      split; [|simpl; auto].
      destruct (readi_loop size 8 rest w) as [[[? ?] ?]|]; reflexivity.
    + destruct (snd_read p) as [e|n] eqn:Hr; simpl.
      * right; right; left. exists 8.
        exists [EvPoll (snd_fd (hdl w)) (client_event_fd (hdl w));
                EvRead (client_event_fd (hdl w)) 8;
                EvRead (snd_fd (hdl w)) (ulong (size * 2))].
        split; [|simpl; auto].
        destruct (readi_loop size 8 rest w) as [[[? ?] ?]|]; reflexivity.
      * right; left. do 2 eexists. split; [reflexivity|]. simpl.
        split; [reflexivity|]. right. lia.
Qed.


Lemma wait_is_readi :
  forall evs, forallb is_wait_event evs = true ->
              forallb is_readi_event evs = true.
Proof.
  induction evs as [|e evs IH]; simpl; [auto|].
  intros H. apply andb_prop in H. destruct H as [He H].
  rewrite (IH H). destruct e; simpl in *; congruence.
Qed.

(** What a run of the loop of [bluezalsa_readi] that returns has done. *)
Lemma readi_loop_run :
  forall rounds size r w ret w' evs,
    readi_loop size r rounds w = Some (ret, w', evs) ->
    (ret = r \/ -1 <= ret <= Z.max 8 (ulong (size * 2)))
    /\ forallb is_readi_event evs = true
    /\ ((w' = w /\ forallb is_wait_event evs = true)
        \/ (addr (hdl w) <> None /\ snd_fd (hdl w) <> -1
            /\ w' = detached_world w)).
Proof.
  induction rounds as [|p rest IH]; intros size r w ret w' evs H;
    [discriminate H|].
  destruct (readi_step size r p rest w)
    as [H1|[(r' & pre & H1 & Hq & Hr)|[(r' & pre & H1 & Hq & Hr)
           |(w1 & dev & Hd & H1)]]]; rewrite H1 in H.
  - discriminate H.
  - inversion H; subst. split; [exact Hr|].
    split; [apply wait_is_readi; exact Hq|]. left. auto.
  - destruct (readi_loop size r' rest w) as [[[ret1 w2] evs2]|] eqn:Heq;
      simpl in H; [|discriminate H].
    inversion H; subst. apply IH in Heq.
    destruct Heq as (Hret & Hev & Hw).
    split; [destruct Hr as [->| ->]; destruct Hret as [->|Hret]; auto;
            right; lia|].
    rewrite !forallb_app, Hev, (wait_is_readi _ Hq), Hq. simpl.
    split; [reflexivity|].
    destruct Hw as [[-> ->]|Hw]; [left; auto|right; exact Hw].
  - destruct (readi_loop size r rest w1) as [[[ret1 w2] evs2]|] eqn:Heq;
      simpl in H; [|discriminate H].
    inversion H; subst. apply IH in Heq.
    destruct Heq as (Hret & Hev & Hw).
    split; [exact Hret|].
    destruct (detach_run w) as [[Heq _]|(Heq & Ha & Hs)];
      rewrite Heq in Hd; inversion Hd; subst; simpl.
    + split; [exact Hev|].
      destruct Hw as [[-> ->]|Hw]; [left; auto|right; exact Hw].
    + split; [exact Hev|]. right.
      destruct Hw as [[-> _]|(_ & Hne & _)];
        [auto | simpl in Hne; contradiction].
Qed.

Lemma readi_consistent :
  forall size rounds w r w' evs,
    attached_consistent w ->
    bluezalsa_readi size rounds w = Some (r, w', evs) ->
    attached_consistent w'.
Proof.
  intros size rounds w r w' evs Hc H.
  apply readi_loop_run in H.
  destruct H as (_ & _ & [[-> _]|(_ & _ & ->)]); [exact Hc|].
  intros Hne. simpl in Hne. contradiction.
Qed.

(** X1. Whatever sequence of client calls and monitor refreshes runs on a
    handle, if the handle holds a FIFO ([snd_fd] is not -1) then it is bound
    to an address and the FIFO is an open descriptor of the process: the
    property holds after the sequence when it holds before. *)
Theorem attached_handle_is_bound_and_open :
  forall (str2ba : string -> option bdaddr_t) cs w rs w' evs,
    attached_consistent w ->
    run_apis str2ba cs w = Some (rs, w', evs) ->
    attached_consistent w'.
Proof.
  intros str2ba cs.
  induction cs as [|c rest IH]; intros w rs w' evs Hc H; simpl in H.
  { inversion H; subst. exact Hc. }
  unfold bind in H.
  destruct (run_api str2ba c w) as [[[r1 w1] evs1]|] eqn:H1;
    [|discriminate H].
  destruct (run_apis str2ba rest w1) as [[[rs2 w2] evs2]|] eqn:H2;
    [|discriminate H].
  simpl in H. inversion H; subst.
  apply (IH w1 rs2 w' evs2); [|exact H2].
  destruct c; simpl in H1.
  - eapply set_device_consistent; eauto.
  - eapply readi_consistent; eauto.
  - inversion H1; subst. exact Hc.
  - eapply refresh_consistent; eauto.
Qed.


Lemma attached_handle_is_bound_and_open_witness :
  exists rs w' evs,
    run_apis str2ba_example calls_example world_bound = Some (rs, w', evs)
    /\ attached_consistent w'.
Proof.
  do 3 eexists. split; [vm_compute; reflexivity|].
  eapply (attached_handle_is_bound_and_open str2ba_example calls_example
            world_bound); [|vm_compute; reflexivity].
  intros H. exfalso. apply H. reflexivity.
Defined.

(** X2. [device_detach] always returns 0, and a second detach right after
    does nothing: no request to the daemon, no second [close] of the FIFO.
    After a detach of a bound handle [snd_fd] is -1, and a descriptor that
    was released is no longer in the table of the process. *)
Theorem device_detach_idempotent :
  forall w,
    exists w1 evs,
      device_detach w = Some (0, w1, evs)
      /\ device_detach w1 = Some (0, w1, [])
      /\ (addr (hdl w) <> None -> snd_fd (hdl w1) = -1)
      /\ (snd_fd (hdl w1) <> snd_fd (hdl w) ->
          snd_fd (hdl w) ∉ open_fds w1).
Proof.
  intros w.
  destruct (detach_run w) as [[Heq Hw]|(Heq & Ha & Hs)].
  - exists w, []. split; [exact Heq|]. split; [exact Heq|].
    split; [|intros H; contradiction].
    intros Ha. destruct Hw as [Hw|Hw]; [contradiction|exact Hw].
  - do 2 eexists. split; [exact Heq|]. simpl.
    split; [|split; [reflexivity|]].
    2:{ intros _. apply not_elem_of_difference. right.
        apply elem_of_singleton. reflexivity. }
    run_monitor. destruct (addr (hdl w)); [reflexivity|contradiction].
Qed.

(** X3. A refresh is idempotent: when a refresh has returned with the mutex
    released, a second refresh with the same answers of the daemon returns
    the same value, leaves the handle and the descriptors as they are and
    only takes and releases the mutex; the FIFO is not opened again and the
    client is not notified a second time. *)
Theorem refresh_twice_is_refresh_once :
  forall d u u2 w r w1 evs,
    update_device_attach_state d u w = Some (r, w1, evs) ->
    mutex_held w1 = false ->
    update_device_attach_state d u2 w1 = Some (r, w1, [EvLock; EvUnlock]).
Proof.
  intros d u u2 w r w1 evs H Hm1.
  unfold update_device_attach_state, device_detach,
    set_snd_fd, bluealsa_close_transport, bluealsa_open_transport, close,
    write, pthread_mutex_lock, pthread_mutex_unlock, modify_handle,
    get_handle, emit, blocked, bind, ret in *.
  simpl in *.
  destruct (mutex_held w); [discriminate H|]. simpl in H.
  destruct (hdl w) as [bfd efd sfd cfd itf ad ty tr] eqn:Hh. simpl in H.
  destruct ad as [a|]; simpl in H.
  2:{ inversion H; subst. simpl. try rewrite Hh. reflexivity. }
  destruct (bfd =? -1) eqn:Hb; simpl in H.
  { inversion H; subst. simpl. try rewrite Hh. simpl. rewrite Hb. reflexivity. }
  destruct (get_transports_reply d) as [transports|] eqn:Ht; simpl in H.
  2:{ inversion H; subst. simpl. try rewrite Hh. simpl. rewrite Hb.
      reflexivity. }
  destruct (find_transport a ty transports (length transports) 0)
    as [matched idx] eqn:Hfind.
  destruct matched; simpl in H.
  - destruct (sfd =? -1) eqn:Hsnd; simpl in H.
    2:{ inversion H; subst. simpl. try rewrite Hh. simpl.
        rewrite Hb, Hfind. simpl. rewrite Hsnd. reflexivity. }
    destruct (find_transport_in_range _ _ _ _ _ _ Hfind) as [t0 Htr].
    rewrite Htr in H. simpl in H.
    destruct (open_transport_reply d =? -1) eqn:Hopen; simpl in H.
    + inversion H; subst. simpl in Hm1. discriminate Hm1.
    + inversion H; subst. simpl.
      rewrite Hb, Hfind. simpl. rewrite Hopen. reflexivity.
  - destruct (sfd =? -1) eqn:Hsnd; simpl in H.
    + inversion H; subst. simpl. try rewrite Hh. simpl.
      rewrite Hb, Hfind. simpl. rewrite Hsnd. reflexivity.
    + inversion H; subst. simpl.
      rewrite Hb, Hfind. simpl. reflexivity.
Qed.

Lemma refresh_twice_is_refresh_once_witness :
  exists r w1 evs,
    update_device_attach_state daemon_a 1 world_bound = Some (r, w1, evs)
    /\ snd_fd (hdl w1) = 7
    /\ update_device_attach_state daemon_a 2 w1
       = Some (r, w1, [EvLock; EvUnlock]).
Proof.
  do 3 eexists. split; [vm_compute; reflexivity|]. split; [reflexivity|].
  eapply (refresh_twice_is_refresh_once daemon_a 1 2 world_bound);
    [vm_compute; reflexivity|reflexivity].
Defined.


(** X4. When the refresh finds a transport for a bound handle with no FIFO
    and the daemon refuses to open it, the call returns the number of
    transports with [transport_mutex] still locked.  From then on every
    refresh, every [set_device] with a supported type and [bluezalsa_close]
    wait for the mutex for ever. *)
Theorem refresh_open_failure_keeps_mutex :
  forall d u w a ts idx,
    mutex_held w = false ->
    addr (hdl w) = Some a ->
    ba_fd (hdl w) <> -1 ->
    get_transports_reply d = Some ts ->
    find_transport a (type (hdl w)) ts (length ts) 0 = (true, idx) ->
    snd_fd (hdl w) = -1 ->
    open_transport_reply d = -1 ->
    exists w' evs,
      update_device_attach_state d u w
      = Some (Z.of_nat (length ts), w', evs)
      /\ mutex_held w' = true
      /\ hdl w' = hdl w
      /\ open_fds w' = open_fds w
      /\ (forall d' u', update_device_attach_state d' u' w' = None)
      /\ (forall str2ba d' u' malloc_ok address t,
             supported_type t = true ->
             bluezalsa_set_device str2ba d' u' malloc_ok address t w' = None)
      /\ bluezalsa_close w' = None.
Proof.
  intros d u w a ts idx Hm Ha Hb Ht Hfind Hs Ho.
  run_monitor. rewrite Hm. simpl.
  destruct (hdl w) as [bfd efd sfd cfd itf ad ty tr] eqn:Hh.
  simpl in *. subst ad sfd.
  apply Z.eqb_neq in Hb. rewrite Hb, Ht. simpl. rewrite Hfind. simpl.
  destruct (find_transport_in_range _ _ _ _ _ _ Hfind) as [t0 Htr].
  rewrite Htr. simpl. rewrite Ho. simpl.
  do 2 eexists. split; [reflexivity|]. simpl.
  repeat split; try reflexivity.
  intros str2ba d' u' malloc_ok address t Hsup. rewrite Hsup. reflexivity.
Qed.

Lemma refresh_open_failure_keeps_mutex_witness :
  exists w' evs,
    update_device_attach_state daemon_refusing 1 world_bound
    = Some (1, w', evs)
    /\ mutex_held w' = true
    /\ hdl w' = hdl world_bound
    /\ open_fds w' = open_fds world_bound
    /\ (forall d' u', update_device_attach_state d' u' w' = None)
    /\ (forall str2ba d' u' malloc_ok address t,
           supported_type t = true ->
           bluezalsa_set_device str2ba d' u' malloc_ok address t w' = None)
    /\ bluezalsa_close w' = None.
Proof.
  apply (refresh_open_failure_keeps_mutex daemon_refusing 1 world_bound
           addr_a [tr_a2dp_a] 0%nat);
    solve [reflexivity | discriminate].
Defined.

Lemma find_transport_first_differs :
  forall a t ts first n idx,
    ts !! 0%nat = Some first ->
    bacmp a (tr_addr first) <> 0 ->
    fst (find_transport a t ts n idx) = false.
Proof.
  intros a t ts first n.
  induction n as [|n IH]; intros idx H0 Hne; simpl; [reflexivity|].
  rewrite H0. pose proof Hne as Hne'. apply Z.eqb_neq in Hne'.
  rewrite Hne'.
  destruct (ts !! idx) as [tr|]; [|reflexivity].
  destruct (negb (tr_type tr =? type_code t)); [auto|].
  destruct (negb (stream_is_capture_or_duplex (tr_stream tr))); auto.
Qed.

(** X5. The refresh compares the bound address with the address of the
    first transport of the list only.  When that address differs, nothing
    matches, whatever else the list holds: the call returns the number of
    transports, never asks the daemon to open a FIFO, and leaves the handle
    without a FIFO and the mutex released, also when the handle was
    attached and the bound device is listed further on. *)
Theorem refresh_first_address_differs_detaches :
  forall d u w a ts first,
    mutex_held w = false ->
    addr (hdl w) = Some a ->
    ba_fd (hdl w) <> -1 ->
    get_transports_reply d = Some ts ->
    ts !! 0%nat = Some first ->
    bacmp a (tr_addr first) <> 0 ->
    exists w' evs,
      update_device_attach_state d u w
      = Some (Z.of_nat (length ts), w', evs)
      /\ snd_fd (hdl w') = -1
      /\ mutex_held w' = false
      /\ (forall fd t, ~ In (EvOpenTransport fd t) evs)
      /\ (forall fd v, ~ In (EvWrite fd v) evs).
Proof.
  intros d u w a ts first Hm Ha Hb Ht H0 Hne.
  run_monitor. rewrite Hm. simpl.
  destruct (hdl w) as [bfd efd sfd cfd itf ad ty tr] eqn:Hh.
  simpl in *. subst ad.
  apply Z.eqb_neq in Hb. rewrite Hb, Ht. simpl.
  pose proof (find_transport_first_differs a ty ts first (length ts) 0
                H0 Hne) as Hf.
  destruct (find_transport a ty ts (length ts) 0) as [m i].
  simpl in Hf. subst m. simpl.
  destruct (sfd =? -1) eqn:Hs; simpl.
  - apply Z.eqb_eq in Hs. subst sfd.
    do 2 eexists. split; [reflexivity|]. simpl.
    repeat split; auto; intros ? ? [H|[H|[]]]; discriminate H.
  - do 2 eexists. split; [reflexivity|]. simpl.
    repeat split; auto;
      intros ? ? [H|[H|[H|[H|[H|[]]]]]]; discriminate H.
Qed.

Lemma refresh_first_address_differs_detaches_witness :
  exists w' evs,
    update_device_attach_state daemon_b_first 1 world_attached
    = Some (2, w', evs)
    /\ snd_fd (hdl w') = -1
    /\ mutex_held w' = false
    /\ (forall fd t, ~ In (EvOpenTransport fd t) evs)
    /\ (forall fd v, ~ In (EvWrite fd v) evs).
Proof.
  apply (refresh_first_address_differs_detaches daemon_b_first 1
           world_attached addr_a [tr_a2dp_b; tr_a2dp_a] tr_a2dp_b);
    solve [reflexivity | discriminate].
Defined.


Lemma find_transport_spec_select :
  forall a t first suf pre,
    (pre ++ suf) !! 0%nat = Some first ->
    Forall (fun tr => tr_addr tr = tr_addr first) suf ->
    find_transport a t (pre ++ suf) (length suf) (length pre)
    = match spec_select a t suf (length pre) with
      | Some i => (true, i)
      | None => (false, length (pre ++ suf))
      end.
Proof.
  intros a t first suf.
  induction suf as [|x suf IH]; intros pre H0 Hall; simpl.
  - rewrite app_nil_r. reflexivity.
  - rewrite list_lookup_middle by reflexivity. rewrite H0.
    inversion Hall as [|? ? Hx Hrest]; subst.
    assert (Hstep :
      find_transport a t (pre ++ x :: suf) (length suf) (S (length pre))
      = match spec_select a t suf (S (length pre)) with
        | Some i => (true, i)
        | None => (false, length (pre ++ x :: suf))
        end).
    { replace (pre ++ x :: suf) with ((pre ++ [x]) ++ suf)
        by (rewrite <- app_assoc; reflexivity).
      replace (S (length pre)) with (length (pre ++ [x]))
        by (rewrite length_app; simpl; lia).
      apply IH; [|exact Hrest].
      rewrite <- app_assoc. exact H0. }
    unfold spec_matches. rewrite Hx.
    destruct (tr_type x =? type_code t); simpl; [|exact Hstep].
    destruct (stream_is_capture_or_duplex (tr_stream x)); simpl;
      [|exact Hstep].
    destruct (bacmp a (tr_addr first) =? 0); [reflexivity|exact Hstep].
Qed.

(** X6. When every transport the daemon lists belongs to one device, the
    loop of the refresh selects what the specification asks for: the first
    transport whose type is the bound profile, whose direction is capture
    or duplex and whose address is the bound address, and it runs off the
    end of the list when there is none. *)
Theorem find_transport_single_device :
  forall a t ts first,
    ts !! 0%nat = Some first ->
    Forall (fun tr => tr_addr tr = tr_addr first) ts ->
    find_transport a t ts (length ts) 0
    = match spec_select a t ts 0 with
      | Some i => (true, i)
      | None => (false, length ts)
      end.
Proof.
  intros a t ts first H0 Hall.
  exact (find_transport_spec_select a t first ts [] H0 Hall).
Qed.

Lemma find_transport_single_device_witness :
  find_transport addr_a BA_A2DP [tr_sco_a; tr_a2dp_a] 2 0
  = match spec_select addr_a BA_A2DP [tr_sco_a; tr_a2dp_a] 0 with
    | Some i => (true, i)
    | None => (false, 2%nat)
    end.
Proof.
  apply (find_transport_single_device addr_a BA_A2DP [tr_sco_a; tr_a2dp_a]
           tr_sco_a); [reflexivity|].
  repeat constructor.
Defined.


(** X7. With the mutex free, [bluezalsa_set_device] returns, and it returns
    0 or -1.  It returns 0 exactly when the type is A2DP or SCO and either
    no address is given or the allocation and the parsing of the address
    succeed; whether the refresh that follows attached the device does not
    count.  On 0 the handle stores the new type and the parsed address (no
    address for a null pointer); on -1 the stored type is the old one. *)
Theorem set_device_result :
  forall (str2ba : string -> option bdaddr_t) d u malloc_ok address t w,
    mutex_held w = false ->
    exists r w' evs,
      bluezalsa_set_device str2ba d u malloc_ok address t w
      = Some (r, w', evs)
      /\ (r = 0 \/ r = -1)
      /\ (r = 0 <->
          supported_type t = true
          /\ (address = None
              \/ (malloc_ok = true
                  /\ exists s a, address = Some s /\ str2ba s = Some a)))
      /\ (r = 0 ->
          type (hdl w') = t
          /\ addr (hdl w') = match address with
                             | Some s => str2ba s
                             | None => None
                             end)
      /\ (r = -1 -> type (hdl w') = type (hdl w)).
Proof.
  intros str2ba d u malloc_ok address t w Hm.
  unfold bluezalsa_set_device.
  destruct (supported_type t); simpl.
  2:{ do 3 eexists. split; [reflexivity|].
      split; [auto|]. split; [|split; [discriminate|auto]].
      split; [discriminate|intros [H _]; discriminate H]. }
  unfold device_detach, set_snd_fd, bluealsa_close_transport, close, write,
    pthread_mutex_lock, pthread_mutex_unlock, modify_handle, get_handle,
    emit, blocked, bind, ret.
  simpl. rewrite Hm. simpl.
  destruct (addr (hdl w)) as [a0|] eqn:Ha0; simpl;
    (destruct address as [s|]; simpl;
     [ destruct malloc_ok; simpl;
       [ destruct (str2ba s) as [a|] eqn:Hp; simpl | ] | ]);
    try match goal with
    | |- context [update_device_attach_state d u ?w1] =>
      destruct (refresh_run d u w1 eq_refl)
        as (r1 & w2 & evs2 & Heq & Hh & _);
      rewrite Heq; simpl;
      pose proof (f_equal type Hh) as Hty;
      pose proof (f_equal addr Hh) as Had;
      simpl in Hty, Had
    end;
    do 3 eexists; (split; [reflexivity|]); simpl;
    (split; [auto|]);
    (split; [split; [first [discriminate
                           |intros _; split; [reflexivity|]; eauto 6]
                    |try reflexivity]
            |split; [first [discriminate | intros _; auto]
                    |first [discriminate | auto]]]);
    try (intros [_ [H|(H & s' & a' & Hs & Hp')]]; try discriminate H;
         inversion Hs; subst; congruence).
Qed.

Lemma set_device_result_witness :
  exists r w' evs,
    bluezalsa_set_device str2ba_example daemon_a 1 true
      (Some "AA:BB:CC:DD:EE:FF"%string) BA_A2DP world_detached
    = Some (r, w', evs)
    /\ (r = 0 \/ r = -1)
    /\ (r = 0 <->
        supported_type BA_A2DP = true
        /\ (Some "AA:BB:CC:DD:EE:FF"%string = None
            \/ (true = true
                /\ exists s a,
                     Some "AA:BB:CC:DD:EE:FF"%string = Some s
                     /\ str2ba_example s = Some a)))
    /\ (r = 0 ->
        type (hdl w') = BA_A2DP
        /\ addr (hdl w') = str2ba_example "AA:BB:CC:DD:EE:FF"%string)
    /\ (r = -1 -> type (hdl w') = type (hdl world_detached)).
Proof.
  apply (set_device_result str2ba_example daemon_a 1 true
           (Some "AA:BB:CC:DD:EE:FF"%string) BA_A2DP world_detached).
  reflexivity.
Defined.


(** X8. A [bluezalsa_readi] that returns has never taken or released
    [transport_mutex], never written a notification and never asked the
    daemon to open a transport.  It leaves the mutex as it was, and either
    the whole world as it was, having only polled and read, or the handle
    detached: [snd_fd] set to -1 and that descriptor closed, every other
    field and descriptor untouched. *)
Theorem readi_only_waits_or_detaches :
  forall size rounds w r w' evs,
    bluezalsa_readi size rounds w = Some (r, w', evs) ->
    forallb is_readi_event evs = true
    /\ mutex_held w' = mutex_held w
    /\ ((w' = w /\ forallb is_wait_event evs = true)
        \/ (addr (hdl w) <> None /\ snd_fd (hdl w) <> -1
            /\ w' = detached_world w)).
Proof.
  intros size rounds w r w' evs H.
  apply readi_loop_run in H. destruct H as (_ & Hev & Hw).
  split; [exact Hev|]. split; [|exact Hw].
  destruct Hw as [[-> _]|(_ & _ & ->)]; reflexivity.
Qed.

Lemma readi_only_waits_or_detaches_witness :
  exists r w' evs,
    bluezalsa_readi 4 [round_hup; round_poll_fails] world_attached
    = Some (r, w', evs)
    /\ forallb is_readi_event evs = true
    /\ mutex_held w' = mutex_held world_attached
    /\ ((w' = world_attached /\ forallb is_wait_event evs = true)
        \/ (addr (hdl world_attached) <> None
            /\ snd_fd (hdl world_attached) <> -1
            /\ w' = detached_world world_attached)).
Proof.
  do 3 eexists. split; [vm_compute; reflexivity|].
  eapply (readi_only_waits_or_detaches 4 [round_hup; round_poll_fails]
            world_attached).
  vm_compute. reflexivity.
Defined.

(** X9. The value [bluezalsa_readi] returns is -1, or a count of bytes
    between 0 and the larger of 8 (the size of a notification) and the
    length asked of the FIFO, which is [size * 2] as an unsigned long: a
    number of bytes, never more than was asked for. *)
Theorem readi_return_range :
  forall size rounds w r w' evs,
    bluezalsa_readi size rounds w = Some (r, w', evs) ->
    -1 <= r <= Z.max 8 (ulong (size * 2)).
Proof.
  intros size rounds w r w' evs H.
  apply readi_loop_run in H. destruct H as ([->|H] & _); [|exact H].
  lia.
Qed.

Lemma readi_return_range_witness :
  exists r w' evs,
    bluezalsa_readi 4 [round_data] world_attached = Some (r, w', evs)
    /\ -1 <= r <= Z.max 8 (ulong (4 * 2)).
Proof.
  do 3 eexists. split; [vm_compute; reflexivity|].
  eapply (readi_return_range 4 [round_data] world_attached).
  vm_compute. reflexivity.
Defined.

(** X10. [bluezalsa_close] on a handle whose mutex is free returns after
    cancelling the monitor thread.  It closes [ba_fd], [event_fd] and
    [client_event_fd] when they are not zero and nothing else: the FIFO of
    an attached handle stays open when it is none of the three, and the
    daemon is never asked to release the transport. *)
Theorem close_leaves_fifo_open :
  forall w,
    mutex_held w = false ->
    exists w' evs,
      bluezalsa_close w = Some (tt, w', evs)
      /\ hdl w' = hdl w
      /\ (forall fd,
            fd ∈ open_fds w' <->
            fd ∈ open_fds w
            /\ ~ (fd <> 0
                  /\ (fd = ba_fd (hdl w) \/ fd = event_fd (hdl w)
                      \/ fd = client_event_fd (hdl w))))
      /\ (forall fd t, ~ In (EvCloseTransport fd t) (handle_events evs))
      /\ (snd_fd (hdl w) ∈ open_fds w ->
          snd_fd (hdl w) <> ba_fd (hdl w) ->
          snd_fd (hdl w) <> event_fd (hdl w) ->
          snd_fd (hdl w) <> client_event_fd (hdl w) ->
          snd_fd (hdl w) ∈ open_fds w').
Proof.
  intros w Hm.
  run_lib. rewrite Hm. simpl.
  destruct (ba_fd (hdl w) =? 0) eqn:Hb, (event_fd (hdl w) =? 0) eqn:He,
    (client_event_fd (hdl w) =? 0) eqn:Hc; simpl;
    do 2 eexists; (split; [reflexivity|]); simpl;
    (split; [reflexivity|]);
    eqb_hyps;
    (split; [intros fd; rewrite ?elem_of_difference, ?elem_of_singleton;
             split; [intros H; split; [tauto|]; intros [Hz Hor];
                     destruct Hor as [->|[->| ->]]; tauto
                    |intros [H Hn]; repeat split; auto;
                     intros ->; apply Hn; split; auto; congruence] |]);
    (split; [intros fd t H; simpl in H;
             repeat (destruct H as [H|H]; [discriminate H|]); exact H |]);
    intros Hin H1 H2 H3;
    rewrite ?elem_of_difference, ?elem_of_singleton; repeat split; auto.
Qed.

Lemma close_leaves_fifo_open_witness :
  exists w' evs,
    bluezalsa_close world_attached = Some (tt, w', evs)
    /\ hdl w' = hdl world_attached
    /\ (forall fd,
          fd ∈ open_fds w' <->
          fd ∈ open_fds world_attached
          /\ ~ (fd <> 0
                /\ (fd = ba_fd (hdl world_attached)
                    \/ fd = event_fd (hdl world_attached)
                    \/ fd = client_event_fd (hdl world_attached))))
    /\ (forall fd t, ~ In (EvCloseTransport fd t) (handle_events evs))
    /\ (snd_fd (hdl world_attached) ∈ open_fds world_attached ->
        snd_fd (hdl world_attached) <> ba_fd (hdl world_attached) ->
        snd_fd (hdl world_attached) <> event_fd (hdl world_attached) ->
        snd_fd (hdl world_attached) <> client_event_fd (hdl world_attached) ->
        snd_fd (hdl world_attached) ∈ open_fds w').
Proof.
  apply (close_leaves_fifo_open world_attached). reflexivity.
Defined.


Lemma delete_handle_run :
  forall w,
    mutex_held w = false ->
    exists w' evs,
      delete_handle w = Some (tt, w', evs)
      /\ hdl w' = hdl w
      /\ mutex_held w' = false
      /\ open_fds w' = open_fds w ∖ closed_by_delete (hdl w).
Proof.
  intros w Hm. unfold closed_by_delete.
  run_lib. rewrite Hm. simpl.
  destruct (ba_fd (hdl w) =? 0), (event_fd (hdl w) =? 0),
    (client_event_fd (hdl w) =? 0); simpl;
    do 2 eexists; (split; [reflexivity|]); simpl;
    (split; [reflexivity|]); (split; [reflexivity|]);
    apply set_eq; intros x;
    rewrite ?elem_of_difference, ?elem_of_union, ?elem_of_singleton,
      ?elem_of_empty; tauto.
Qed.

Section Lifecycle.

Variables BA_EVENT_TRANSPORT_ADDED BA_EVENT_TRANSPORT_REMOVED : Z.

Abbreviation bluezalsa_open' :=
  (bluezalsa_open BA_EVENT_TRANSPORT_ADDED BA_EVENT_TRANSPORT_REMOVED).

Ltac table_eq :=
  apply set_eq; intros ?x;
  rewrite ?elem_of_difference, ?elem_of_union, ?elem_of_singleton,
    ?elem_of_empty;
  intuition (subst; solve [contradiction | auto]).

Lemma bluezalsa_open_run :
  forall o itf w,
    -1 ∉ open_fds w ->
    fresh_fd w (oo_eventfd o) ->
    fresh_fd w (oo_ba_open o) ->
    fresh_fd w (oo_event_open o) ->
    exists r w' evs,
      bluezalsa_open' o itf w = Some (r, w', evs)
      /\ ((r = None /\ ~ open_succeeds o /\ open_fds w' = open_fds w)
          \/ (r = Some (new_handle o itf)
              /\ open_succeeds o
              /\ hdl w' = new_handle o itf
              /\ mutex_held w' = false
              /\ open_fds w'
                 = open_fds w ∪ {[oo_eventfd o]} ∪ {[oo_ba_open o]}
                   ∪ {[oo_event_open o]})).
Proof.
  intros o itf w Hneg Hf1 Hf2 Hf3.
  unfold bluezalsa_open, open_succeeds.
  destruct (oo_malloc o) eqn:Hmalloc; simpl.
  2:{ do 3 eexists. split; [reflexivity|]. left.
      repeat split; auto. intros (H & _). discriminate H. }
  run_lib.
  destruct (oo_mutex_init o =? 0) eqn:Hinit; simpl;
    [apply Z.eqb_eq in Hinit|apply Z.eqb_neq in Hinit].
  2:{ do 3 eexists. split; [reflexivity|]. left.
      repeat split; auto. tauto. }
  destruct (oo_eventfd o =? -1) eqn:H1; simpl;
    [apply Z.eqb_eq in H1|apply Z.eqb_neq in H1].
  { rewrite ?H1. simpl. do 3 eexists. split; [reflexivity|]. left. simpl.
    repeat split; auto; [tauto|table_eq]. }
  destruct Hf1 as [Hf1|[Hz1 Hn1]]; [contradiction|].
  pose proof Hz1 as Hz1'. apply Z.eqb_neq in Hz1'. rewrite ?Hz1'. simpl.
  destruct (oo_ba_open o =? -1) eqn:H2; simpl;
    [apply Z.eqb_eq in H2|apply Z.eqb_neq in H2].
  { rewrite ?H2, ?Hz1'. simpl. do 3 eexists. split; [reflexivity|]. left. simpl.
    repeat split; auto; [tauto|table_eq]. }
  destruct Hf2 as [Hf2|[Hz2 Hn2]]; [contradiction|].
  pose proof Hz2 as Hz2'. apply Z.eqb_neq in Hz2'. rewrite ?Hz2'. simpl.
  destruct (oo_event_open o =? -1) eqn:H3; simpl;
    [apply Z.eqb_eq in H3|apply Z.eqb_neq in H3].
  { rewrite ?H3, ?Hz1', ?Hz2'. simpl. do 3 eexists. split; [reflexivity|]. left. simpl.
    repeat split; auto; [tauto|table_eq]. }
  destruct Hf3 as [Hf3|[Hz3 Hn3]]; [contradiction|].
  pose proof Hz3 as Hz3'. apply Z.eqb_neq in Hz3'. rewrite ?Hz3'. simpl.
  destruct (oo_strdup o) eqn:Hdup; simpl.
  2:{ rewrite ?Hz1', ?Hz2', ?Hz3'. simpl.
      do 3 eexists. split; [reflexivity|]. left. simpl.
      repeat split; auto;
        [intros (_ & _ & _ & _ & _ & H & _); discriminate H|table_eq]. }
  destruct (oo_subscribe o =? -1) eqn:Hsub; simpl;
    [apply Z.eqb_eq in Hsub|apply Z.eqb_neq in Hsub].
  { rewrite ?Hz1', ?Hz2', ?Hz3'. simpl.
    do 3 eexists. split; [reflexivity|]. left. simpl.
    repeat split; auto; [tauto|table_eq]. }
  destruct (oo_pthread_create o =? 0) eqn:Hth; simpl;
    [apply Z.eqb_eq in Hth|apply Z.eqb_neq in Hth].
  2:{ rewrite ?Hz1', ?Hz2', ?Hz3'. simpl.
      do 3 eexists. split; [reflexivity|]. left. simpl.
      repeat split; auto; [tauto|table_eq]. }
  do 3 eexists. split; [reflexivity|]. right. simpl.
  repeat split; auto.
Qed.

(** X11. [bluezalsa_open] always returns, and it is all or nothing for
    the descriptors of the process.  When any step fails it returns a null
    pointer and the table of open descriptors is what it was before the
    call: every descriptor created on the way has been closed.  When every
    step succeeds it returns a handle with the three new descriptors, no
    FIFO ([snd_fd] is -1), no bound address and the mutex free.  The
    answers of the system are new descriptors other than 0, or -1. *)
Theorem open_all_or_nothing :
  forall o itf w,
    -1 ∉ open_fds w ->
    fresh_fd w (oo_eventfd o) ->
    fresh_fd w (oo_ba_open o) ->
    fresh_fd w (oo_event_open o) ->
    exists r w' evs,
      bluezalsa_open' o itf w = Some (r, w', evs)
      /\ ((r = None /\ ~ open_succeeds o /\ open_fds w' = open_fds w)
          \/ (r = Some (new_handle o itf)
              /\ open_succeeds o
              /\ hdl w' = new_handle o itf
              /\ mutex_held w' = false
              /\ open_fds w'
                 = open_fds w ∪ {[oo_eventfd o]} ∪ {[oo_ba_open o]}
                   ∪ {[oo_event_open o]})).
Proof. exact bluezalsa_open_run. Qed.

(** X12. [bluezalsa_close] undoes [bluezalsa_open]: after an open in which
    every step succeeds, a close at once returns and leaves the table of
    open descriptors of the process as it was before the open. *)
Theorem open_then_close_restores_descriptors :
  forall o itf w,
    -1 ∉ open_fds w ->
    fresh_fd w (oo_eventfd o) ->
    fresh_fd w (oo_ba_open o) ->
    fresh_fd w (oo_event_open o) ->
    open_succeeds o ->
    exists h w1 evs1 w2 evs2,
      bluezalsa_open' o itf w = Some (Some h, w1, evs1)
      /\ bluezalsa_close w1 = Some (tt, w2, evs2)
      /\ open_fds w2 = open_fds w.
Proof.
  intros o itf w Hneg Hf1 Hf2 Hf3 Hok.
  destruct (bluezalsa_open_run o itf w Hneg Hf1 Hf2 Hf3)
    as (r & w1 & evs1 & Heq & [(_ & Hno & _)|(-> & _ & Hh & Hm & Hfds)]);
    [contradiction|].
  destruct (delete_handle_run w1 Hm) as (w2 & evs2 & Hd & _ & _ & Hfds2).
  exists (new_handle o itf), w1, evs1, w2.
  exists (EvThreadCancel :: map EvHandle evs2).
  split; [exact Heq|].
  split; [unfold bluezalsa_close, lift, emit, bind; rewrite Hd; reflexivity|].
  rewrite Hfds2, Hfds, Hh. unfold closed_by_delete. simpl.
  destruct Hok as (_ & _ & H1 & H2 & H3 & _).
  destruct Hf1 as [Hf1|[Hz1 Hn1]]; [contradiction|].
  destruct Hf2 as [Hf2|[Hz2 Hn2]]; [contradiction|].
  destruct Hf3 as [Hf3|[Hz3 Hn3]]; [contradiction|].
  apply Z.eqb_neq in Hz1, Hz2, Hz3. rewrite Hz1, Hz2, Hz3.
  table_eq.
Qed.

End Lifecycle.

Lemma open_all_or_nothing_witness :
  exists r w' evs,
    bluezalsa_open 1 4 oracle_no_subscription "hci0" world_fresh
    = Some (r, w', evs)
    /\ ((r = None /\ ~ open_succeeds oracle_no_subscription
         /\ open_fds w' = open_fds world_fresh)
        \/ (r = Some (new_handle oracle_no_subscription "hci0")
            /\ open_succeeds oracle_no_subscription
            /\ hdl w' = new_handle oracle_no_subscription "hci0"
            /\ mutex_held w' = false
            /\ open_fds w'
               = open_fds world_fresh ∪ {[oo_eventfd oracle_no_subscription]}
                 ∪ {[oo_ba_open oracle_no_subscription]}
                 ∪ {[oo_event_open oracle_no_subscription]})).
Proof.
  apply (open_all_or_nothing 1 4 oracle_no_subscription "hci0" world_fresh);
    [vm_compute; intros H; discriminate H
    |right; split; [discriminate|vm_compute; intros H; discriminate H]..].
Defined.

Lemma open_then_close_restores_descriptors_witness :
  exists h w1 evs1 w2 evs2,
    bluezalsa_open 1 4 oracle_ok "hci0" world_fresh = Some (Some h, w1, evs1)
    /\ bluezalsa_close w1 = Some (tt, w2, evs2)
    /\ open_fds w2 = open_fds world_fresh.
Proof.
  apply (open_then_close_restores_descriptors 1 4 oracle_ok "hci0"
           world_fresh);
    [vm_compute; intros H; discriminate H
    |right; split; [discriminate|vm_compute; intros H; discriminate H]..
    |repeat split; discriminate].
Defined.


Lemma handle_events_app :
  forall a b, handle_events (a ++ b) = handle_events a ++ handle_events b.
Proof.
  induction a as [|e a IH]; intros b; simpl; [reflexivity|].
  destruct e; simpl; rewrite IH; reflexivity.
Qed.

Lemma handle_events_map :
  forall evs, handle_events (map EvHandle evs) = evs.
Proof.
  induction evs as [|e evs IH]; simpl; [reflexivity|].
  rewrite IH. reflexivity.
Qed.

Lemma changes_under_mutex_app :
  forall a b held,
    changes_under_mutex held (a ++ b)
    = changes_under_mutex held a
      && changes_under_mutex (held_after held a) b.
Proof.
  induction a as [|e a IH]; intros b held; simpl; [reflexivity|].
  destruct e; simpl; rewrite ?IH; try reflexivity.
  rewrite andb_assoc. reflexivity.
Qed.

Lemma notifications_app_zero :
  forall cfd a b,
    notifications cfd b = O ->
    notifications cfd (a ++ b) = notifications cfd a.
Proof.
  intros cfd a b Hb.
  induction a as [|e a IH]; simpl; [exact Hb|].
  destruct e; simpl; rewrite ?IH; reflexivity.
Qed.

Lemma attaches_notified_app :
  forall cfd a b,
    attaches_notified cfd a = true ->
    attaches_notified cfd b = true ->
    notifications cfd b = O ->
    attaches_notified cfd (a ++ b) = true.
Proof.
  intros cfd a b Ha Hb Hn.
  induction a as [|e a IH]; simpl in *; [exact Hb|].
  destruct e; simpl in *; auto.
  apply andb_prop in Ha. destruct Ha as [H1 H2].
  rewrite (notifications_app_zero cfd a b Hn), H1, (IH H2). reflexivity.
Qed.

Section Thread.

Variables BA_EVENT_TRANSPORT_ADDED BA_EVENT_TRANSPORT_CHANGED
  BA_EVENT_TRANSPORT_REMOVED BA_EVENT_UPDATE_BATTERY
  BA_EVENT_UPDATE_VOLUME event_size : Z.

Abbreviation monitor_worker_routine' :=
  (monitor_worker_routine BA_EVENT_TRANSPORT_ADDED
     BA_EVENT_TRANSPORT_CHANGED BA_EVENT_TRANSPORT_REMOVED
     BA_EVENT_UPDATE_BATTERY BA_EVENT_UPDATE_VOLUME event_size).

Abbreviation received :=
  (Monitor.received BA_EVENT_TRANSPORT_ADDED
     BA_EVENT_TRANSPORT_CHANGED BA_EVENT_TRANSPORT_REMOVED
     BA_EVENT_UPDATE_BATTERY BA_EVENT_UPDATE_VOLUME event_size).

Lemma monitor_step :
  forall t rest w,
    monitor_worker_routine' (t :: rest) w
    = match mt_poll t with
      | SysErr e =>
        if e =? EINTR then monitor_worker_routine' rest w
        else received t rest w
      | SysData _ => received t rest w
      end.
Proof.
  intros t rest w. unfold received. simpl.
  unfold bind, lift, get_handle, emit, ret, blocked. simpl.
  destruct (mt_poll t) as [e|n]; [destruct (e =? EINTR)|];
    try (destruct (monitor_worker_routine' rest w) as [[[? ?] ?]|];
         reflexivity);
    (destruct (recv_retry event_size (mt_recv t)) as [r|]; [|reflexivity]);
    (destruct (r =? event_size); simpl; [|reflexivity]);
    (destruct (update_device_attach_state (mt_daemon t) (mt_u t) w)
       as [[[r1 w1] evs1]|]; [|reflexivity]);
    (destruct (monitor_worker_routine' rest w1) as [[[[] w2] evs2]|];
       reflexivity).
Qed.

Lemma monitor_run :
  forall turns w w' evs,
    monitor_worker_routine' turns w = Some (tt, w', evs) ->
    changes_under_mutex (mutex_held w) (handle_events evs) = true
    /\ attaches_notified (client_event_fd (hdl w)) (handle_events evs) = true
    /\ notifications (client_event_fd (hdl w)) (handle_events evs) = O
    /\ (attached_consistent w -> attached_consistent w')
    /\ exists r, last evs = Some (EvRecv (event_fd (hdl w)) r)
                 /\ r <> event_size.
Proof.
  induction turns as [|t rest IH]; intros w w' evs H; [discriminate H|].
  rewrite monitor_step in H.
  assert (Hrecv :
    received t rest w = Some (tt, w', evs) ->
    changes_under_mutex (mutex_held w) (handle_events evs) = true
    /\ attaches_notified (client_event_fd (hdl w)) (handle_events evs) = true
    /\ notifications (client_event_fd (hdl w)) (handle_events evs) = O
    /\ (attached_consistent w -> attached_consistent w')
    /\ exists r, last evs = Some (EvRecv (event_fd (hdl w)) r)
                 /\ r <> event_size).
  { clear H. unfold received. intros H.
    destruct (recv_retry event_size (mt_recv t)) as [r|]; [|discriminate H].
    destruct (r =? event_size) eqn:Hr; simpl in H.
    2:{ inversion H; subst. simpl. apply Z.eqb_neq in Hr.
        do 3 (split; [reflexivity|]). split; [auto|].
        exists r. split; [reflexivity|exact Hr]. }
    destruct (mutex_held w) eqn:Hm.
    { unfold update_device_attach_state, bind, pthread_mutex_lock in H.
      rewrite Hm in H. discriminate H. }
    destruct (refresh_run (mt_daemon t) (mt_u t) w Hm)
      as (r1 & w1 & evs1 & Heq & Hh & Hheld & _).
    destruct (refresh_events (mt_daemon t) (mt_u t) w Hm)
      as (r1' & w1' & evs1' & Heq' & Hcum & Hatt & Hnot).
    rewrite Heq in Heq'. inversion Heq'; subst r1' w1' evs1'. clear Heq'.
    pose proof Heq as Hcons. rewrite Heq in H.
    destruct (monitor_worker_routine' rest w1) as [[[[] w2] evs2]|] eqn:Hrest;
      [|discriminate H].
    inversion H; subst. clear H.
    destruct (IH _ _ _ Hrest) as (Hc2 & Ha2 & Hn2 & Hk2 & r2 & Hl2 & Hr2).
    assert (Hcfd : client_event_fd (hdl w1) = client_event_fd (hdl w))
      by (rewrite <- Hh; reflexivity).
    assert (Hefd : event_fd (hdl w1) = event_fd (hdl w))
      by (rewrite <- Hh; reflexivity).
    rewrite Hcfd in Ha2, Hn2. rewrite Hefd in Hl2.
    simpl. rewrite handle_events_app, handle_events_map.
    rewrite changes_under_mutex_app, Hcum, Hheld, Hc2.
    split; [reflexivity|].
    split; [apply attaches_notified_app; assumption|].
    split; [rewrite notifications_app_zero; assumption|].
    split; [intros Hk; apply Hk2;
            eapply refresh_consistent; [exact Hk|exact Hcons]|].
    exists r2. split; [|exact Hr2].
    change (EvRecv (event_fd (hdl w)) r :: map EvHandle evs1 ++ evs2)
      with ((EvRecv (event_fd (hdl w)) r :: map EvHandle evs1) ++ evs2).
    rewrite last_app, Hl2. reflexivity. }
  destruct (mt_poll t) as [e|n]; [|exact (Hrecv H)].
  destruct (e =? EINTR); [|exact (Hrecv H)].
  exact (IH _ _ _ H).
Qed.

(** X13. In every run of the monitor thread that ends, started with the
    mutex free, every change of [snd_fd] happens while the thread holds
    [transport_mutex], and every attach is followed by exactly one write to
    [client_event_fd] before [snd_fd] changes again.  A handle that holds a
    FIFO only with a bound address and an open descriptor still does so
    when the thread ends, and the thread ends only on a receive that does
    not deliver a whole event. *)
Theorem monitor_thread_run :
  forall turns w w' evs,
    mutex_held w = false ->
    monitor_worker_routine' turns w = Some (tt, w', evs) ->
    changes_under_mutex false (handle_events evs) = true
    /\ attaches_notified (client_event_fd (hdl w)) (handle_events evs) = true
    /\ (attached_consistent w -> attached_consistent w')
    /\ exists r, last evs = Some (EvRecv (event_fd (hdl w)) r)
                 /\ r <> event_size.
Proof.
  intros turns w w' evs Hm H.
  destruct (monitor_run turns w w' evs H) as (Hc & Ha & _ & Hk & Hl).
  rewrite Hm in Hc. auto.
Qed.

End Thread.

Lemma monitor_thread_run_witness :
  exists w' evs,
    monitor_worker_routine 1 2 4 8 16 16 [turn_event; turn_short] world_bound
    = Some (tt, w', evs)
    /\ snd_fd (hdl w') = 7
    /\ changes_under_mutex false (handle_events evs) = true
    /\ attaches_notified (client_event_fd (hdl world_bound))
         (handle_events evs) = true
    /\ (attached_consistent world_bound -> attached_consistent w')
    /\ exists r, last evs = Some (EvRecv (event_fd (hdl world_bound)) r)
                 /\ r <> 16.
Proof.
  do 2 eexists. split; [vm_compute; reflexivity|]. split; [reflexivity|].
  eapply (monitor_thread_run 1 2 4 8 16 16 [turn_event; turn_short]
            world_bound); [reflexivity|vm_compute; reflexivity].
Defined.

(** X14. Whatever the mask of the event and the values of the five event
    bits, the text [event2string] builds has at most 126 characters: with
    its final zero byte it fits the 256 bytes the monitor thread gives
    it. *)
Theorem event2string_fits_buffer :
  forall added changed removed battery volume mask,
    (String.length
       (event2string added changed removed battery volume mask) <= 126)%nat.
Proof.
  intros added changed removed battery volume mask.
  unfold event2string, EVENT_CASE.
  destruct (Z.land mask added =? added),
    (Z.land mask changed =? changed),
    (Z.land mask removed =? removed),
    (Z.land mask battery =? battery),
    (Z.land mask volume =? volume);
    vm_compute; lia.
Qed.

End MonitorExtra.

(** ** More properties of the PCM streaming core *)

Module PcmExtra.
Import Pcm PcmFacts.

#[local] Arguments ulong : simpl never.
#[local] Arguments advance : simpl never.
#[local] Arguments period_frames : simpl never.
#[local] Arguments SENTINEL : simpl never.
#[local] Arguments slong : simpl never.
#[local] Arguments uint : simpl never.

Ltac run_callback :=
  unfold bluealsa_proxy_start, bluealsa_proxy_stop, bluealsa_proxy_pointer,
    bluealsa_proxy_close, bluealsa_proxy_hw_params, bluealsa_proxy_dump,
    bluealsa_proxy_poll_descriptors_count, bluealsa_proxy_poll_descriptors,
    bluealsa_proxy_hw_free, bluealsa_proxy_sw_params,
    bluealsa_proxy_prepare, bluealsa_proxy_drain, bluealsa_proxy_pause,
    bluealsa_proxy_delay, delay_refresh_due, bluealsa_proxy_poll_revents,
    forget;
  run_pcm.







(** The number of frames of a period when the ring holds whole periods. *)
Lemma whole_period p :
  0 < period_size (io p) ->
  0 <= io_ptr p < buffer_size (io p) ->
  buffer_size (io p) < 2 ^ 64 ->
  (period_size (io p) | buffer_size (io p)) ->
  (period_size (io p) | io_ptr p) ->
  period_frames p = period_size (io p).
Proof.
  intros Hp Hr Hb [kb Hkb] [ki Hki].
  destruct (advance_io_ptr p Hr Hb ltac:(lia)) as [-> _].
  apply Z.min_l.
  assert (Hpos : 0 < (kb - ki) * period_size (io p)) by lia.
  assert (Hk : 1 <= kb - ki) by nia.
  nia.
Qed.

Lemma periods_ring :
  forall turns rv w outs w' evs,
    io_thread_periods turns rv w = Some (outs, w', evs) ->
    Forall (eq Published) outs ->
    0 < period_size (io (pcm w)) ->
    0 <= io_ptr (pcm w) < buffer_size (io (pcm w)) ->
    buffer_size (io (pcm w)) < 2 ^ 64 ->
    (period_size (io (pcm w)) | buffer_size (io (pcm w))) ->
    (period_size (io (pcm w)) | io_ptr (pcm w)) ->
    io (pcm w') = io (pcm w)
    /\ frame_size (pcm w') = frame_size (pcm w)
    /\ io_ptr (pcm w')
       = (io_ptr (pcm w) + Z.of_nat (length outs) * period_size (io (pcm w)))
         mod buffer_size (io (pcm w))
    /\ bytes_moved evs
       = Z.of_nat (length outs)
         * ulong (period_size (io (pcm w)) * frame_size (pcm w))
    /\ event_counter w' = event_counter w + Z.of_nat (length outs).
Proof.
  induction turns as [|results rest IH];
    intros rv w outs w' evs H Hall Hp Hr Hb Hdb Hdi; simpl in H.
  { inversion H; subst. simpl.
    rewrite Z.add_0_r, Z.mod_small by lia. repeat split; lia. }
  unfold bind in H.
  destruct (io_thread_period results rv w) as [[[out w1] evs1]|] eqn:H1;
    [|discriminate H].
  destruct out; simpl in H.
  - destruct (io_thread_periods rest rv w1) as [[[outs2 w2] evs2]|] eqn:H2;
      [|discriminate H].
    simpl in H. inversion H; subst. clear H.
    inversion Hall as [|? ? _ Hall2]; subst.
    apply period_spec in H1.
    destruct H1 as [(_ & Hpcm & Hcnt & Hbytes & _) _].
    pose proof (whole_period (pcm w) Hp Hr Hb Hdb Hdi) as Hfr.
    destruct (advance_io_ptr (pcm w) Hr Hb ltac:(lia)) as [_ Hadv].
    pose proof (advance_io_ptr_divide (pcm w) Hr Hb ltac:(lia) Hdi) as Hdiv.
    rewrite Hfr in *.
    assert (Hio : io (pcm w1) = io (pcm w)) by (rewrite Hpcm; reflexivity).
    assert (Hfs : frame_size (pcm w1) = frame_size (pcm w))
      by (rewrite Hpcm; reflexivity).
    assert (Hptr : io_ptr (pcm w1)
                   = (io_ptr (pcm w) + period_size (io (pcm w)))
                     mod buffer_size (io (pcm w)))
      by (rewrite Hpcm; simpl; exact Hadv).
    destruct (IH rv w1 outs2 w' evs2 H2 Hall2) as (Hio' & Hfs' & Hp' & Hb' & Hc');
      rewrite ?Hio, ?Hptr; auto.
    { apply Z.mod_pos_bound. lia. }
    { rewrite <- Hadv. exact Hdiv. }
    rewrite Hio, Hfs, Hptr in *.
    split; [exact Hio'|]. split; [exact Hfs'|].
    split.
    + rewrite Hp'. rewrite Zplus_mod_idemp_l. f_equal.
      change (length (Published :: outs2)) with (S (length outs2)). lia.
    + split.
      * rewrite app_nil_r, bytes_moved_app, Hbytes, Hb'.
        change (length (Published :: outs2)) with (S (length outs2)). lia.
      * rewrite Hc', Hcnt.
        change (length (Published :: outs2)) with (S (length outs2)). lia.
  - destruct (io_thread_periods rest rv w1) as [[[outs2 w2] evs2]|];
      [|discriminate H].
    simpl in H. inversion H; subst.
    inversion Hall as [|? ? Hx _]; discriminate Hx.
  - inversion H; subst. inversion Hall as [|? ? Hx _]; discriminate Hx.
  - inversion H; subst. inversion Hall as [|? ? Hx _]; discriminate Hx.
Qed.

(** X16. The ring of the IO thread holds whole periods: when the buffer
    size is a multiple of the period size and the position starts on a
    period, a run of turns that all publish moves exactly one period of
    bytes per turn, adds one to the event counter per turn, and leaves the
    position at the start plus the periods done, modulo the buffer size;
    after as many turns as the buffer has periods the position is back
    where it started. *)
Theorem periods_go_round_the_ring :
  forall turns rv w outs w' evs,
    io_thread_periods turns rv w = Some (outs, w', evs) ->
    Forall (eq Published) outs ->
    0 < period_size (io (pcm w)) ->
    0 <= io_ptr (pcm w) < buffer_size (io (pcm w)) ->
    buffer_size (io (pcm w)) < 2 ^ 64 ->
    (period_size (io (pcm w)) | buffer_size (io (pcm w))) ->
    (period_size (io (pcm w)) | io_ptr (pcm w)) ->
    io_ptr (pcm w')
    = (io_ptr (pcm w) + Z.of_nat (length outs) * period_size (io (pcm w)))
      mod buffer_size (io (pcm w))
    /\ bytes_moved evs
       = Z.of_nat (length outs)
         * ulong (period_size (io (pcm w)) * frame_size (pcm w))
    /\ event_counter w' = event_counter w + Z.of_nat (length outs)
    /\ (Z.of_nat (length outs) * period_size (io (pcm w))
        = buffer_size (io (pcm w)) ->
        io_ptr (pcm w') = io_ptr (pcm w)).
Proof.
  intros turns rv w outs w' evs H Hall Hp Hr Hb Hdb Hdi.
  destruct (periods_ring turns rv w outs w' evs H Hall Hp Hr Hb Hdb Hdi)
    as (_ & _ & Hptr & Hbytes & Hcnt).
  repeat split; auto.
  intros Hfull. rewrite Hptr, Hfull.
  rewrite <- (Z.mul_1_l (buffer_size (io (pcm w)))) at 1.
  rewrite Z.mod_add by lia. apply Z.mod_small. exact Hr.
Qed.


Lemma periods_go_round_the_ring_witness :
  exists w' evs,
    io_thread_periods turns_five 0 world_capture
    = Some (published_five, w', evs)
    /\ io_ptr (pcm w')
       = (io_ptr (pcm world_capture)
          + Z.of_nat (length published_five)
            * period_size (io (pcm world_capture)))
         mod buffer_size (io (pcm world_capture))
    /\ bytes_moved evs
       = Z.of_nat (length published_five)
         * ulong (period_size (io (pcm world_capture))
                  * frame_size (pcm world_capture))
    /\ event_counter w'
       = event_counter world_capture + Z.of_nat (length published_five)
    /\ (Z.of_nat (length published_five)
        * period_size (io (pcm world_capture))
        = buffer_size (io (pcm world_capture)) ->
        io_ptr (pcm w') = io_ptr (pcm world_capture)).
Proof.
  do 2 eexists. split; [vm_compute; reflexivity|].
  eapply (periods_go_round_the_ring turns_five 0 world_capture
            published_five).
  - vm_compute. reflexivity.
  - repeat constructor.
  - reflexivity.
  - split; [discriminate|reflexivity].
  - reflexivity.
  - exists 5. reflexivity.
  - exists 0. reflexivity.
Defined.


(** X17. Every run of the period loop that comes to an end is a series of
    turns that publish or under-run, followed by one turn that leaves the
    loop.  When the thread returns, the fatal marker is written to the
    event descriptor exactly once in the whole run, as the last event, and
    the counter has gained one per turn before plus the marker; when the
    loop is left for the wait of the FIFO the marker is not written at
    all. *)
Theorem loop_writes_marker_once_at_exit :
  forall turns rv w outs w' evs,
    io_thread_loop turns rv w = Some (outs, w', evs) ->
    exists body out,
      outs = body ++ [out]
      /\ forallb stays_in_loop body = true
      /\ stays_in_loop out = false
      /\ event_fd (pcm w') = event_fd (pcm w)
      /\ match out with
         | Exited =>
           eventfd_writes SENTINEL evs = 1%nat
           /\ last evs = Some (EvEventfdWrite (event_fd (pcm w)) SENTINEL)
           /\ event_counter w'
              = event_counter w + Z.of_nat (length body) + SENTINEL
         | _ =>
           eventfd_writes SENTINEL evs = O
           /\ event_counter w' = event_counter w + Z.of_nat (length body)
         end.
Proof.
  induction turns as [|results rest IH]; intros rv w outs w' evs H;
    [discriminate H|].
  simpl in H. unfold bind in H.
  destruct (io_thread_period results rv w) as [[[out w1] evs1]|] eqn:H1;
    [|discriminate H].
  apply period_spec in H1. destruct H1 as [Hpost _].
  assert (Hstay :
    stays_in_loop out = true ->
    event_fd (pcm w1) = event_fd (pcm w)
    /\ event_counter w1 = event_counter w + 1
    /\ eventfd_writes SENTINEL evs1 = O).
  { destruct out; try discriminate; intros _;
      destruct Hpost as (_ & Hpost).
    - destruct Hpost as (Hp & Hc & _ & Hs & _).
      rewrite Hp. auto.
    - destruct Hpost as (_ & _ & Hp & Hc & ->).
      rewrite Hp. auto. }
  assert (Hcont :
    stays_in_loop out = true ->
    forall outs2 w2 evs2,
      io_thread_loop rest rv w1 = Some (outs2, w2, evs2) ->
      outs = out :: outs2 -> w' = w2 -> evs = evs1 ++ evs2 ->
      exists body out0,
        outs = body ++ [out0]
        /\ forallb stays_in_loop body = true
        /\ stays_in_loop out0 = false
        /\ event_fd (pcm w') = event_fd (pcm w)
        /\ match out0 with
           | Exited =>
             eventfd_writes SENTINEL evs = 1%nat
             /\ last evs = Some (EvEventfdWrite (event_fd (pcm w)) SENTINEL)
             /\ event_counter w'
                = event_counter w + Z.of_nat (length body) + SENTINEL
           | _ =>
             eventfd_writes SENTINEL evs = O
             /\ event_counter w' = event_counter w + Z.of_nat (length body)
           end).
  { intros Hs outs2 w2 evs2 H2 -> -> ->.
    destruct (Hstay Hs) as (Hfd & Hc & Hz).
    destruct (IH rv w1 outs2 w2 evs2 H2)
      as (body & out0 & -> & Hbody & Hout & Hfd2 & Hlast).
    exists (out :: body), out0.
    split; [reflexivity|]. simpl. rewrite Hs, Hbody.
    split; [reflexivity|]. split; [exact Hout|].
    split; [congruence|].
    rewrite eventfd_writes_app, Hz. rewrite Hfd, Hc in Hlast.
    destruct out0; try (destruct Hlast as (Hw & Hcnt); split; [exact Hw|lia]).
    destruct Hlast as (Hw & Hl & Hcnt).
    split; [exact Hw|]. split; [rewrite last_app, Hl; reflexivity|lia]. }
  destruct out; simpl in H.
  - destruct (io_thread_loop rest rv w1) as [[[outs2 w2] evs2]|] eqn:H2;
      [|discriminate H].
    simpl in H. inversion H; subst. rewrite app_nil_r in *.
    apply (Hcont eq_refl outs2 w' evs2); reflexivity.
  - destruct (io_thread_loop rest rv w1) as [[[outs2 w2] evs2]|] eqn:H2;
      [|discriminate H].
    simpl in H. inversion H; subst. rewrite app_nil_r in *.
    apply (Hcont eq_refl outs2 w' evs2); reflexivity.
  - inversion H; subst. rewrite app_nil_r.
    destruct Hpost as (_ & _ & Hp & Hc & Hs).
    exists [], WaitPcmFd. simpl. rewrite Hp.
    repeat split; auto. lia.
  - inversion H; subst. rewrite app_nil_r.
    destruct Hpost as (_ & Hp & Hc & pre & -> & Hs).
    exists [], Exited. simpl.
    split; [reflexivity|]. split; [reflexivity|]. split; [reflexivity|].
    split; [rewrite Hp; destruct (transport (pcm w)); reflexivity|].
    split; [rewrite eventfd_writes_app, Hs; simpl;
            rewrite ?Z.eqb_refl; reflexivity|].
    split; [apply last_snoc|lia].
Qed.


Lemma loop_writes_marker_once_at_exit_witness :
  exists w' evs,
    io_thread_loop [[SysData 3840]; [SysErr 32]] 0 world_playback_fed
    = Some ([Published; Exited], w', evs)
    /\ exists body out,
         [Published; Exited] = body ++ [out]
         /\ forallb stays_in_loop body = true
         /\ stays_in_loop out = false
         /\ event_fd (pcm w') = event_fd (pcm world_playback_fed)
         /\ match out with
            | Exited =>
              eventfd_writes SENTINEL evs = 1%nat
              /\ last evs
                 = Some (EvEventfdWrite (event_fd (pcm world_playback_fed))
                           SENTINEL)
              /\ event_counter w'
                 = event_counter world_playback_fed
                   + Z.of_nat (length body) + SENTINEL
            | _ =>
              eventfd_writes SENTINEL evs = O
              /\ event_counter w'
                 = event_counter world_playback_fed + Z.of_nat (length body)
            end.
Proof.
  do 2 eexists. split; [vm_compute; reflexivity|].
  eapply (loop_writes_marker_once_at_exit [[SysData 3840]; [SysErr 32]] 0
            world_playback_fed).
  vm_compute. reflexivity.
Defined.


Lemma land_small_sentinel k :
  0 <= k < 2 ^ 16 -> Z.land k SENTINEL = 0.
Proof.
  intros Hk.
  rewrite <- (Z.mod_small k (2 ^ 16)) by exact Hk.
  rewrite <- Z.land_ones by lia.
  rewrite <- Z.land_assoc.
  replace (Z.land (Z.ones 16) SENTINEL) with 0 by reflexivity.
  apply Z.land_0_r.
Qed.

Lemma land_marker_plus k :
  0 <= k < 2 ^ 16 -> Z.land (SENTINEL + k) SENTINEL = SENTINEL.
Proof.
  intros Hk.
  pose proof (land_small_sentinel k Hk) as H0.
  rewrite Z.land_comm in H0.
  rewrite (Z.add_nocarry_lxor _ _ H0), (Z.lxor_lor _ _ H0).
  rewrite Z.land_lor_distr_l, Z.land_diag, (Z.land_comm k), H0.
  apply Z.lor_0_r.
Qed.

(** X18. [bluealsa_proxy_poll_revents] tells the fatal marker from the
    notifications of periods as long as fewer than 65536 of them are
    pending in the event counter.  With the FIFO open and the event
    descriptor readable: a counter that holds the marker and [k] pending
    notifications gives -ENODEV with POLLERR|POLLHUP; a counter of [k] > 0
    notifications alone gives 0, with the event of the stream direction
    or no event when nothing is available; in both cases the counter is
    reset.  The bound is sharp: 65536 pending notifications alone are taken
    for the marker. *)
Theorem marker_told_from_pending_periods :
  forall k pfd_revents revents avail w,
    0 <= k < 2 ^ 16 ->
    pcm_fd (pcm w) <> -1 ->
    Z.land pfd_revents POLLIN <> 0 ->
    (event_counter w = SENTINEL + k ->
     exists w',
       bluealsa_proxy_poll_revents 1 pfd_revents revents avail w
       = Some ((- ENODEV, Z.lor POLLERR POLLHUP), w',
               [EvEventfdRead (event_fd (pcm w)) (SENTINEL + k)])
       /\ event_counter w' = 0)
    /\ (event_counter w = k -> 0 < k ->
        exists w',
          bluealsa_proxy_poll_revents 1 pfd_revents revents avail w
          = Some ((0, if avail =? 0 then 0
                      else match stream (io (pcm w)) with
                           | SND_PCM_STREAM_CAPTURE => POLLIN
                           | SND_PCM_STREAM_PLAYBACK => POLLOUT
                           end),
                  w', [EvEventfdRead (event_fd (pcm w)) k])
          /\ event_counter w' = 0)
    /\ (event_counter w = 2 ^ 16 ->
        exists w',
          bluealsa_proxy_poll_revents 1 pfd_revents revents avail w
          = Some ((- ENODEV, Z.lor POLLERR POLLHUP), w',
                  [EvEventfdRead (event_fd (pcm w)) (2 ^ 16)])).
Proof.
  intros k pfd_revents revents avail w Hk Hfd Hin.
  apply Z.eqb_neq in Hfd, Hin.
  assert (HS : SENTINEL = 3735879680) by reflexivity.
  split; [|split].
  - intros Hc. run_callback. rewrite Hfd, Hin. simpl. rewrite Hc.
    destruct (SENTINEL + k =? 0) eqn:Hz; [apply Z.eqb_eq in Hz; lia|].
    simpl. rewrite (land_marker_plus k Hk).
    eexists. split; reflexivity.
  - intros Hc Hpos. run_callback. rewrite Hfd, Hin. simpl. rewrite Hc.
    destruct (k =? 0) eqn:Hz; [apply Z.eqb_eq in Hz; lia|].
    simpl. rewrite (land_small_sentinel k Hk). simpl.
    destruct (avail =? 0); eexists; split; reflexivity.
  - intros Hc. run_callback. rewrite Hfd, Hin. simpl. rewrite Hc.
    eexists. reflexivity.
Qed.

Lemma marker_told_from_pending_periods_witness :
  (exists w',
     bluealsa_proxy_poll_revents 1 POLLIN 0 960
       {| pcm := pcm_playback; event_counter := SENTINEL + 3;
          sigio_pending := false; counter := 0 |}
     = Some ((- ENODEV, Z.lor POLLERR POLLHUP), w',
             [EvEventfdRead (event_fd pcm_playback) (SENTINEL + 3)])
     /\ event_counter w' = 0)
  /\ (exists w',
        bluealsa_proxy_poll_revents 1 POLLIN 0 960
          {| pcm := pcm_playback; event_counter := 3;
             sigio_pending := false; counter := 0 |}
        = Some ((0, POLLOUT), w', [EvEventfdRead (event_fd pcm_playback) 3])
        /\ event_counter w' = 0).
Proof.
  split.
  - apply (proj1 (marker_told_from_pending_periods 3 POLLIN 0 960
                    {| pcm := pcm_playback; event_counter := SENTINEL + 3;
                       sigio_pending := false; counter := 0 |}
                    ltac:(lia) ltac:(discriminate) ltac:(discriminate))).
    reflexivity.
  - apply (proj1 (proj2 (marker_told_from_pending_periods 3 POLLIN 0 960
                    {| pcm := pcm_playback; event_counter := 3;
                       sigio_pending := false; counter := 0 |}
                    ltac:(lia) ltac:(discriminate) ltac:(discriminate))));
      [reflexivity|lia].
Defined.



(** X20. [bluealsa_proxy_stop] always returns 0 and cancels the IO thread
    at most once: it cancels it exactly when the stream is started, leaves
    the stream not started, and a second stop does nothing.  The state of
    the host, the ring positions and the descriptors are never touched. *)
Theorem stop_cancels_thread_once :
  forall w,
    exists w1,
      bluealsa_proxy_stop w
      = Some (0, w1, if io_started (pcm w) then [EvCancel] else [])
      /\ pcm w1 = set_io_started false (pcm w)
      /\ event_counter w1 = event_counter w
      /\ bluealsa_proxy_stop w1 = Some (0, w1, []).
Proof.
  intros w. run_callback.
  destruct (pcm w) as [i f e tr bs pf ip started d dx fs hb hp] eqn:Hp.
  destruct started; simpl.
  - eexists. split; [reflexivity|]. simpl. rewrite Hp.
    repeat split.
  - eexists. split; [reflexivity|]. rewrite Hp. simpl.
    repeat split.
Qed.

(** X21. After [bluealsa_proxy_hw_free] on a stream that has a transport,
    the FIFO is closed and forgotten ([pcm_fd] is -1) whatever the daemon
    answers, and the callbacks that need it report -ENODEV without any
    effect: [pointer], [delay] (which stores no delay) and [poll_revents]
    (which neither reads the event counter nor sets the events). *)
Theorem hw_free_then_no_device :
  forall rv errno w,
    transport (pcm w) <> None ->
    exists r w1,
      bluealsa_proxy_hw_free rv errno w
      = Some (r, w1, [EvCloseTransport (fd (pcm w));
                      EvClose (pcm_fd (pcm w))])
      /\ r = (if rv =? -1 then - errno else 0)
      /\ pcm w1 = set_pcm_fd (-1) (pcm w)
      /\ bluealsa_proxy_pointer w1 = Some (- ENODEV, w1, [])
      /\ (forall fionread daemon_delay,
             bluealsa_proxy_delay fionread daemon_delay w1
             = Some ((- ENODEV, None), w1, []))
      /\ (forall pfd_revents revents avail,
             bluealsa_proxy_poll_revents 1 pfd_revents revents avail w1
             = Some ((- ENODEV, revents), w1, [])).
Proof.
  intros rv errno w Ht. run_callback.
  destruct (transport (pcm w)) as [t|]; [|contradiction]. simpl.
  destruct (rv =? -1); simpl; do 2 eexists; (split; [reflexivity|]);
    simpl; repeat split.
Qed.

Lemma hw_free_then_no_device_witness :
  exists r w1,
    bluealsa_proxy_hw_free 0 0 world_playback
    = Some (r, w1, [EvCloseTransport (fd (pcm world_playback));
                    EvClose (pcm_fd (pcm world_playback))])
    /\ r = (if 0 =? -1 then - 0 else 0)
    /\ pcm w1 = set_pcm_fd (-1) (pcm world_playback)
    /\ bluealsa_proxy_pointer w1 = Some (- ENODEV, w1, [])
    /\ (forall fionread daemon_delay,
           bluealsa_proxy_delay fionread daemon_delay w1
           = Some ((- ENODEV, None), w1, []))
    /\ (forall pfd_revents revents avail,
           bluealsa_proxy_poll_revents 1 pfd_revents revents avail w1
           = Some ((- ENODEV, revents), w1, [])).
Proof.
  apply (hw_free_then_no_device 0 0 world_playback). discriminate.
Defined.


Lemma same_stream_setup_refl p : same_stream_setup p p.
Proof.
  unfold same_stream_setup. repeat split; auto.
  destruct (io p); reflexivity.
Qed.

Lemma same_stream_setup_trans p1 p2 p3 :
  same_stream_setup p1 p2 -> same_stream_setup p2 p3 ->
  same_stream_setup p1 p3.
Proof.
  unfold same_stream_setup.
  intros (Ha & Hb & Hc & Hd & He & Hf) (Ha' & Hb' & Hc' & Hd' & He' & Hf').
  repeat split; try congruence.
  - rewrite He', He. reflexivity.
  - destruct Hf' as [Hf'|Hf']; [rewrite Hf'; exact Hf|right; exact Hf'].
Qed.

Ltac setup_done :=
  unfold same_stream_setup; simpl;
  repeat split; auto;
  match goal with
  | |- context [io (pcm ?w)] => destruct (io (pcm w)); reflexivity
  end.

Lemma run_call_keeps_setup :
  forall c w w' evs,
    run_call c w = Some (tt, w', evs) ->
    same_stream_setup (pcm w) (pcm w').
Proof.
  intros c w w' evs H.
  destruct c; simpl in H.
  - unfold forget, bind in H.
    destruct (io_thread_period results rv w) as [[[o w1] t1]|] eqn:Hp;
      [|discriminate H].
    simpl in H. inversion H; subst.
    apply period_spec in Hp. destruct Hp as [(_ & Hpost) _].
    destruct o.
    + destruct Hpost as (-> & _). setup_done.
    + destruct Hpost as (_ & _ & -> & _). setup_done.
    + destruct Hpost as (_ & -> & _). apply same_stream_setup_refl.
    + destruct Hpost as (Hpcm & _). rewrite Hpcm.
      destruct (transport (pcm w)) eqn:Ht.
      * unfold same_stream_setup. simpl. rewrite Ht.
        repeat split; auto. destruct (io (pcm w)); reflexivity.
      * apply same_stream_setup_refl.
  - run_callback_in H. crush_calls; setup_done.
  - run_callback_in H. crush_calls; setup_done.
  - run_callback_in H. crush_calls; setup_done.
  - run_callback_in H. crush_calls; setup_done.
  - run_callback_in H. crush_calls; setup_done.
  - run_callback_in H. crush_calls; setup_done.
  - run_callback_in H. crush_calls; setup_done.
  - run_callback_in H. crush_calls; setup_done.
  - run_callback_in H. crush_calls; setup_done.
  - run_callback_in H. crush_calls; setup_done.
  - run_callback_in H. crush_calls; setup_done.
  - run_callback_in H. crush_calls; setup_done.
  - run_callback_in H. crush_calls; setup_done.
  - run_callback_in H. crush_calls; setup_done.
  - run_callback_in H. crush_calls; setup_done.
Qed.

(** X22. Whatever sequence of callbacks of the host and turns of the
    period loop runs, the plug-in keeps its control socket, its event
    descriptor, its pointer to the transport and the extra delay, and of
    the structure of the host it writes the state only: stream direction,
    application and hardware pointers, sizes, rate and channels are what
    they were.  The descriptor of the FIFO is what it was or -1. *)
Theorem calls_keep_stream_setup :
  forall cs w w' evs,
    run_calls cs w = Some (tt, w', evs) ->
    same_stream_setup (pcm w) (pcm w').
Proof.
  induction cs as [|c cs IH]; intros w w' evs H; simpl in H.
  - inversion H; subst. apply same_stream_setup_refl.
  - unfold bind in H.
    destruct (run_call c w) as [[[[] w1] t1]|] eqn:Hcall; [|discriminate H].
    destruct (run_calls cs w1) as [[[[] w2] t2]|] eqn:Hrest; [|discriminate H].
    inversion H; subst.
    eapply same_stream_setup_trans.
    + eapply run_call_keeps_setup. exact Hcall.
    + eapply IH. exact Hrest.
Qed.

Lemma calls_keep_stream_setup_witness :
  exists w' evs,
    run_calls calls_playback world_playback_fed = Some (tt, w', evs)
    /\ same_stream_setup (pcm world_playback_fed) (pcm w').
Proof.
  do 2 eexists. split; [vm_compute; reflexivity|].
  eapply (calls_keep_stream_setup calls_playback world_playback_fed).
  vm_compute. reflexivity.
Defined.


(** X23. [bluealsa_proxy_hw_params] with the 16-bit samples the plug-in
    accepts and fewer than 2^28 channels returns 0 and sets the frame size
    to twice the number of channels, leaving the ring position as it is.
    A playback stream gets one notification on the event descriptor and a
    request for a FIFO of 2048 bytes; a capture stream gets neither.  A
    turn of the period loop that publishes after it moves the frames of
    the period times two bytes per channel. *)
Theorem hw_params_frame_is_two_bytes_per_channel :
  forall pipe_sz w,
    0 <= channels (io (pcm w)) < 2 ^ 28 ->
    exists w1 evs,
      bluealsa_proxy_hw_params 16 pipe_sz w = Some (0, w1, evs)
      /\ frame_size (pcm w1) = 2 * channels (io (pcm w))
      /\ io (pcm w1) = io (pcm w)
      /\ io_ptr (pcm w1) = io_ptr (pcm w)
      /\ (stream (io (pcm w)) = SND_PCM_STREAM_PLAYBACK ->
          event_counter w1 = event_counter w + 1
          /\ evs = [EvEventfdWrite (event_fd (pcm w)) 1;
                    EvSetPipeSize (pcm_fd (pcm w)) 2048])
      /\ (stream (io (pcm w)) = SND_PCM_STREAM_CAPTURE ->
          event_counter w1 = event_counter w /\ evs = [])
      /\ (forall results rv w2 evs2,
             io_thread_period results rv w1 = Some (Published, w2, evs2) ->
             bytes_moved evs2
             = ulong (period_frames (pcm w) * (2 * channels (io (pcm w))))).
Proof.
  intros pipe_sz w Hc.
  assert (Hfs : uint (16 * channels (io (pcm w))) / 8
                = 2 * channels (io (pcm w))).
  { unfold uint. rewrite Z.mod_small by lia.
    replace (16 * channels (io (pcm w)))
      with (2 * channels (io (pcm w)) * 8) by lia.
    apply Z.div_mul. lia. }
  assert (Hthen :
    forall w1,
      frame_size (pcm w1) = 2 * channels (io (pcm w)) ->
      io (pcm w1) = io (pcm w) ->
      io_ptr (pcm w1) = io_ptr (pcm w) ->
      forall results rv w2 evs2,
        io_thread_period results rv w1 = Some (Published, w2, evs2) ->
        bytes_moved evs2
        = ulong (period_frames (pcm w) * (2 * channels (io (pcm w))))).
  { intros w1 H1 H2 H3 results rv w2 evs2 H.
    apply period_spec in H. destruct H as [(_ & _ & _ & Hb & _) _].
    rewrite Hb, H1. unfold period_frames. rewrite H2, H3. reflexivity. }
  unfold bluealsa_proxy_hw_params, eventfd_write, modify_pcm, get_pcm, emit,
    bind, ret.
  simpl.
  destruct (stream (io (pcm w))) eqn:Hs; simpl;
    do 2 eexists; (split; [reflexivity|]); simpl;
    (split; [exact Hfs|]); (split; [reflexivity|]); (split; [reflexivity|]);
    (split; [intros; try discriminate; split; reflexivity|]);
    (split; [intros; try discriminate; split; reflexivity|]);
    apply Hthen; simpl; auto.
Qed.

Lemma hw_params_frame_is_two_bytes_per_channel_witness :
  exists w1 evs,
    bluealsa_proxy_hw_params 16 4096 world_capture = Some (0, w1, evs)
    /\ frame_size (pcm w1) = 2 * channels (io (pcm world_capture))
    /\ io (pcm w1) = io (pcm world_capture)
    /\ io_ptr (pcm w1) = io_ptr (pcm world_capture)
    /\ (stream (io (pcm world_capture)) = SND_PCM_STREAM_PLAYBACK ->
        event_counter w1 = event_counter world_capture + 1
        /\ evs = [EvEventfdWrite (event_fd (pcm world_capture)) 1;
                  EvSetPipeSize (pcm_fd (pcm world_capture)) 2048])
    /\ (stream (io (pcm world_capture)) = SND_PCM_STREAM_CAPTURE ->
        event_counter w1 = event_counter world_capture /\ evs = [])
    /\ (forall results rv w2 evs2,
           io_thread_period results rv w1 = Some (Published, w2, evs2) ->
           bytes_moved evs2
           = ulong (period_frames (pcm world_capture)
                    * (2 * channels (io (pcm world_capture))))).
Proof.
  apply (hw_params_frame_is_two_bytes_per_channel 4096 world_capture).
  split; [discriminate|reflexivity].
Defined.


Lemma tolower_idem c : tolower (tolower c) = tolower c.
Proof.
  destruct c as [[] [] [] [] [] [] [] []]; reflexivity.
Qed.

Lemma lower_idem s : lower (lower s) = lower s.
Proof.
  induction s as [|c s IH]; simpl; [reflexivity|].
  rewrite tolower_idem, IH. reflexivity.
Qed.

Lemma lower_length s : String.length (lower s) = String.length s.
Proof.
  induction s as [|c s IH]; simpl; [reflexivity|].
  rewrite IH. reflexivity.
Qed.

Lemma strcasecmp_eq_lower a b :
  strcasecmp_eq a b = String.eqb (lower a) (lower b).
Proof.
  revert b. induction a as [|x a IH]; intros [|y b]; simpl; try reflexivity.
  rewrite IH. reflexivity.
Qed.

(** X24. [bluealsa_proxy_parse_profile] does not look at the case of the
    letters: a text and its lower-case form give the same type, A2DP
    exactly for the texts that read a2dp in lower case and SCO exactly for
    those that read sco.  A text that is accepted is shorter than the 16
    bytes of the field [profile], so that the copy [strncpy] makes of it
    ends with a zero byte. *)
Theorem parse_profile_ignores_case :
  forall s,
    bluealsa_proxy_parse_profile (Some (lower s))
    = bluealsa_proxy_parse_profile (Some s)
    /\ (bluealsa_proxy_parse_profile (Some s) = PCM_TYPE_A2DP
        <-> lower s = "a2dp"%string)
    /\ (bluealsa_proxy_parse_profile (Some s) = PCM_TYPE_SCO
        <-> lower s = "sco"%string)
    /\ (bluealsa_proxy_parse_profile (Some s) <> PCM_TYPE_NULL ->
        (String.length s < PROFILE_STR_MAXLEN)%nat
        /\ strncpy s PROFILE_STR_MAXLEN = Some s).
Proof.
  intros s. unfold bluealsa_proxy_parse_profile.
  rewrite !strcasecmp_eq_lower, lower_idem.
  change (lower "a2dp") with "a2dp"%string.
  change (lower "sco") with "sco"%string.
  split; [reflexivity|].
  destruct (String.eqb (lower s) "a2dp") eqn:Ha.
  - apply String.eqb_eq in Ha.
    split; [tauto|]. split; [split; [discriminate|]|].
    + intros H. rewrite H in Ha. discriminate Ha.
    + intros _. pose proof (lower_length s) as Hl. rewrite Ha in Hl.
      simpl in Hl. unfold strncpy, PROFILE_STR_MAXLEN. rewrite <- Hl.
      split; [lia|reflexivity].
  - apply String.eqb_neq in Ha.
    split; [split; [|contradiction]|].
    { destruct (String.eqb (lower s) "sco"); discriminate. }
    destruct (String.eqb (lower s) "sco") eqn:Hs.
    + apply String.eqb_eq in Hs.
      split; [tauto|]. intros _.
      pose proof (lower_length s) as Hl. rewrite Hs in Hl.
      simpl in Hl. unfold strncpy, PROFILE_STR_MAXLEN. rewrite <- Hl.
      split; [lia|reflexivity].
    + apply String.eqb_neq in Hs.
      split; [split; [discriminate|contradiction]|].
      intros H. contradiction H. reflexivity.
Qed.


Ltac ltb_hyps :=
  repeat match goal with
  | H : (_ <? _) = true |- _ => apply Z.ltb_lt in H
  | H : (_ <? _) = false |- _ => apply Z.ltb_ge in H
  end.

Ltac below_seven k :=
  destruct k as [|[|[|[|[|[|[|k]]]]]]]; try lia; try assumption.

Lemma hw_constraint_run :
  forall sampling channels err s,
    exists r evs,
      bluealsa_proxy_set_hw_constraint sampling channels err s
      = Some (r, s, evs)
      /\ ((r = 0 /\ (forall k, (k < 7)%nat -> 0 <= err k)
           /\ evs = hw_constraints sampling channels)
          \/ (r < 0
              /\ exists k,
                   (k < 7)%nat /\ r = err k
                   /\ (forall j, (j < k)%nat -> 0 <= err j)
                   /\ evs = firstn (S k) (hw_constraints sampling channels))).
Proof.
  intros sampling channels err s.
  unfold bluealsa_proxy_set_hw_constraint, or_return, emit, bind, ret.
  destruct (err 0%nat <? 0) eqn:H0; simpl.
  { ltb_hyps. do 2 eexists. split; [reflexivity|]. right.
    split; [exact H0|]. exists 0%nat.
    repeat split; try lia; try reflexivity. }
  destruct (err 1%nat <? 0) eqn:H1; simpl.
  { ltb_hyps. do 2 eexists. split; [reflexivity|]. right.
    split; [exact H1|]. exists 1%nat.
    repeat split; try lia; try reflexivity.
    intros j Hj. below_seven j. }
  destruct (err 2%nat <? 0) eqn:H2; simpl.
  { ltb_hyps. do 2 eexists. split; [reflexivity|]. right.
    split; [exact H2|]. exists 2%nat.
    repeat split; try lia; try reflexivity.
    intros j Hj. below_seven j. }
  destruct (err 3%nat <? 0) eqn:H3; simpl.
  { ltb_hyps. do 2 eexists. split; [reflexivity|]. right.
    split; [exact H3|]. exists 3%nat.
    repeat split; try lia; try reflexivity.
    intros j Hj. below_seven j. }
  destruct (err 4%nat <? 0) eqn:H4; simpl.
  { ltb_hyps. do 2 eexists. split; [reflexivity|]. right.
    split; [exact H4|]. exists 4%nat.
    repeat split; try lia; try reflexivity.
    intros j Hj. below_seven j. }
  destruct (err 5%nat <? 0) eqn:H5; simpl.
  { ltb_hyps. do 2 eexists. split; [reflexivity|]. right.
    split; [exact H5|]. exists 5%nat.
    repeat split; try lia; try reflexivity.
    intros j Hj. below_seven j. }
  destruct (err 6%nat <? 0) eqn:H6; simpl.
  { ltb_hyps. do 2 eexists. split; [reflexivity|]. right.
    split; [exact H6|]. exists 6%nat.
    repeat split; try lia; try reflexivity.
    intros j Hj. below_seven j. }
  ltb_hyps. do 2 eexists. split; [reflexivity|]. left.
  repeat split; try lia; try reflexivity. intros k Hk. below_seven k.
Qed.

(** X25. [bluealsa_proxy_set_hw_constraint] sends these seven requests,
    in this order: the two access modes, the one format, 2 to 1024
    periods, a period of [min_p] to 16 KiB, a buffer of [min_b] to
    16 MiB, the channels of the transport and its rate, each of the last
    two as both bounds.  It stops at the first request the host refuses,
    whose negative result it returns, having sent that request and the
    ones before it and no other; it returns 0 when none is refused, and
    it never touches the stream.  For a rate that is a multiple of
    100 Hz, with no overflow of [unsigned int], the lower bound [min_p]
    it sends for the period is the bytes of 10 ms of 16-bit samples, and
    the lower bound [min_b] it sends for the buffer is twenty times
    that, the bytes of 200 ms. *)
Theorem hw_constraint_first_refusal_and_bounds :
  forall sampling channels err s,
    (exists r evs,
       bluealsa_proxy_set_hw_constraint sampling channels err s
       = Some (r, s, evs)
       /\ ((r = 0 /\ (forall k, (k < 7)%nat -> 0 <= err k)
            /\ evs
               = [ EvSetParamList SND_PCM_IOPLUG_HW_ACCESS 2;
                   EvSetParamList SND_PCM_IOPLUG_HW_FORMAT 1;
                   EvSetParamMinmax SND_PCM_IOPLUG_HW_PERIODS 2 1024;
                   EvSetParamMinmax SND_PCM_IOPLUG_HW_PERIOD_BYTES
                     (min_p sampling channels) 16384;
                   EvSetParamMinmax SND_PCM_IOPLUG_HW_BUFFER_BYTES
                     (min_b sampling channels) 16777216;
                   EvSetParamMinmax SND_PCM_IOPLUG_HW_CHANNELS
                     channels channels;
                   EvSetParamMinmax SND_PCM_IOPLUG_HW_RATE
                     sampling sampling ])
           \/ (r < 0
               /\ exists k,
                    (k < 7)%nat /\ r = err k
                    /\ (forall j, (j < k)%nat -> 0 <= err j)
                    /\ evs
                       = firstn (S k)
                           [ EvSetParamList SND_PCM_IOPLUG_HW_ACCESS 2;
                             EvSetParamList SND_PCM_IOPLUG_HW_FORMAT 1;
                             EvSetParamMinmax SND_PCM_IOPLUG_HW_PERIODS
                               2 1024;
                             EvSetParamMinmax SND_PCM_IOPLUG_HW_PERIOD_BYTES
                               (min_p sampling channels) 16384;
                             EvSetParamMinmax SND_PCM_IOPLUG_HW_BUFFER_BYTES
                               (min_b sampling channels) 16777216;
                             EvSetParamMinmax SND_PCM_IOPLUG_HW_CHANNELS
                               channels channels;
                             EvSetParamMinmax SND_PCM_IOPLUG_HW_RATE
                               sampling sampling ])))
    /\ ((100 | sampling) ->
        0 <= sampling -> sampling * 200 < 2 ^ 32 -> 0 <= channels ->
        sampling / 5 * channels * 2 < 2 ^ 32 ->
        min_p sampling channels = sampling / 100 * channels * 2
        /\ min_b sampling channels = 20 * min_p sampling channels).
Proof.
  intros sampling channels err s.
  split; [exact (hw_constraint_run sampling channels err s)|].
  intros [q Hq] Hs Hs2 Hc Hb. subst sampling.
  assert (Hq0 : 0 <= q) by lia.
  rewrite Z.div_mul in * by lia.
  replace (q * 100 / 5) with (q * 20) in Hb
    by (replace (q * 100) with (q * 20 * 5) by lia;
        rewrite Z.div_mul by lia; reflexivity).
  assert (Hqc : 0 <= q * channels) by nia.
  unfold min_p, min_b.
  replace (q * 100 * 10) with (q * 1000) by lia.
  replace (q * 100 * 200) with (q * 20 * 1000) by lia.
  assert (Hu : forall x, 0 <= x < 2 ^ 32 -> uint x = x)
    by (intros x Hx; unfold uint; apply Z.mod_small; exact Hx).
  rewrite (Hu (q * 1000)) by nia.
  rewrite (Hu (q * 20 * 1000)) by nia.
  rewrite !Z.div_mul by lia.
  rewrite (Hu q) by nia.
  rewrite (Hu (q * 20)) by nia.
  rewrite (Hu (q * channels)) by nia.
  rewrite (Hu (q * channels * 2)) by nia.
  rewrite (Hu (q * 20 * channels)) by nia.
  rewrite (Hu (q * 20 * channels * 2)) by nia.
  split; lia.
Qed.

(** X25 on the transport of the examples, 44100 Hz with two channels:
    the period is bounded below by 1764 bytes and the buffer by 35280. *)
Lemma hw_constraint_first_refusal_and_bounds_witness :
  min_p 44100 2 = 44100 / 100 * 2 * 2
  /\ min_b 44100 2 = 20 * min_p 44100 2.
Proof.
  apply (proj2 (hw_constraint_first_refusal_and_bounds 44100 2
                  (fun _ => 0) plugin_capture)).
  - exists 441. reflexivity.
  - discriminate.
  - reflexivity.
  - discriminate.
  - reflexivity.
Defined.


#[local] Arguments bluealsa_proxy_set_hw_constraint : simpl never.

Lemma last_app_two {A} (l : list A) (a b : A) : last (l ++ [a; b]) = Some b.
Proof. rewrite last_app_cons. reflexivity. Qed.

Lemma closes_app l1 l2 : closes (l1 ++ l2) = closes l1 ++ closes l2.
Proof.
  induction l1 as [|e l1 IH]; simpl; [reflexivity|].
  destruct e as [[]| | | | | | | | |]; simpl; rewrite ?IH; reflexivity.
Qed.

(** The constraints close nothing and delete nothing. *)
Lemma firstn_constraints_quiet n sampling channels :
  closes (firstn n (hw_constraints sampling channels)) = []
  /\ ~ In EvIoplugDelete (firstn n (hw_constraints sampling channels)).
Proof.
  unfold hw_constraints.
  do 8 (destruct n as [|n]; simpl;
        [split; [reflexivity|];
         intros H; repeat (destruct H as [H|H]; [discriminate H|]); exact H|]).
  split; [reflexivity|].
  intros H; repeat (destruct H as [H|H]; [discriminate H|]); exact H.
Qed.

Lemma constraints_quiet sampling channels :
  closes (hw_constraints sampling channels) = []
  /\ ~ In EvIoplugDelete (hw_constraints sampling channels).
Proof. exact (firstn_constraints_quiet 7 sampling channels). Qed.

Lemma open_connection_run :
  forall o s,
    0 < co_open_errno o ->
    0 < co_transport_errno o ->
    0 < co_fifo_errno o ->
    0 < co_pause_errno o ->
    exists r the_pcm' evs,
      open_bluez_connection o (Some s) = Some (r, the_pcm', evs)
      /\ (r = 0 \/ r < 0)
      /\ (r = 0 <-> conn_succeeds o)
      /\ head evs = Some (EvBaOpen (interface s) (co_open o))
      /\ (constraint_refused o ->
          the_pcm' = None
          /\ closes evs = [co_open o; event_fd (pcm (base s))]
          /\ last evs = Some (EvPcm (EvClose (event_fd (pcm (base s)))))
          /\ In EvIoplugDelete evs)
      /\ (~ constraint_refused o ->
          exists s',
            the_pcm' = Some s'
            /\ set_base (base s) s' = s
            /\ fd (pcm (base s')) = co_open o
            /\ closes evs = []
            /\ ~ In EvIoplugDelete evs
            /\ (r = 0 ->
                exists tr sampling channels,
                  co_transport o = Some (tr, sampling, channels)
                  /\ transport (pcm (base s')) = Some tr
                  /\ pcm_fd (pcm (base s')) = co_fifo o
                  /\ last evs
                     = Some (EvPcm (EvPauseTransport (co_open o) false)))
            /\ (co_open o <> -1 -> co_transport o = None ->
                transport (pcm (base s')) = None
                /\ pcm_fd (pcm (base s')) = pcm_fd (pcm (base s)))).
Proof.
  intros o s He1 He2 He3 He4.
  unfold conn_succeeds, constraint_refused, open_bluez_connection,
    snd_pcm_ioplug_delete, bluealsa_proxy_close_plugin, on_the_pcm,
    get_plugin, modify_base, emit, bind, ret.
  destruct s as [b itf a prof t dir lv]. simpl.
  destruct (co_open o =? -1) eqn:Hopen; simpl.
  { apply Z.eqb_eq in Hopen.
    do 3 eexists. split; [reflexivity|]. simpl.
    split; [right; lia|].
    split; [split; [lia|intros (H & _); contradiction]|].
    split; [reflexivity|].
    split; [intros (H & _); contradiction|].
    intros _. eexists. split; [reflexivity|]. simpl.
    split; [reflexivity|]. split; [reflexivity|]. split; [reflexivity|].
    split; [intros [H|[]]; discriminate H|].
    split; [lia|]. intros H; contradiction. }
  apply Z.eqb_neq in Hopen.
  destruct (co_transport o) as [[[tr sa] ch]|] eqn:Htr; simpl.
  2:{ do 3 eexists. split; [reflexivity|]. simpl.
      split; [right; lia|].
      split; [split; [lia|intros (_ & H & _); contradiction]|].
      split; [reflexivity|].
      split; [intros (_ & H & _); contradiction|].
      intros _. eexists. split; [reflexivity|]. simpl.
      split; [reflexivity|]. split; [reflexivity|]. split; [reflexivity|].
      split; [intros [H|[H|[]]]; discriminate H|].
      split; [lia|]. auto. }
  match goal with
  | |- context [bluealsa_proxy_set_hw_constraint sa ch (co_param o) ?s1] =>
    destruct (hw_constraint_run sa ch (co_param o) s1)
      as (r & evs & Heq & Hcases);
    rewrite Heq
  end.
  simpl.
  destruct Hcases as [(-> & Hall & ->)|(Hneg & k & Hk & Hr & Hbefore & ->)].
  - simpl.
    assert (Hnot : ~ (co_open o <> -1 /\ Some (tr, sa, ch) <> None
                      /\ exists k, (k < 7)%nat /\ co_param o k < 0)).
    { intros (_ & _ & k & Hk & Hlt). specialize (Hall k Hk). lia. }
    destruct (co_fifo o =? -1) eqn:Hfifo; simpl.
    { apply Z.eqb_eq in Hfifo.
      do 3 eexists. split; [reflexivity|]. simpl.
      split; [right; lia|].
      split; [split; [lia|intros (_ & _ & _ & H & _); contradiction]|].
      split; [reflexivity|].
      split; [intros H; contradiction|].
      intros _. eexists. split; [reflexivity|]. simpl.
      split; [reflexivity|]. split; [reflexivity|]. split; [reflexivity|].
      split; [intros H; repeat (destruct H as [H|H]; [discriminate H|]);
              exact H|].
      split; [lia|]. intros _ H; discriminate H. }
    apply Z.eqb_neq in Hfifo.
    destruct (co_pause o =? -1) eqn:Hpause; simpl.
    { apply Z.eqb_eq in Hpause.
      do 3 eexists. split; [reflexivity|]. simpl.
      split; [right; lia|].
      split; [split; [lia|intros (_ & _ & _ & _ & H); contradiction]|].
      split; [reflexivity|].
      split; [intros H; contradiction|].
      intros _. eexists. split; [reflexivity|]. simpl.
      split; [reflexivity|]. split; [reflexivity|]. split; [reflexivity|].
      split; [intros H; repeat (destruct H as [H|H]; [discriminate H|]);
              exact H|].
      split; [lia|]. intros _ H; discriminate H. }
    apply Z.eqb_neq in Hpause.
    do 3 eexists. split; [reflexivity|]. simpl.
    split; [left; reflexivity|].
    split; [split; [intros _; repeat split; auto; discriminate|reflexivity]|].
    split; [reflexivity|].
    split; [intros H; contradiction|].
    intros _. eexists. split; [reflexivity|]. simpl.
    split; [reflexivity|]. split; [reflexivity|]. split; [reflexivity|].
    split; [intros H; repeat (destruct H as [H|H]; [discriminate H|]);
            exact H|].
    split; [|intros _ H; discriminate H].
    intros _. exists tr, sa, ch. repeat split.
  - destruct (r <? 0) eqn:Hlt; [|apply Z.ltb_ge in Hlt; lia].
    destruct (firstn_constraints_quiet (S k) sa ch) as (Hq1 & Hq2).
    remember (firstn (S k) (hw_constraints sa ch)) as cs eqn:Hcs.
    clear Heq Hcs.
    unfold lift_pcm, bluealsa_proxy_close. run_pcm.
    do 3 eexists. split; [reflexivity|].
    split; [right; exact Hneg|].
    split; [split; [lia|]|].
    { intros (_ & _ & Hall & _). specialize (Hall k Hk). lia. }
    split; [reflexivity|].
    split.
    + intros _. split; [reflexivity|].
      rewrite ?app_nil_r.
      split; [|split].
      * simpl. rewrite closes_app, Hq1. reflexivity.
      * replace (cs ++ [EvIoplugDelete; EvPcm (EvClose (co_open o));
                        EvPcm (EvClose (event_fd (pcm b)))])
          with ((cs ++ [EvIoplugDelete])
                ++ [EvPcm (EvClose (co_open o));
                    EvPcm (EvClose (event_fd (pcm b)))])
          by (rewrite <- app_assoc; reflexivity).
        apply (last_app_two
                 (EvBaOpen itf (co_open o)
                  :: EvGetTransport (co_open o) a t dir
                  :: cs ++ [EvIoplugDelete])).
      * right. right. apply in_or_app. right. left. reflexivity.
    + intros H. contradiction H.
      split; [exact Hopen|]. split; [discriminate|].
      exists k. split; [exact Hk|lia].
Qed.


(** X26. [open_bluez_connection], for a stream with no hardware
    parameters installed and a failed call leaving a positive [errno],
    returns 0 exactly when the control socket, the transport, the seven
    constraints, the FIFO and the resume all succeed, and a negative
    value otherwise.  It starts with the request for the control socket.
    Unless a constraint is refused, [the_pcm] keeps pointing to the
    stream, whose names are not touched, the descriptor of the control
    socket is stored whatever follows, nothing is closed and the
    structure of the host is not deleted; on 0 the stream holds the
    transport and the FIFO, and the resume is the last request; when the
    daemon has no transport the pointer to it is null and the descriptor
    of the FIFO is left as it was.  After a refused constraint the
    structure of the host is deleted, which runs [bluealsa_proxy_close]:
    the control socket just opened and the event descriptor are closed,
    the latter last, the block is freed and [the_pcm] is null.  Called
    with [the_pcm] null the function reads through it and does not
    return. *)
Theorem open_connection_result :
  forall o s,
    0 < co_open_errno o ->
    0 < co_transport_errno o ->
    0 < co_fifo_errno o ->
    0 < co_pause_errno o ->
    open_bluez_connection o None = None
    /\ exists r the_pcm' evs,
         open_bluez_connection o (Some s) = Some (r, the_pcm', evs)
         /\ (r = 0 \/ r < 0)
         /\ (r = 0 <-> conn_succeeds o)
         /\ head evs = Some (EvBaOpen (interface s) (co_open o))
         /\ (constraint_refused o ->
             the_pcm' = None
             /\ closes evs = [co_open o; event_fd (pcm (base s))]
             /\ last evs = Some (EvPcm (EvClose (event_fd (pcm (base s)))))
             /\ In EvIoplugDelete evs)
         /\ (~ constraint_refused o ->
             exists s',
               the_pcm' = Some s'
               /\ set_base (base s) s' = s
               /\ fd (pcm (base s')) = co_open o
               /\ closes evs = []
               /\ ~ In EvIoplugDelete evs
               /\ (r = 0 ->
                   exists tr sampling channels,
                     co_transport o = Some (tr, sampling, channels)
                     /\ transport (pcm (base s')) = Some tr
                     /\ pcm_fd (pcm (base s')) = co_fifo o
                     /\ last evs
                        = Some (EvPcm (EvPauseTransport (co_open o) false)))
               /\ (co_open o <> -1 -> co_transport o = None ->
                   transport (pcm (base s')) = None
                   /\ pcm_fd (pcm (base s')) = pcm_fd (pcm (base s)))).
Proof.
  intros o s H1 H2 H3 H4.
  split; [reflexivity|].
  exact (open_connection_run o s H1 H2 H3 H4).
Qed.

Lemma close_connection_run :
  forall rv s,
    exists s',
      close_bluez_connection rv s
      = Some (0, s',
              match transport (pcm (base s)) with
              | None => []
              | Some _ => [EvPcm (EvCloseTransport (fd (pcm (base s))));
                           EvPcm (EvClose (pcm_fd (pcm (base s))))]
              end ++ [EvPcm (EvClose (fd (pcm (base s))))])
      /\ set_base (base s) s' = s
      /\ fd (pcm (base s')) = fd (pcm (base s))
      /\ event_fd (pcm (base s')) = event_fd (pcm (base s))
      /\ transport (pcm (base s')) = transport (pcm (base s))
      /\ pcm_fd (pcm (base s'))
         = match transport (pcm (base s)) with
           | None => pcm_fd (pcm (base s))
           | Some _ => -1
           end.
Proof.
  intros rv s.
  unfold close_bluez_connection, lift_pcm, get_plugin, bind.
  run_pcm.
  destruct s as [b itf a prof t dir lv]. simpl.
  destruct (transport (pcm b)) eqn:Ht; simpl;
    eexists; (split; [reflexivity|]); simpl; rewrite ?Ht; auto.
Qed.

(** X26 on the capture stream of the examples: with the daemon of the
    examples the connection is made and the stream is kept; when the
    host refuses the lower bound of the period, the plug-in is closed
    and [the_pcm] is null. *)
Lemma open_connection_result_witness :
  (exists s' evs,
     open_bluez_connection conn_ok (Some plugin_capture)
     = Some (0, Some s', evs)
     /\ closes evs = []
     /\ fd (pcm (base s')) = 8
     /\ pcm_fd (pcm (base s')) = 9)
  /\ (exists evs,
        open_bluez_connection conn_refused (Some plugin_capture)
        = Some (-22, None, evs)
        /\ closes evs = [8; 4]).
Proof.
  split.
  - destruct (open_connection_result conn_ok plugin_capture
                ltac:(reflexivity) ltac:(reflexivity) ltac:(reflexivity)
                ltac:(reflexivity))
      as (_ & r & p & evs & Heq & _ & Hiff & _ & _ & Hkeep).
    assert (Hr : r = 0).
    { apply (proj2 Hiff). repeat split; discriminate. }
    assert (Hnot : ~ constraint_refused conn_ok).
    { intros (_ & _ & k & _ & Hk). simpl in Hk. lia. }
    destruct (Hkeep Hnot) as (s' & -> & _ & Hfd & Hcl & _ & Hok & _).
    destruct (Hok Hr) as (tr & sa & ch & _ & _ & Hfifo & _).
    exists s', evs. subst r.
    split; [exact Heq|]. split; [exact Hcl|].
    split; [exact Hfd|exact Hfifo].
  - destruct (open_connection_result conn_refused plugin_capture
                ltac:(reflexivity) ltac:(reflexivity) ltac:(reflexivity)
                ltac:(reflexivity))
      as (_ & r & p & evs & Heq & _ & _ & _ & Hgone & _).
    assert (Href : constraint_refused conn_refused).
    { split; [discriminate|]. split; [discriminate|].
      exists 3%nat. split; [lia|reflexivity]. }
    destruct (Hgone Href) as (-> & Hcl & _).
    exists evs.
    assert (Hr : r = -22) by (vm_compute in Heq; congruence).
    subst r. split; [exact Heq|exact Hcl].
Defined.

Lemma accepted_profile_fits prof :
  bluealsa_proxy_parse_profile (Some prof) <> PCM_TYPE_NULL ->
  strncpy prof PROFILE_STR_MAXLEN = Some prof.
Proof.
  unfold bluealsa_proxy_parse_profile.
  rewrite !strcasecmp_eq_lower.
  change (lower "a2dp") with "a2dp"%string.
  change (lower "sco") with "sco"%string.
  intros H. pose proof (lower_length prof) as Hl.
  unfold strncpy, PROFILE_STR_MAXLEN.
  destruct (String.eqb (lower prof) "a2dp") eqn:Ha.
  - apply String.eqb_eq in Ha. rewrite Ha in Hl. simpl in Hl.
    rewrite <- Hl. reflexivity.
  - destruct (String.eqb (lower prof) "sco") eqn:Hs.
    + apply String.eqb_eq in Hs. rewrite Hs in Hl. simpl in Hl.
      rewrite <- Hl. reflexivity.
    + contradiction H. reflexivity.
Qed.

Section RemoteDeviceFacts.

Variable str2ba : string -> Z * list Z.

Abbreviation set_remote_device :=
  (bluealsa_proxy_set_remote_device str2ba).


(** X28. With a plug-in open (no hardware parameters installed), an
    address [str2ba] accepts and the profile a2dp or sco in any case,
    [bluealsa_proxy_set_remote_device] first closes the old connection
    (the transport and the FIFO when there is a transport, then the
    control socket) and only then asks for the new control socket, on the
    interface just stored.  What it returns is what the new connection
    gives: 0 exactly when every step of it succeeds, a negative value
    otherwise.  Unless the host refuses a constraint, [the_pcm] keeps
    pointing to the stream, which holds the new address, type, profile
    and interface and the result of the request for the control socket;
    this is so on success and on every other failure.  When the host
    refuses a constraint the plug-in is closed: the new control socket
    and the event descriptor are closed and [the_pcm] is null, so
    nothing stays stored. *)
Theorem set_remote_device_reconnects :
  forall rv o itf dev prof s,
    fst (str2ba dev) = 0 ->
    bluealsa_proxy_parse_profile (Some prof) <> PCM_TYPE_NULL ->
    0 < co_open_errno o ->
    0 < co_transport_errno o ->
    0 < co_fifo_errno o ->
    0 < co_pause_errno o ->
    exists r the_pcm' evs_open,
      set_remote_device rv o itf (Some dev) (Some prof) (Some s)
      = Some (r, the_pcm', close_events s ++ evs_open)
      /\ (r = 0 \/ r < 0)
      /\ (r = 0 <-> conn_succeeds o)
      /\ head evs_open
         = Some (EvBaOpen (strncpy itf INTERFACE_STR_MAXLEN) (co_open o))
      /\ (~ constraint_refused o ->
          closes evs_open = []
          /\ exists s',
               the_pcm' = Some s'
               /\ addr s' = snd (str2ba dev)
               /\ type s' = bluealsa_proxy_parse_profile (Some prof)
               /\ profile s' = Some prof
               /\ interface s' = strncpy itf INTERFACE_STR_MAXLEN
               /\ pcm_stream s' = pcm_stream s
               /\ fd (pcm (base s')) = co_open o)
      /\ (constraint_refused o ->
          the_pcm' = None
          /\ r < 0
          /\ closes evs_open = [co_open o; event_fd (pcm (base s))]).
Proof.
  intros rv o itf dev prof s Hrc Hprof He1 He2 He3 He4.
  pose proof (accepted_profile_fits prof Hprof) as Hfit.
  unfold bluealsa_proxy_set_remote_device.
  rewrite Hrc. simpl negb. cbv iota.
  assert (Hgo :
    forall t,
      bluealsa_proxy_parse_profile (Some prof) = t ->
      exists r the_pcm' evs_open,
        (on_the_pcm (close_bluez_connection rv);;; open_bluez_connection o)
          (Some (set_remote (strncpy itf INTERFACE_STR_MAXLEN)
                   (strncpy prof PROFILE_STR_MAXLEN) t
                   (set_addr (snd (str2ba dev)) s)))
        = Some (r, the_pcm', close_events s ++ evs_open)
        /\ (r = 0 \/ r < 0)
        /\ (r = 0 <-> conn_succeeds o)
        /\ head evs_open
           = Some (EvBaOpen (strncpy itf INTERFACE_STR_MAXLEN) (co_open o))
        /\ (~ constraint_refused o ->
            closes evs_open = []
            /\ exists s',
                 the_pcm' = Some s'
                 /\ addr s' = snd (str2ba dev)
                 /\ type s' = t
                 /\ profile s' = Some prof
                 /\ interface s' = strncpy itf INTERFACE_STR_MAXLEN
                 /\ pcm_stream s' = pcm_stream s
                 /\ fd (pcm (base s')) = co_open o)
        /\ (constraint_refused o ->
            the_pcm' = None
            /\ r < 0
            /\ closes evs_open = [co_open o; event_fd (pcm (base s))])).
  { intros t _. rewrite Hfit. unfold bind, on_the_pcm.
    match goal with
    | |- context [close_bluez_connection rv ?s2] =>
      destruct (close_connection_run rv s2)
        as (s3 & Hclose & Hsame & _ & Hefd & _);
      rewrite Hclose;
      destruct (open_connection_run o s3 He1 He2 He3 He4)
        as (r & p4 & evs & Hopen & Hr & Hiff & Hhead & Hgone & Hkeep);
      rewrite Hopen
    end.
    exists r, p4, evs.
    assert (Hitf : interface s3 = strncpy itf INTERFACE_STR_MAXLEN)
      by (apply (f_equal interface) in Hsame; exact Hsame).
    split; [reflexivity|].
    split; [exact Hr|]. split; [exact Hiff|].
    split; [rewrite Hhead, Hitf; reflexivity|].
    split.
    - intros Hnot.
      destruct (Hkeep Hnot) as (s4 & -> & Hsame4 & Hfd & Hcl & _).
      split; [exact Hcl|].
      exists s4.
      assert (Hnames :
        set_base (base s) s4
        = set_remote (strncpy itf INTERFACE_STR_MAXLEN) (Some prof) t
            (set_addr (snd (str2ba dev)) s)).
      { rewrite <- Hsame, <- Hsame4. destruct s4, s3; reflexivity. }
      split; [reflexivity|].
      split; [apply (f_equal addr) in Hnames; exact Hnames|].
      split; [apply (f_equal type) in Hnames; exact Hnames|].
      split; [apply (f_equal profile) in Hnames; exact Hnames|].
      split; [apply (f_equal interface) in Hnames; exact Hnames|].
      split; [apply (f_equal pcm_stream) in Hnames; exact Hnames|].
      exact Hfd.
    - intros Href.
      destruct (Hgone Href) as (-> & Hcl & _).
      split; [reflexivity|].
      split.
      + destruct Hr as [Hr|Hr]; [|exact Hr].
        apply (proj1 Hiff) in Hr.
        destruct Hr as (_ & _ & Hall & _).
        destruct Href as (_ & _ & k & Hk & Hlt).
        specialize (Hall k Hk). lia.
      + rewrite Hcl, Hefd. reflexivity. }
  destruct (bluealsa_proxy_parse_profile (Some prof)) eqn:Ht;
    [contradiction|apply Hgo; reflexivity..].
Qed.

End RemoteDeviceFacts.


(** X28 on the capture stream of the examples: with the daemon of the
    examples the stream is kept with its new names; when the host
    refuses the lower bound of the period, the plug-in is closed. *)
Lemma set_remote_device_reconnects_witness :
  (exists s' evs,
     bluealsa_proxy_set_remote_device str2ba_pair 0 conn_ok "hci0"
       (Some "AA:BB:CC:DD:EE:FF"%string) (Some "A2DP"%string)
       (Some plugin_capture)
     = Some (0, Some s', evs)
     /\ addr s' = [255; 238; 221; 204; 187; 170]
     /\ type s' = PCM_TYPE_A2DP
     /\ fd (pcm (base s')) = 8)
  /\ (exists evs_open,
        bluealsa_proxy_set_remote_device str2ba_pair 0 conn_refused "hci0"
          (Some "AA:BB:CC:DD:EE:FF"%string) (Some "A2DP"%string)
          (Some plugin_capture)
        = Some (-22, None, close_events plugin_capture ++ evs_open)
        /\ closes evs_open = [8; 4]).
Proof.
  split.
  - destruct (set_remote_device_reconnects str2ba_pair 0 conn_ok "hci0"
                "AA:BB:CC:DD:EE:FF" "A2DP" plugin_capture
                ltac:(reflexivity) ltac:(discriminate) ltac:(reflexivity)
                ltac:(reflexivity) ltac:(reflexivity) ltac:(reflexivity))
      as (r & p & evs & Heq & _ & Hiff & _ & Hkeep & _).
    assert (Hr : r = 0).
    { apply (proj2 Hiff). repeat split; discriminate. }
    assert (Hnot : ~ constraint_refused conn_ok).
    { intros (_ & _ & k & _ & Hk). simpl in Hk. lia. }
    destruct (Hkeep Hnot) as (_ & s' & -> & Ha & Ht & _ & _ & _ & Hfd).
    exists s', (close_events plugin_capture ++ evs). subst r.
    split; [exact Heq|]. split; [exact Ha|]. split; [exact Ht|exact Hfd].
  - destruct (set_remote_device_reconnects str2ba_pair 0 conn_refused "hci0"
                "AA:BB:CC:DD:EE:FF" "A2DP" plugin_capture
                ltac:(reflexivity) ltac:(discriminate) ltac:(reflexivity)
                ltac:(reflexivity) ltac:(reflexivity) ltac:(reflexivity))
      as (r & p & evs & Heq & _ & _ & _ & _ & Hgone).
    assert (Href : constraint_refused conn_refused).
    { split; [discriminate|]. split; [discriminate|].
      exists 3%nat. split; [lia|reflexivity]. }
    destruct (Hgone Href) as (-> & _ & Hcl).
    exists evs.
    assert (Hr : r = -22) by (vm_compute in Heq; congruence).
    subst r. split; [exact Heq|exact Hcl].
Defined.


(** X29. The constructor of the plug-in, every error number being
    positive, returns 0 exactly when the allocation, the event descriptor,
    the structure of the host and the IO thread are all obtained, and a
    negative value otherwise.  On 0 [the_pcm] is the new stream, with no
    control socket, no FIFO and no transport, not started, and nothing
    has been closed.  On every failure after the event descriptor was
    created, that descriptor is closed last.  [the_pcm] is left as it was
    when the failure comes before the thread; when the thread cannot be
    created, [the_pcm] is not null and points to the block that has just
    been freed. *)
Theorem constructor_result :
  forall o dir c the_pcm,
    0 < cr_eventfd_errno o ->
    0 <= cr_pthread_create o ->
    exists r the_pcm' evs,
      snd_pcm_bluealsa_proxy_open o dir c the_pcm = Some (r, the_pcm', evs)
      /\ (r = 0 \/ r < 0)
      /\ (r = 0 <-> create_succeeds o)
      /\ (r = 0 ->
          the_pcm' = Some (zero_pcm dir (cr_eventfd o) c)
          /\ closes evs = [])
      /\ (r <> 0 -> cr_calloc o = true -> cr_eventfd o <> -1 ->
          closes evs = [cr_eventfd o]
          /\ last evs = Some (EvPcm (EvClose (cr_eventfd o))))
      /\ (r <> 0 ->
          (In EvThreadCreate evs -> 
           the_pcm' = Some (set_live false (zero_pcm dir (cr_eventfd o) c)))
          /\ (~ In EvThreadCreate evs -> the_pcm' = the_pcm)).
Proof.
  intros o dir c the_pcm Herr Hth.
  unfold snd_pcm_bluealsa_proxy_open, create_succeeds.
  assert (HE : ENOMEM = 12) by reflexivity.
  destruct (cr_calloc o) eqn:Hc; simpl.
  2:{ do 3 eexists. split; [reflexivity|]. rewrite HE.
      split; [right; lia|].
      split; [split; [lia|intros (H & _); discriminate H]|].
      split; [lia|]. split; [intros _ H; discriminate H|].
      intros _. split; [intros []|auto]. }
  destruct (cr_eventfd o =? -1) eqn:He; simpl.
  { apply Z.eqb_eq in He.
    do 3 eexists. split; [reflexivity|].
    split; [right; lia|].
    split; [split; [lia|intros (_ & H & _); contradiction]|].
    split; [lia|]. split; [intros _ _ H; contradiction|].
    intros _. split; [intros [H|[]]; discriminate H|auto]. }
  apply Z.eqb_neq in He.
  destruct (cr_ioplug_create o <? 0) eqn:Hi; simpl.
  { apply Z.ltb_lt in Hi.
    do 3 eexists. split; [reflexivity|].
    split; [right; lia|].
    split; [split; [lia|intros (_ & _ & H & _); lia]|].
    split; [lia|]. split; [intros _ _ _; split; reflexivity|].
    intros _. split; [intros [H|[H|[H|[]]]]; discriminate H|auto]. }
  apply Z.ltb_ge in Hi.
  destruct (cr_pthread_create o =? 0) eqn:Ht; simpl.
  2:{ apply Z.eqb_neq in Ht.
      do 3 eexists. split; [reflexivity|].
      split; [right; lia|].
      split; [split; [lia|intros (_ & _ & _ & H); contradiction]|].
      split; [lia|]. split; [intros _ _ _; split; reflexivity|].
      intros _. split; [auto|].
      intros H. contradiction H. simpl. auto. }
  apply Z.eqb_eq in Ht.
  do 3 eexists. split; [reflexivity|].
  split; [left; reflexivity|].
  split; [split; [auto|reflexivity]|].
  split; [auto|]. split; [intros H; contradiction|].
  intros H. contradiction.
Qed.

Lemma constructor_result_witness :
  exists r the_pcm' evs,
    snd_pcm_bluealsa_proxy_open create_no_thread SND_PCM_STREAM_CAPTURE 0
      None
    = Some (r, the_pcm', evs)
    /\ r = -11
    /\ the_pcm'
       = Some (set_live false (zero_pcm SND_PCM_STREAM_CAPTURE 4 0))
    /\ closes evs = [4].
Proof.
  destruct (constructor_result create_no_thread SND_PCM_STREAM_CAPTURE 0
              None ltac:(reflexivity) ltac:(discriminate))
    as (r & p & evs & Heq & _ & _ & _ & Hclose & Hptr).
  exists r, p, evs.
  assert (Hr : r = -11) by (vm_compute in Heq; congruence).
  split; [exact Heq|]. split; [exact Hr|].
  assert (Hne : r <> 0) by (rewrite Hr; discriminate).
  split.
  - apply (proj1 (Hptr Hne)). vm_compute in Heq.
    inversion Heq; subst. simpl. auto.
  - apply (proj1 (Hclose Hne ltac:(reflexivity) ltac:(discriminate))).
Defined.


(** X30. Over a life of the plug-in in which the constructor and the
    connection to the remote device succeed, the descriptors closed are,
    in order: -1 (the stream has no control socket yet when the old
    connection is closed), the FIFO if and only if the hardware
    parameters are released before the close, then the control socket
    and the event descriptor.  [bluealsa_proxy_close] itself never closes
    the FIFO, and it leaves [the_pcm] null. *)
Theorem plugin_life_closes :
  forall str2ba cr dir c o itf dev prof free,
    create_succeeds cr ->
    conn_succeeds o ->
    fst (str2ba dev) = 0 ->
    bluealsa_proxy_parse_profile (Some prof) <> PCM_TYPE_NULL ->
    exists evs,
      plugin_life str2ba cr dir c o itf dev prof free None
      = Some (0, None, evs)
      /\ closes evs
         = -1 :: (if free then [co_fifo o] else [])
              ++ [co_open o; cr_eventfd cr].
Proof.
  intros str2ba cr dir c o itf dev prof free
    (Hc1 & Hc2 & Hc3 & Hc4) (Ho1 & Ho2 & Ho3 & Ho4 & Ho5) Hrc Hprof.
  pose proof (accepted_profile_fits prof Hprof) as Hfit.
  apply Z.eqb_neq in Hc2, Ho1, Ho4, Ho5.
  apply Z.ltb_ge in Hc3.
  assert (Hp : forall k, (k < 7)%nat -> (co_param o k <? 0) = false)
    by (intros k Hk; apply Z.ltb_ge; apply Ho3; exact Hk).
  destruct (co_transport o) as [[[tr sa] ch]|] eqn:Htr; [|contradiction].
  unfold plugin_life, bind, snd_pcm_bluealsa_proxy_open.
  rewrite Hc1, Hc2, Hc3, Hc4. simpl.
  unfold bluealsa_proxy_set_remote_device.
  rewrite Hrc. simpl negb. cbv iota.
  unfold bluealsa_proxy_parse_profile in *.
  destruct (strcasecmp_eq prof "a2dp");
    [|destruct (strcasecmp_eq prof "sco"); [|contradiction]];
    unfold close_bluez_connection, open_bluez_connection,
      bluealsa_proxy_set_hw_constraint, or_return, lift_pcm, get_plugin,
      modify_base, on_the_pcm, snd_pcm_ioplug_delete,
      bluealsa_proxy_close_plugin, bluealsa_proxy_hw_free,
      bluealsa_proxy_close, bind;
    run_pcm;
    rewrite Ho1, Htr; simpl;
    rewrite !Hp by lia; simpl;
    rewrite Ho4; simpl; rewrite Ho5; simpl;
    destruct free; simpl; eexists; split; reflexivity.
Qed.

Lemma plugin_life_closes_witness :
  exists evs,
    plugin_life str2ba_pair create_ok SND_PCM_STREAM_CAPTURE 0 conn_ok
      "hci0" "AA:BB:CC:DD:EE:FF" "sco" false None
    = Some (0, None, evs)
    /\ closes evs = [-1; 8; 4].
Proof.
  apply (plugin_life_closes str2ba_pair create_ok SND_PCM_STREAM_CAPTURE 0
           conn_ok "hci0" "AA:BB:CC:DD:EE:FF" "sco" false).
  - repeat split; discriminate.
  - repeat split; discriminate.
  - reflexivity.
  - discriminate.
Defined.

End PcmExtra.
